(** * terra-profile: the cipher, the encrypted key-value store, the
    authentication resolvers and the identity-linking handlers

    A shallow embedding of [crypto.js], [encryptedkvdb.js], the helpers of
    the launcher [index.js] and the two variants of [server.js] (the
    middleware variant, whose handlers receive their collaborators through
    [res.locals], and the singleton variant, which keeps [config],
    [crypto] and [ekvdb] in module-level variables).

    A JavaScript string is held as the Rocq string of its UTF-8 bytes; a
    surrogate without its partner, for which UTF-8 has no form, is held
    as the three bytes the same scheme gives its code (WTF-8).  Every
    JavaScript string has exactly one such text, and the text of an ASCII
    string is the string itself.  A JavaScript number is a double: the
    integers among them are held as integers, the others by the text
    JavaScript prints them with.  What Node and its libraries provide
    (AES, base64, randomness, UTF-8 decoding, [JSON.parse], [jwt.verify],
    HTTPS, arithmetic on numbers that are no integers) is an interface,
    [Platform]; what the MySQL server does with a statement is an
    interface, [SqlEngine]. *)

From Stdlib Require Import ZArith Lia String Ascii List DecimalString DecimalPos.
From Stdlib.Strings Require Import Byte.
From stdpp Require Import base tactics option list gmap strings.

Local Open Scope Z_scope.

#[local] Set Warnings "-register-all,-clear-no-such-hyp".

(** ** JavaScript values and built-ins *)

Module Js.

(** A parsed JSON document.  A number whose value is an integer is
    [JNum]; [JSON.parse] makes the nearest double of it.  Any other number
    (one with a fraction) is [JFloat], with the text [toString] gives the
    double. *)
Inductive json :=
| JNull
| JBool (b : bool)
| JNum (n : Z)
| JFloat (text : string)
| JStr (s : string)
| JArr (items : list json)
| JObj (members : list (string * json)).

(** What an expression of the handlers can evaluate to: [undefined], a
    function inherited from a prototype, or JSON data. *)
Inductive jsval :=
| VUndefined
| VFunction (name : string)
| VJson (j : json).

Definition VStr (s : string) : jsval := VJson (JStr s).

(** A number: a double that is an integer, [NaN], or any other double (a
    fraction or an infinity) by the text [toString] gives it. *)
Inductive jsnum :=
| NNum (n : Z)
| NNaN
| NFloat (text : string).

(** The result of the binary [+]: a number or a string. *)
Inductive jsprim :=
| PNum (n : jsnum)
| PStr (s : string).

(** Exceptions the modelled code throws; [HeadersSent] is Node's
    [ERR_HTTP_HEADERS_SENT]. *)
Inductive StoreOp := Updating | Inserting.

Inductive Exn :=
| TypeError (what : string)
| CryptoError (what : string)
| DriverError (err : string)
| WriteConflict (op : StoreOp) (userId : jsval) (key : string) (affectedRows : nat)
| StructError (message : string)
| HeadersSent.

Inductive Res (A : Type) :=
| Ok (a : A)
| Throw (e : Exn).
Arguments Ok {A} a.
Arguments Throw {A} e.

(** Truthiness, as [if (x)] and [!x] and [x || y] read it. *)
Definition truthy_json (j : json) : bool :=
  match j with
  | JNull => false
  | JBool b => b
  | JNum n => negb (n =? 0)
  | JFloat _ => true
  | JStr s => negb (String.eqb s "")
  | JArr _ | JObj _ => true
  end.

Definition truthy_string (s : string) : bool := negb (String.eqb s "").

(** [o || fallback] on a string that may be [undefined]. *)
Definition truthy_opt (o : option string) : bool :=
  match o with
  | Some s => truthy_string s
  | None => false
  end.

(** *** White space and letter case *)

Definition code (c : ascii) : N := N_of_ascii c.

(** The white space of [trim], of [\s] in a regular expression and of
    [parseInt]: U+0009 to U+000D and U+0020 (one byte); U+00A0 (the bytes
    C2 A0); U+1680, U+2000 to U+200A, U+2028, U+2029, U+202F, U+205F,
    U+3000 and U+FEFF (three bytes each). *)
Definition white_space1 (c : ascii) : bool :=
  ((9 <=? code c) && (code c <=? 13) || (code c =? 32))%N.

Definition white_space2 (c d : ascii) : bool :=
  ((code c =? 194) && (code d =? 160))%N.

Definition white_space3 (c d e : ascii) : bool :=
  ((code c =? 225) && (code d =? 154) && (code e =? 128)
   || (code c =? 226) && (code d =? 128) &&
      ((128 <=? code e) && (code e <=? 138)
       || (code e =? 168) || (code e =? 169) || (code e =? 175))
   || (code c =? 226) && (code d =? 129) && (code e =? 159)
   || (code c =? 227) && (code d =? 128) && (code e =? 128)
   || (code c =? 239) && (code d =? 187) && (code e =? 191))%N.

(** The number of bytes of the white-space character a text starts
    with, 0 if it starts with none; and the same for a text given from its
    end backwards. *)
Definition white_space_width (s : string) : nat :=
  match s with
  | EmptyString => 0
  | String c s1 =>
      if white_space1 c then 1
      else match s1 with
           | EmptyString => 0
           | String d s2 =>
               if white_space2 c d then 2
               else match s2 with
                    | EmptyString => 0
                    | String e _ => if white_space3 c d e then 3 else 0
                    end
           end
  end%nat.

Definition white_space_width_rev (s : string) : nat :=
  match s with
  | EmptyString => 0
  | String e s1 =>
      if white_space1 e then 1
      else match s1 with
           | EmptyString => 0
           | String d s2 =>
               if white_space2 d e then 2
               else match s2 with
                    | EmptyString => 0
                    | String c _ => if white_space3 c d e then 3 else 0
                    end
           end
  end%nat.

(** A text without the white space it starts with. *)
Fixpoint strip (width : string -> nat) (s : string) : string :=
  match s with
  | EmptyString => EmptyString
  | String _ s1 =>
      match width s with
      | 1%nat => strip width s1
      | 2%nat =>
          match s1 with
          | String _ s2 => strip width s2
          | _ => s
          end
      | 3%nat =>
          match s1 with
          | String _ (String _ s3) => strip width s3
          | _ => s
          end
      | _ => s
      end
  end.

(** [String.prototype.trim]. *)
Definition trimStart (s : string) : string := strip white_space_width s.

Definition trimEnd (s : string) : string :=
  String.rev (strip white_space_width_rev (String.rev s)).

Definition trim (s : string) : string := trimEnd (trimStart s).

(** [s.split(/\s+/)]: the pieces between maximal runs of white space, an
    empty piece before a leading run and after a trailing one. *)
Fixpoint split_ws_go (cur : string) (in_sep : bool) (s : string) : list string :=
  match s with
  | EmptyString => [String.rev cur]
  | String c s1 =>
      match white_space_width s with
      | 1%nat =>
          if in_sep then split_ws_go cur true s1
          else String.rev cur :: split_ws_go EmptyString true s1
      | 2%nat =>
          match s1 with
          | String _ s2 =>
              if in_sep then split_ws_go cur true s2
              else String.rev cur :: split_ws_go EmptyString true s2
          | _ => split_ws_go (String c cur) false s1
          end
      | 3%nat =>
          match s1 with
          | String _ (String _ s3) =>
              if in_sep then split_ws_go cur true s3
              else String.rev cur :: split_ws_go EmptyString true s3
          | _ => split_ws_go (String c cur) false s1
          end
      | _ => split_ws_go (String c cur) false s1
      end
  end.

Definition split_ws (s : string) : list string := split_ws_go EmptyString false s.

(** [toLowerCase], as far as the result is compared with a word of ASCII
    letters, which is all the code does with it: the characters whose
    lower case is an ASCII letter are the letters A to Z and U+212A, the
    Kelvin sign (the bytes E2 84 AA), whose lower case is [k]; every other
    character is left as it is here. *)
Definition lower_ascii (c : ascii) : ascii :=
  let n := nat_of_ascii c in
  if (Nat.leb 65 n && Nat.leb n 90)%bool then ascii_of_nat (n + 32) else c.

Definition kelvin (c d e : ascii) : bool :=
  ((code c =? 226) && (code d =? 132) && (code e =? 170))%N.

Fixpoint toLowerCase (s : string) : string :=
  match s with
  | EmptyString => EmptyString
  | String c s1 =>
      match s1 with
      | String d (String e s3) =>
          if kelvin c d e then String "k" (toLowerCase s3)
          else String (lower_ascii c) (toLowerCase s1)
      | _ => String (lower_ascii c) (toLowerCase s1)
      end
  end.

(** *** UTF-8 *)

(** The first two of the three bytes of a surrogate, U+D800 to U+DFFF. *)
Definition surrogate (c d : ascii) : bool :=
  ((code c =? 237) && (160 <=? code d))%N.

(** [s.toWellFormed()]: every surrogate without its partner replaced by
    U+FFFD (the bytes EF BF BD).  In the text of a string the surrogates
    that have their partner are part of a four-byte character, so every
    surrogate in three bytes is one without. *)
Fixpoint toWellFormed (s : string) : string :=
  match s with
  | EmptyString => EmptyString
  | String c s1 =>
      match s1 with
      | String d (String e s3) =>
          if surrogate c d
          then String "239" (String "191" (String "189" (toWellFormed s3)))
          else String c (toWellFormed s1)
      | _ => String c (toWellFormed s1)
      end
  end.

(** [s.isWellFormed()]. *)
Definition isWellFormed (s : string) : bool := String.eqb (toWellFormed s) s.

(** [Buffer.from(s, 'utf8')], and what a cipher makes of a string it is
    given with the [utf8] encoding: the UTF-8 bytes of the string, U+FFFD
    for a surrogate without its partner. *)
Definition utf8_encode (s : string) : list byte := list_byte_of_string (toWellFormed s).

(** [s.split(sep)] for a one-character separator. *)
Fixpoint split_on_go (sep : ascii) (cur : string) (s : string) : list string :=
  match s with
  | EmptyString => [String.rev cur]
  | String c s' =>
      if Ascii.eqb c sep
      then String.rev cur :: split_on_go sep EmptyString s'
      else split_on_go sep (String c cur) s'
  end.

Definition split_on (sep : ascii) (s : string) : list string :=
  split_on_go sep EmptyString s.

(** *** Numbers *)

(** The decimal digits of an integer. *)
Definition decimal (n : Z) : string := NilZero.string_of_int (Z.to_int n).

(** The double nearest to an integer, ties to the even mantissa: an
    integer of at most 53 bits is a double; a longer one is rounded to its
    53 leading bits. *)
Definition round53 (n : Z) : Z :=
  let a := Z.abs n in
  let bits := Z.log2 a + 1 in
  if bits <=? 53 then n
  else
    let sh := bits - 53 in
    let q := Z.shiftr a sh in
    let r := a - Z.shiftl q sh in
    let half := Z.shiftl 1 (sh - 1) in
    let q' := if r <? half then q
              else if half <? r then q + 1
              else if Z.even q then q else q + 1 in
    Z.sgn n * Z.shiftl q' sh.

(** The number an integer literal, or the exact result of an operation on
    integers, becomes: the nearest double, an infinity from 2^1024 on. *)
Definition to_double (n : Z) : jsnum :=
  let r := round53 n in
  if Z.log2 (Z.abs r) <? 1024 then NNum r
  else NFloat (if n <? 0 then "-Infinity" else "Infinity").

(** [Number.prototype.toString] of a double that is an integer.  Below
    2^53 in size the digits are those of the integer.  From there on they
    are the shortest run of digits [s], at most 17, for which some
    [s * 10^e] still rounds to the double, the nearest to it if there are
    two, followed by [e] zeros; from 10^21 on they are written with an
    exponent. *)
Definition digits_of (x : Z) : Z := Z.of_nat (String.length (decimal x)).

(** The candidate with [k] digits, if one rounds to [x]: [(s, e)]. *)
Definition shortest_at (x : Z) (k : Z) : option (Z * Z) :=
  let e := Z.max 0 (digits_of x - k) in
  let p := 10 ^ e in
  let lo := x / p in
  let hi := lo + 1 in
  let ok_lo := round53 (lo * p) =? x in
  let ok_hi := round53 (hi * p) =? x in
  if ok_lo && ok_hi then
    if x - lo * p <=? hi * p - x then Some (lo, e) else Some (hi, e)
  else if ok_lo then Some (lo, e)
  else if ok_hi then Some (hi, e)
  else None.

Fixpoint shortest_from (x : Z) (k : Z) (fuel : nat) : Z * Z :=
  match fuel with
  | O => (x, 0)
  | Datatypes.S fuel' =>
      match shortest_at x k with
      | Some se => se
      | None => shortest_from x (k + 1) fuel'
      end
  end.

(** A run of digits without the zeros it ends with, which add to the
    exponent. *)
Fixpoint strip_zeros (fuel : nat) (s e : Z) : Z * Z :=
  match fuel with
  | O => (s, e)
  | Datatypes.S fuel' =>
      if (s mod 10 =? 0) && negb (s =? 0) then strip_zeros fuel' (s / 10) (e + 1)
      else (s, e)
  end.

Definition zeros (e : Z) : string :=
  match decimal (10 ^ e) with
  | String _ z => z
  | EmptyString => EmptyString
  end.

Definition positive_toString (x : Z) : string :=
  if x <? 2 ^ 53 then decimal x
  else
    let '(s, e) := shortest_from x 1 17 in
    let '(s, e) := strip_zeros 17 s e in
    let digits := decimal s in
    let n := Z.of_nat (String.length digits) + e in
    if n <=? 21 then String.append digits (zeros e)
    else
      match digits with
      | EmptyString => EmptyString
      | String d EmptyString => String d (String.append "e+" (decimal (n - 1)))
      | String d rest =>
          String d (String "." (String.append rest (String.append "e+" (decimal (n - 1)))))
      end.

Definition number_toString (n : Z) : string :=
  if n <? 0 then String "-" (positive_toString (- n)) else positive_toString n.

Definition jsnum_toString (n : jsnum) : string :=
  match n with
  | NNum z => number_toString z
  | NNaN => "NaN"%string
  | NFloat text => text
  end.

(** [x[name]] for the property names the handlers read ([sub], [iat],
    [eraCommonsUsername] and the names of the configuration): reading a
    property of [null] throws; a string inherits [sub] from its prototype;
    an object yields its last member of that name. *)
Fixpoint member (name : string) (members : list (string * json)) : option json :=
  match members with
  | [] => None
  | (k, v) :: rest =>
      match member name rest with
      | Some v' => Some v'
      | None => if String.eqb k name then Some v else None
      end
  end.

Definition prop (x : json) (name : string) : Res jsval :=
  match x with
  | JNull => Throw (TypeError "Cannot read properties of null")
  | JObj members =>
      match member name members with
      | Some v => Ok (VJson v)
      | None => Ok VUndefined
      end
  | JStr _ => if String.eqb name "sub" then Ok (VFunction "sub") else Ok VUndefined
  | _ => Ok VUndefined
  end.

(** [String(x)] of JSON data, as a string concatenation and a template
    need it: an array joins the texts of its elements with commas ([null]
    gives no text); an object that has a property [toString] of its own,
    which in JSON data is nothing that can be called, throws, and any
    other object prints as [[object Object]]. *)
Fixpoint json_toString (j : json) : Res string :=
  match j with
  | JNull => Ok "null"%string
  | JBool b => Ok (if b then "true"%string else "false"%string)
  | JNum n => Ok (jsnum_toString (to_double n))
  | JFloat text => Ok text
  | JStr s => Ok s
  | JArr items =>
      (fix join (items : list json) : Res string :=
         match items with
         | [] => Ok EmptyString
         | x :: rest =>
             match (match x with JNull => Ok EmptyString | _ => json_toString x end) with
             | Throw e => Throw e
             | Ok text =>
                 match rest with
                 | [] => Ok text
                 | _ =>
                     match join rest with
                     | Throw e => Throw e
                     | Ok texts => Ok (String.append text (String "," texts))
                     end
                 end
             end
         end) items
  | JObj members =>
      match member "toString" members with
      | Some _ => Throw (TypeError "Cannot convert object to primitive value")
      | None => Ok "[object Object]"%string
      end
  end.

(** [`${x}`] of a value. *)
Definition template (x : jsval) : Res string :=
  match x with
  | VUndefined => Ok "undefined"%string
  | VFunction name =>
      Ok (String.append (String.append "function " name) "() { [native code] }")
  | VJson j => json_toString j
  end.

(** [parseInt(s)]: leading white space, a sign, then the longest run of
    digits, in base 16 after [0x] and in base 10 otherwise; [NaN] when there
    is no digit; the double nearest to the value of the digits. *)
Definition digit_value (c : ascii) : option Z :=
  let n := Z.of_nat (nat_of_ascii c) in
  if (48 <=? n) && (n <=? 57) then Some (n - 48)
  else if (97 <=? n) && (n <=? 102) then Some (n - 87)
  else if (65 <=? n) && (n <=? 70) then Some (n - 55)
  else None.

Fixpoint digits_go (radix : Z) (acc : option Z) (s : string) : option Z :=
  match s with
  | EmptyString => acc
  | String c s' =>
      match digit_value c with
      | Some d =>
          if d <? radix
          then digits_go radix (Some (from_option id 0 acc * radix + d)) s'
          else acc
      | None => acc
      end
  end.

Definition parse_magnitude (s : string) : option Z :=
  match s with
  | String "0" (String "x" s') | String "0" (String "X" s') => digits_go 16 None s'
  | _ => digits_go 10 None s
  end.

Definition parseInt_string (s : string) : jsnum :=
  let s := trimStart s in
  let '(neg, body) :=
    match s with
    | String "-" s' => (true, s')
    | String "+" s' => (false, s')
    | _ => (false, s)
    end in
  match parse_magnitude body with
  | Some m => to_double (if neg then - m else m)
  | None => NNaN
  end.

(** [parseInt(x)] where [x] may be [undefined], which reads as the text
    "undefined". *)
Definition parseInt (x : option string) : jsnum :=
  parseInt_string (default "undefined"%string x).

End Js.
Export Js.

(** ** The collaborators: Node's libraries and the SQL server *)

(** What Node and the libraries the service loads provide.  AES-256-CBC
    with PKCS#7 padding over raw bytes ([aes256cbc_decrypt] is [None] where
    [decipher.final] throws), base64 ([Buffer.from(s, 'base64')] never
    throws), the string Node decodes from bytes as UTF-8
    ([buffer.toString()], and what a decipher returns with the [utf8]
    encoding), the bytes [crypto.randomBytes] returns at its [i]-th call,
    [JSON.parse] ([None] where it throws), [jwt.verify] with the RS256
    option (the error it throws, if any), an HTTPS GET (status code and
    body), and the sum and the product of a number that is no integer,
    given by its text, with an integer. *)
Class Platform := {
  aes256cbc_encrypt : list byte -> list byte -> list byte -> list byte;
  aes256cbc_decrypt : list byte -> list byte -> list byte -> option (list byte);
  base64_encode : list byte -> string;
  base64_decode : string -> list byte;
  utf8_decode : list byte -> string;
  random_byte : nat -> nat -> byte;
  JSON_parse : string -> option json;
  jwt_verify : string -> string -> option string;
  https_get : string -> string -> nat * string;
  float_plus : string -> Z -> jsnum;
  float_times : string -> Z -> jsnum
}.

(** The contracts of those libraries the proofs rely on.  Decoding the
    UTF-8 bytes of a string gives the string back, with U+FFFD for every
    surrogate that had no partner.  Deciphering under another IV than the
    one a text was enciphered under does not give the text back (the first
    block of CBC comes out changed). *)
Class PlatformLaws `{Platform} : Prop := {
  aes_roundtrip : forall key iv plain,
    length key = 32%nat -> length iv = 16%nat ->
    aes256cbc_decrypt key iv (aes256cbc_encrypt key iv plain) = Some plain;
  aes_other_iv : forall key iv iv' plain,
    length key = 32%nat -> length iv = 16%nat -> length iv' = 16%nat ->
    aes256cbc_decrypt key iv' (aes256cbc_encrypt key iv plain) = Some plain ->
    iv' = iv;
  base64_roundtrip : forall bytes, base64_decode (base64_encode bytes) = bytes;
  base64_decode_empty : base64_decode EmptyString = [];
  utf8_roundtrip : forall s, utf8_decode (utf8_encode s) = toWellFormed s
}.

(** *** Arithmetic *)

Section numbers.
Context `{Platform}.

(** [v + n] for an integer [n] that is a double: the sum of two numbers,
    rounded as a double is; the concatenation of the texts when [v] is a
    string, a function, an array or an object. *)
Definition plus_number (v : jsval) (n : Z) : Res jsprim :=
  match v with
  | VUndefined => Ok (PNum NNaN)
  | VFunction name =>
      Ok (PStr (String.append (String.append "function "%string name)
                  (String.append "() { [native code] }"%string (number_toString n))))
  | VJson JNull => Ok (PNum (to_double n))
  | VJson (JBool b) => Ok (PNum (to_double ((if b then 1 else 0) + n)))
  | VJson (JNum a) =>
      Ok (PNum (match to_double a with
                | NNum a' => to_double (a' + n)
                | infinite => infinite
                end))
  | VJson (JFloat text) => Ok (PNum (float_plus text n))
  | VJson j =>
      match json_toString j with
      | Ok text => Ok (PStr (String.append text (number_toString n)))
      | Throw e => Throw e
      end
  end.

Definition jsprim_toString (p : jsprim) : string :=
  match p with
  | PNum n => jsnum_toString n
  | PStr s => s
  end.

Definition unixToJsTime (sSinceEpoch : jsnum) : jsnum :=
  match sSinceEpoch with
  | NNum n => to_double (n * 1000)
  | NNaN => NNaN
  | NFloat text => float_times text 1000
  end.

End numbers.

(** One row of the table [KEY_VALUE_PAIR]. *)
Record Row := {
  USER_ID : string;
  KEY : string;
  IV : string;
  VALUE : string
}.

(** The three statements [encryptedkvdb.js] sends, with their parameters:
    [select * from KEY_VALUE_PAIR where USER_ID=?],
    [update KEY_VALUE_PAIR set VALUE=? where USER_ID=? and KEY=?] and
    [insert into KEY_VALUE_PAIR (USER_ID, KEY, IV, VALUE) values (?, ?, ?, ?)]. *)
Inductive Sql :=
| SelectByUser (userId : jsval)
| UpdateValue (value : string) (userId : jsval) (key : string)
| InsertRow (userId : jsval) (key : string) (iv : string) (value : string).

(** What the driver's callback receives: an error, or the results. *)
Inductive Reply (A : Type) :=
| Err (err : string)
| Results (results : A).
Arguments Err {A} err.
Arguments Results {A} results.

(** The server behind the connection pool, over its own state: the rows a
    select returns, and the [affectedRows] of an update and of an insert. *)
Class SqlEngine (S : Type) := {
  run_select : jsval -> S -> Reply (list Row) * S;
  run_update : string -> jsval -> string -> S -> Reply nat * S;
  run_insert : jsval -> string -> string -> string -> S -> Reply nat * S
}.

(** ** Requests, responses and the world a handler runs in *)

(** [req.auth], as the resolvers set it: [{error: {message, ...}}],
    [{key: value}] or [{google: body}]. *)
Inductive AuthError :=
| MissingAuthorizationHeader
| KeyAuthorizationDisabled (type : string) (value : option string) (header : string)
| InvalidAuthKey (type : string) (value : option string) (header : string)
| InvalidBearerToken (value : option string) (header : string) (cause : json)
| InvalidAuthType (type : string) (value : option string) (header : string).

Inductive Auth :=
| AuthErr (error : AuthError)
| AuthKey (key : option string)
| AuthGoogle (google : json).

Definition message (e : AuthError) : string :=
  match e with
  | MissingAuthorizationHeader => "missing Authorization header"
  | KeyAuthorizationDisabled _ _ _ => "key authorization disabled"
  | InvalidAuthKey _ _ _ => "invalid auth key"
  | InvalidBearerToken _ _ _ => "invalid bearer token"
  | InvalidAuthType _ _ _ => "invalid auth type"
  end%string.

(** [req.auth.google]. *)
Definition auth_google (auth : Auth) : jsval :=
  match auth with
  | AuthGoogle google => VJson google
  | _ => VUndefined
  end.

(** The values the linking handlers answer with.  The two [...Human]
    fields hold the time value handed to [new Date], in milliseconds. *)
Record LinkValues := {
  linkedNihUsername : option string;
  lastLinkTime : jsnum;
  lastLinkTimeHuman : jsnum;
  linkExpireTime : jsnum;
  linkExpireTimeHuman : jsnum
}.

(** What [res.sendJson] is called with. *)
Inductive Body :=
| BodyAuth (auth : Auth)
| BodyParseFailure (received : string)
| BodyKeyFetchFailure
| BodyVerifyFailure (cause : string)
| BodyLinkValues (values : LinkValues).

(** What a handler does to the outside, in order. *)
Inductive Event :=
| EvHttpsGet (hostname path : string)
| EvVerify (token publicKeyPem : string)
| EvQuery (sql : Sql)
| EvStatus (code : nat)
| EvSendJson (body : Body).

(** The singleton variant's [config], once [withConfig] has filled it. *)
Record Config := {
  authKey : option string;
  encryptionKeyBase64 : string
}.

(** The world a handler runs in: the state of the SQL server, the number
    of calls of [crypto.randomBytes] so far, the trace, and the singleton
    variant's module-level [config] ([None] while it is [undefined]). *)
Record World (S : Type) := {
  db : S;
  rng : nat;
  trace : list Event;
  config : option Config
}.
Arguments db {S} w.
Arguments rng {S} w.
Arguments trace {S} w.
Arguments config {S} w.

(** Computations that read and change the world and may throw. *)
Definition M (S A : Type) : Type := World S -> Res A * World S.

Definition ret {S A} (a : A) : M S A := fun w => (Ok a, w).

Definition throw {S A} (e : Exn) : M S A := fun w => (Throw e, w).

Definition bind {S A B} (m : M S A) (f : A -> M S B) : M S B :=
  fun w =>
    match m w with
    | (Ok a, w') => f a w'
    | (Throw e, w') => (Throw e, w')
    end.

Definition lift {S A} (r : Res A) : M S A := fun w => (r, w).

Definition emit {S} (ev : Event) : M S unit :=
  fun w => (Ok tt, {| db := db w; rng := rng w; trace := trace w ++ [ev]; config := config w |}).

Definition res_bind {A B} (r : Res A) (f : A -> Res B) : Res B :=
  match r with
  | Ok a => f a
  | Throw e => Throw e
  end.

Notation "x <- m ;; k" := (bind m (fun x => k))
  (at level 62, m at next level, right associativity).
Notation "m ;;; k" := (bind m (fun _ => k))
  (at level 62, right associativity).

(** [crypto.randomBytes(n)]. *)
Definition randomBytes `{Platform} {S} (n : nat) : M S (list byte) :=
  fun w =>
    (Ok (List.map (random_byte (rng w)) (seq 0 n)),
     {| db := db w; rng := Datatypes.S (rng w); trace := trace w; config := config w |}).

(** ** crypto.js *)

Module Crypto.
Section crypto.
Context `{Platform} {S : Type}.
Variable key : list byte.

(** The object [crypto.createCipheriv] and [crypto.createDecipheriv]
    return. *)
Record Cipheriv := {
  cipher_key : list byte;
  cipher_iv : list byte
}.

(** [Buffer.from(s, 'base64')]; [s] may be [undefined]. *)
Definition Buffer_from_base64 (s : option string) : Res (list byte) :=
  match s with
  | Some s => Ok (base64_decode s)
  | None => Throw (TypeError "The first argument must be of type string")
  end.

(** [crypto.createCipheriv('aes-256-cbc', key, iv)], and likewise
    [createDecipheriv]: a key of 32 bytes and an IV of 16, or it throws. *)
Definition createCipheriv (iv : list byte) : Res Cipheriv :=
  if negb (Nat.eqb (length key) 32) then Throw (CryptoError "Invalid key length")
  else if negb (Nat.eqb (length iv) 16) then Throw (CryptoError "Invalid IV length")
  else Ok {| cipher_key := key; cipher_iv := iv |}.

Definition createCipher (ivBase64 : option string) : Res Cipheriv :=
  res_bind (Buffer_from_base64 ivBase64) createCipheriv.

(** [cipher.update(value, 'utf8', 'base64') + cipher.final('base64')]: the
    two pieces together are the base64 text of the whole ciphertext (the
    cipher keeps an incomplete base64 group from [update] for [final]).
    What is enciphered is the UTF-8 bytes of the string. *)
Definition cipher_update_final (cipher : Cipheriv) (value : jsval) : Res string :=
  match value with
  | VJson (JStr s) =>
      Ok (base64_encode
            (aes256cbc_encrypt (cipher_key cipher) (cipher_iv cipher) (utf8_encode s)))
  | _ => Throw (TypeError "The data argument must be of type string")
  end.

Definition cipherValueToBase64 (ivBase64 : option string) (value : jsval) : M S string :=
  iv <- (match ivBase64 with
         | Some s => if truthy_string s then ret s
                     else (bytes <- randomBytes 16 ;; ret (base64_encode bytes))
         | None => (bytes <- randomBytes 16 ;; ret (base64_encode bytes))
         end) ;;
  cipher <- lift (createCipher ivBase64) ;;
  ciphered <- lift (cipher_update_final cipher value) ;;
  ret ciphered.

Definition createDecipher (ivBase64 : string) : Res Cipheriv :=
  res_bind (Buffer_from_base64 (Some ivBase64)) createCipheriv.

(** [decipher.update(c, 'base64', 'utf8') + decipher.final('utf8')]: the
    two pieces together are the string Node decodes from the whole
    plaintext (the decipher keeps an incomplete character from [update]
    for [final]). *)
Definition decipher_update_final (decipher : Cipheriv) (cipheredValueBase64 : string)
  : Res string :=
  match aes256cbc_decrypt (cipher_key decipher) (cipher_iv decipher)
          (base64_decode cipheredValueBase64) with
  | Some plain => Ok (utf8_decode plain)
  | None => Throw (CryptoError "bad decrypt")
  end.

Definition decipherValueFromBase64 (ivBase64 cipheredValueBase64 : string) : Res string :=
  res_bind (createDecipher ivBase64)
    (fun decipher => decipher_update_final decipher cipheredValueBase64).

Definition generateIvBase64 : M S string :=
  bytes <- randomBytes 16 ;;
  ret (base64_encode bytes).

End crypto.
End Crypto.

(** ** encryptedkvdb.js *)

(** One entry of the object [getPairs] returns. *)
Record Pair := {
  ivBase64 : string;
  cipheredValueBase64 : string;
  value : string
}.

Module Ekvdb.
Section ekvdb.
Context `{Platform} {S : Type} `{SqlEngine S}.
Variable key : list byte.

Definition results_of (sql : Sql) : Type :=
  match sql with
  | SelectByUser _ => list Row
  | _ => nat
  end.

Definition run (sql : Sql) (s : S) : Reply (results_of sql) * S :=
  match sql return Reply (results_of sql) * S with
  | SelectByUser userId => run_select userId s
  | UpdateValue value userId key => run_update value userId key s
  | InsertRow userId key iv value => run_insert userId key iv value s
  end.

(** [query(sql, params)] resolves to the driver's error and results. *)
Definition query (sql : Sql) : M S (Reply (results_of sql)) :=
  fun w =>
    let '(reply, s) := run sql (db w) in
    (Ok reply,
     {| db := s; rng := rng w; trace := trace w ++ [EvQuery sql]; config := config w |}).

(** The reducer of [getPairs] over the rows, from the empty object. *)
Fixpoint reduce_rows (r : gmap string Pair) (results : list Row) : Res (gmap string Pair) :=
  match results with
  | [] => Ok r
  | v :: rest =>
      match Crypto.decipherValueFromBase64 key (IV v) (VALUE v) with
      | Ok plain =>
          reduce_rows
            (<[KEY v := {| ivBase64 := IV v; cipheredValueBase64 := VALUE v; value := plain |}]> r)
            rest
      | Throw e => Throw e
      end
  end.

Definition getPairs (userId : jsval) : M S (gmap string Pair) :=
  reply <- query (SelectByUser userId) ;;
  match reply with
  | Err err => throw (DriverError err)
  | Results results => lift (reduce_rows ∅ results)
  end.

Definition toPlain (pairs : gmap string Pair) : gmap string string := value <$> pairs.

Definition setValue (userId : jsval) (pairs : gmap string Pair) (key' : string) (value : jsval)
  : M S unit :=
  let storedIvBase64 := ivBase64 <$> pairs !! key' in
  ivBase64 <- (if truthy_opt storedIvBase64
               then ret (default EmptyString storedIvBase64)
               else Crypto.generateIvBase64) ;;
  if truthy_opt storedIvBase64 then
    ciphered <- Crypto.cipherValueToBase64 key (Some ivBase64) value ;;
    reply <- query (UpdateValue ciphered userId key') ;;
    match reply with
    | Err err => throw (DriverError err)
    | Results affectedRows =>
        if negb (Nat.eqb affectedRows 1)
        then throw (WriteConflict Updating userId key' affectedRows)
        else ret tt
    end
  else
    ciphered <- Crypto.cipherValueToBase64 key (Some ivBase64) value ;;
    reply <- query (InsertRow userId key' ivBase64 ciphered) ;;
    match reply with
    | Err err => throw (DriverError err)
    | Results affectedRows =>
        if negb (Nat.eqb affectedRows 1)
        then throw (WriteConflict Inserting userId key' affectedRows)
        else ret tt
    end.

End ekvdb.
End Ekvdb.

(** ** server.js: what the two variants share *)

Module Server.
Section server.
Context `{Platform} {S : Type} `{SqlEngine S}.

Definition truthy (v : jsval) : bool :=
  match v with
  | VUndefined => false
  | VFunction _ => true
  | VJson j => truthy_json j
  end.

Definition maybeParseJson (s : string) : json :=
  match JSON_parse s with
  | Some j => j
  | None => JStr s
  end.

(** [httpRequest(options)] followed by [slurpStream] and [join]: the status
    code and the body. *)
Definition httpRequest (hostname path : string) : M S (nat * string) :=
  emit (EvHttpsGet hostname path) ;;;
  ret (https_get hostname path).

(** [res.status(code)] and [res.sendJson(x)].  The trace records the
    calls.  [finished] tells whether the response has been sent already:
    then [res.type], the first statement of [sendJson], throws, and
    nothing more is sent; [res.status] only sets a field. *)
Definition status (code : nat) : M S unit := emit (EvStatus code).

Definition sendJson (finished : bool) (x : Body) : M S unit :=
  emit (EvSendJson x) ;;;
  if finished then throw HeadersSent else ret tt.

(** [res.sendAuthError()], the first answer of its request wherever the
    code calls it. *)
Definition sendAuthError (auth : Auth) : M S unit :=
  status 401 ;;;
  sendJson false (BodyAuth auth).

(** [req.auth.google.sub]. *)
Definition google_sub (auth : Auth) : Res jsval :=
  match auth with
  | AuthGoogle google => prop google "sub"
  | _ => Throw (TypeError "Cannot read properties of undefined")
  end.

(** [jwt.verify(shibToken, publicKeyPem, {algorithms: ['RS256']})]: the
    error it throws, if any. *)
Definition verify (shibToken publicKeyPem : string) : M S (option string) :=
  emit (EvVerify shibToken publicKeyPem) ;;;
  ret (jwt_verify shibToken publicKeyPem).

(** [_.map((x) => Buffer.from(x, 'base64').toString())(jwt.split('.'))]. *)
Definition decode_parts (jwt : string) : list string :=
  List.map (fun x => utf8_decode (base64_decode x)) (split_on "." jwt).

(** The body of both [try] blocks that read the payload: [JSON.parse] of
    the second part ([undefined] when there is none, which does not
    parse); [None] where the block throws. *)
Definition parse_payload (jwt : string) : option json :=
  match decode_parts jwt with
  | _ :: payloadJson :: _ => JSON_parse payloadJson
  | _ => None
  end.

Definition thirtyDaysInSeconds : Z := 60 * 60 * 24 * 30.

(** [_.pick([...])(plain)] and the four assignments after it. *)
Definition link_values (plain : gmap string string) : LinkValues :=
  let lastLinkTime := parseInt (plain !! "lastLinkTime"%string) in
  let linkExpireTime := parseInt (plain !! "linkExpireTime"%string) in
  {| linkedNihUsername := plain !! "linkedNihUsername"%string;
     lastLinkTime := lastLinkTime;
     lastLinkTimeHuman := unixToJsTime lastLinkTime;
     linkExpireTime := linkExpireTime;
     linkExpireTimeHuman := unixToJsTime linkExpireTime |}.

End server.
End Server.

(** ** server.js, middleware variant *)

Module Middleware.
Section middleware.
Context `{Platform} {S : Type} `{SqlEngine S}.

(** [withAuth] sets [req.auth] and calls [next()]; the model returns what
    it set.  [authorization] is [req.headers['authorization']]. *)
Definition withAuth (authorization : option string) : M S Auth :=
  let authHeader := trim (default EmptyString authorization) in
  if Nat.eqb (String.length authHeader) 0 then
    ret (AuthErr MissingAuthorizationHeader)
  else
    match split_ws authHeader with
    | [] => throw (TypeError "Cannot read properties of undefined")
    | type :: rest =>
        let value := head rest in
        if String.eqb (toLowerCase type) "bearer" then
          gtRes <- Server.httpRequest "oauth2.googleapis.com"
                     (String.append "/tokeninfo?access_token=" (default "undefined"%string value)) ;;
          let gtResBody := Server.maybeParseJson (snd gtRes) in
          if negb (Nat.eqb (fst gtRes) 200) then
            ret (AuthErr (InvalidBearerToken value authHeader gtResBody))
          else
            ret (AuthGoogle gtResBody)
        else
          ret (AuthErr (InvalidAuthType type value authHeader))
    end.

Definition getPublicKey (envName : string) : M S string :=
  let path := if String.eqb envName "dev" then "/dev/public-key.pem"%string
              else "/public-key.pem"%string in
  keyReq <- Server.httpRequest "broad-shibboleth-prod.appspot.com" path ;;
  if negb (Nat.eqb (fst keyReq) 200) then
    throw (StructError "failed to fetch key for JWT verification")
  else
    ret (snd keyReq).

Definition parseJwtPayload (jwt : string) : Res json :=
  match Server.parse_payload jwt with
  | Some payload => Ok payload
  | None => Throw (StructError "failed to parse token payload")
  end.

(** The handler [postShibbolethToken(envName)] returns; [key] is the
    encryption key [withCrypto(envName)] built the cipher with, [auth] is
    [req.auth] and [body] the request body. *)
Definition postShibbolethToken (key : list byte) (envName : string)
    (auth : Auth) (body : string) : M S unit :=
  if negb (Server.truthy (auth_google auth)) then Server.sendAuthError auth
  else
    let shibToken := body in
    payload <- lift (parseJwtPayload shibToken) ;;
    publicKeyPem <- getPublicKey envName ;;
    failure <- Server.verify shibToken publicKeyPem ;;
    match failure with
    | Some e =>
        Server.status 400 ;;;
        Server.sendJson false (BodyVerifyFailure e)
    | None =>
        sub <- lift (Server.google_sub auth) ;;
        payloadUsername <- lift (prop payload "eraCommonsUsername") ;;
        pairs <- Ekvdb.getPairs key sub ;;
        Ekvdb.setValue key sub pairs "linkedNihUsername" payloadUsername ;;;
        iat <- lift (prop payload "iat") ;;
        exp <- lift (plus_number iat Server.thirtyDaysInSeconds) ;;
        Ekvdb.setValue key sub pairs "linkExpireTime" (VStr (jsprim_toString exp)) ;;;
        pairs' <- Ekvdb.getPairs key sub ;;
        Server.sendJson false (BodyLinkValues (Server.link_values (Ekvdb.toPlain pairs')))
    end.

(** The route [app.post('/shibboleth-token', ..., withAuth,
    postShibbolethToken('prod'))], after [withConfig], [withCrypto] and
    [withEkvdb] have run. *)
Definition route_shibboleth_token (key : list byte) (envName : string)
    (authorization : option string) (body : string) : M S unit :=
  auth <- withAuth authorization ;;
  postShibbolethToken key envName auth body.

End middleware.
End Middleware.

(** ** server.js, singleton variant *)

Module Singleton.
Section singleton.
Context `{Platform} {S : Type} `{SqlEngine S}.

(** Reading a property of the module-level [config] (and of [ekvdb], which
    [withConfig] fills together with it): [undefined] until [withConfig]
    has run. *)
Definition the_config : M S Config :=
  fun w =>
    match config w with
    | Some c => (Ok c, w)
    | None => (Throw (TypeError "Cannot read properties of undefined"), w)
    end.

Definition withAuth (authorization : option string) : M S Auth :=
  let authHeader := trim (default EmptyString authorization) in
  if Nat.eqb (String.length authHeader) 0 then
    ret (AuthErr MissingAuthorizationHeader)
  else
    match split_ws authHeader with
    | [] => throw (TypeError "Cannot read properties of undefined")
    | type :: rest =>
        let value := head rest in
        if String.eqb (toLowerCase type) "key" then
          cfg <- the_config ;;
          if negb (truthy_opt (authKey cfg)) then
            ret (AuthErr (KeyAuthorizationDisabled type value authHeader))
          else if negb (bool_decide (value = authKey cfg)) then
            ret (AuthErr (InvalidAuthKey type value authHeader))
          else
            ret (AuthKey value)
        else if String.eqb (toLowerCase type) "bearer" then
          gtRes <- Server.httpRequest "oauth2.googleapis.com"
                     (String.append "/tokeninfo?access_token=" (default "undefined"%string value)) ;;
          let gtResBody := Server.maybeParseJson (snd gtRes) in
          if negb (Nat.eqb (fst gtRes) 200) then
            ret (AuthErr (InvalidBearerToken value authHeader gtResBody))
          else
            ret (AuthGoogle gtResBody)
        else
          ret (AuthErr (InvalidAuthType type value authHeader))
    end.

(** The handler of [app.post('/shibboleth-token', withAuth, ...)].  The
    [catch] block answers and does not return: [payload] stays [null], and
    the response is finished from there on. *)
Definition postShibbolethToken (auth : Auth) (body : string) : M S unit :=
  if negb (Server.truthy (auth_google auth)) then Server.sendAuthError auth
  else
    let shibToken := body in
    parsed <- (match Server.parse_payload shibToken with
               | Some payload => ret (payload, false)
               | None =>
                   Server.status 400 ;;;
                   Server.sendJson false (BodyParseFailure shibToken) ;;;
                   ret (JNull, true)
               end) ;;
    let payload := fst parsed in
    let finished := snd parsed in
    keyReq <- Server.httpRequest "broad-shibboleth-prod.appspot.com" "/public-key.pem" ;;
    if negb (Nat.eqb (fst keyReq) 200) then
      Server.status 502 ;;;
      Server.sendJson finished BodyKeyFetchFailure
    else
      let publicKeyPem := snd keyReq in
      failure <- Server.verify shibToken publicKeyPem ;;
      match failure with
      | Some e =>
          Server.status 400 ;;;
          Server.sendJson finished (BodyVerifyFailure e)
      | None =>
          cfg <- the_config ;;
          let key := base64_decode (encryptionKeyBase64 cfg) in
          sub <- lift (Server.google_sub auth) ;;
          pairs <- Ekvdb.getPairs key sub ;;
          payloadUsername <- lift (prop payload "eraCommonsUsername") ;;
          Ekvdb.setValue key sub pairs "linkedNihUsername" payloadUsername ;;;
          iat <- lift (prop payload "iat") ;;
          exp <- lift (plus_number iat Server.thirtyDaysInSeconds) ;;
          Ekvdb.setValue key sub pairs "linkExpireTime" (VStr (jsprim_toString exp)) ;;;
          pairs' <- Ekvdb.getPairs key sub ;;
          Server.sendJson finished (BodyLinkValues (Server.link_values (Ekvdb.toPlain pairs')))
      end.

(** The route as registered: [withAuth] and the handler, with no
    [withConfig] before them. *)
Definition route_shibboleth_token (authorization : option string) (body : string)
  : M S unit :=
  auth <- withAuth authorization ;;
  postShibbolethToken auth body.

End singleton.
End Singleton.

(** ** A reference SQL engine: the table as a list of rows *)

Module TableEngine.

(** The rows of [KEY_VALUE_PAIR] in storage order, and the faults the
    driver will report: one entry per statement still to come, [Some err]
    where the statement fails in transport and leaves the rows alone. *)
Record Table := {
  rows : list Row;
  faults : list (option string)
}.

(** [USER_ID = ?] against a parameter.  Account ids are strings; a
    parameter that is not a string is outside this model: it matches no row
    and cannot be inserted. *)
Definition sql_eq (param : jsval) (column : string) : bool :=
  match param with
  | VJson (JStr s) => String.eqb s column
  | _ => false
  end.

Definition matches (userId : jsval) (key : string) (r : Row) : bool :=
  sql_eq userId (USER_ID r) && String.eqb (KEY r) key.

Definition next_fault (t : Table) : option string * list (option string) :=
  match faults t with
  | [] => (None, [])
  | f :: rest => (f, rest)
  end.

Definition set_VALUE (value : string) (r : Row) : Row :=
  {| USER_ID := USER_ID r; KEY := KEY r; IV := IV r; VALUE := value |}.

Definition select (userId : jsval) (t : Table) : Reply (list Row) * Table :=
  match next_fault t with
  | (Some err, rest) => (Err err, {| rows := rows t; faults := rest |})
  | (None, rest) =>
      (Results (List.filter (fun r => sql_eq userId (USER_ID r)) (rows t)),
       {| rows := rows t; faults := rest |})
  end.

(** The driver reports the rows the [where] clause found as
    [affectedRows]. *)
Definition update (value : string) (userId : jsval) (key : string) (t : Table)
  : Reply nat * Table :=
  match next_fault t with
  | (Some err, rest) => (Err err, {| rows := rows t; faults := rest |})
  | (None, rest) =>
      (Results (length (List.filter (matches userId key) (rows t))),
       {| rows := List.map (fun r => if matches userId key r then set_VALUE value r else r)
                    (rows t);
          faults := rest |})
  end.

(** Modelled from the spec: the declaration of the table is not among the
    sources; the spec has a record unique per (accountId, key), so an
    insert of a pair that is already there fails with the server's
    duplicate-entry error. *)
Definition insert (userId : jsval) (key iv value : string) (t : Table)
  : Reply nat * Table :=
  match next_fault t with
  | (Some err, rest) => (Err err, {| rows := rows t; faults := rest |})
  | (None, rest) =>
      match userId with
      | VJson (JStr u) =>
          if existsb (matches userId key) (rows t)
          then (Err "ER_DUP_ENTRY", {| rows := rows t; faults := rest |})
          else (Results 1%nat,
                {| rows := rows t ++ [{| USER_ID := u; KEY := key; IV := iv; VALUE := value |}];
                   faults := rest |})
      | _ => (Err "ER_BAD_NULL_ERROR", {| rows := rows t; faults := rest |})
      end
  end.

#[export] Instance engine : SqlEngine Table := {
  run_select := select;
  run_update := update;
  run_insert := insert
}.

End TableEngine.
Export TableEngine.

(** ** A small platform to run the model on *)

Module Toy.

#[export] Instance byte_eq_dec : EqDecision byte := Byte.byte_eq_dec.

Definition encrypt (key iv plain : list byte) : list byte := iv ++ plain.

Definition decrypt (key iv ciphertext : list byte) : option (list byte) :=
  if bool_decide (take (length iv) ciphertext = iv)
  then Some (drop (length iv) ciphertext)
  else None.

Definition parse (s : string) : option json :=
  if String.eqb s "claims" then
    Some (JObj [("eraCommonsUsername"%string, JStr "jdoe"); ("iat"%string, JNum 1700000000)])
  else if String.eqb s "bare" then
    Some (JObj [("iat"%string, JNum 1700000000)])
  else if String.eqb s "late" then
    Some (JObj [("eraCommonsUsername"%string, JStr "jdoe");
                ("iat"%string, JNum 4611686018427387904)])
  else if String.eqb s "tokeninfo" then
    Some (JObj [("sub"%string, JStr "abc123")])
  else None.

Definition check_signature (token publicKeyPem : string) : option string :=
  if (String.eqb token "header.claims.signature" ||
      String.eqb token "header.bare.signature" ||
      String.eqb token "header.late.signature") && String.eqb publicKeyPem "PEM"
  then None
  else Some "invalid signature"%string.

Definition get (hostname path : string) : nat * string :=
  if String.eqb hostname "oauth2.googleapis.com" then
    if String.eqb path "/tokeninfo?access_token=good" then (200%nat, "tokeninfo"%string)
    else (400%nat, "invalid_token"%string)
  else (200%nat, "PEM"%string).

Definition random (i j : nat) : byte :=
  default x00 (Byte.of_nat ((16 * i + j) mod 256)).

#[export] Instance platform : Platform := {
  aes256cbc_encrypt := encrypt;
  aes256cbc_decrypt := decrypt;
  base64_encode := string_of_list_byte;
  base64_decode := list_byte_of_string;
  utf8_decode := string_of_list_byte;
  random_byte := random;
  JSON_parse := parse;
  jwt_verify := check_signature;
  https_get := get;
  float_plus := fun text _ => NFloat text;
  float_times := fun text _ => NFloat text
}.

Definition key : list byte := repeat x01 32.

Definition world (t : Table) (c : option Config) : World Table :=
  {| db := t; rng := 0; trace := []; config := c |}.

Definition empty_table : Table := {| rows := []; faults := [] |}.

(** A table with one record (under the toy cipher, the ciphertext of
    [old] under the IV [0123456789abcdef]) and the snapshot read from it. *)
Definition stored_iv : string := "0123456789abcdef".

Definition table : Table :=
  {| rows := [{| USER_ID := "abc123"; KEY := "linkedNihUsername"; IV := stored_iv;
                 VALUE := "0123456789abcdefold" |}];
     faults := [] |}.

Definition snapshot : gmap string Pair :=
  {[ "linkedNihUsername"%string :=
       {| ivBase64 := stored_iv; cipheredValueBase64 := "0123456789abcdefold";
          value := "old" |} ]}.

(** A snapshot that is not of that table: its record carries another
    IV.  A snapshot whose record carries no IV. *)
Definition foreign_snapshot : gmap string Pair :=
  {[ "linkedNihUsername"%string :=
       {| ivBase64 := "fedcba9876543210"; cipheredValueBase64 := "fedcba9876543210old";
          value := "old" |} ]}.

Definition blank_snapshot : gmap string Pair :=
  {[ "linkedNihUsername"%string :=
       {| ivBase64 := EmptyString; cipheredValueBase64 := "old"; value := "old" |} ]}.

(** A key that is one byte short. *)
Definition short_key : list byte := repeat x01 31.

(** The string that is the one surrogate U+D800, and the string that is
    the one character U+FFFD. *)
Definition lone_surrogate : string :=
  String "237" (String "160" (String "128" EmptyString)).

Definition replacement : string :=
  String "239" (String "191" (String "189" EmptyString)).

(** [Key s3cret] with a no-break space, U+00A0, for the space. *)
Definition nbsp_header : string :=
  String "K" (String "e" (String "y" (String "194" (String "160" "s3cret")))).

(** A caller the identity provider knows, as the resolvers leave it in
    [req.auth]. *)
Definition caller : Auth := AuthGoogle (JObj [("sub"%string, JStr "abc123")]).

(** The singleton variant's configuration, once loaded. *)
Definition loaded : Config :=
  {| authKey := Some "s3cret"%string;
     encryptionKeyBase64 := "0123456789abcdef0123456789abcdef" |}.

(** A table in which the caller has a [lastLinkTime] and another user a
    [linkExpireTime]. *)
Definition profile : Table :=
  {| rows := [{| USER_ID := "abc123"; KEY := "lastLinkTime"; IV := "fedcba9876543210";
                 VALUE := "fedcba98765432101690000000" |};
              {| USER_ID := "zed"; KEY := "linkExpireTime"; IV := stored_iv;
                 VALUE := "0123456789abcdef1600000000" |}];
     faults := [] |}.

(** A linking request with a well-signed assertion, in the middleware
    variant, against that table. *)
Definition linked : Res unit * World Table :=
  Middleware.postShibbolethToken key "prod" caller "header.claims.signature"
    (world profile None).

(** The table after one read of the caller's pairs. *)
Definition read_once : Res (gmap string Pair) * World Table :=
  Ekvdb.getPairs key (VStr "abc123") (world table None).

End Toy.

(** ** index.js: the launcher's helpers and its gate on the reload route *)

Module Index.

(** A buffer is its bytes, and [x.toString()] the string Node decodes
    from them as UTF-8. *)
Definition bufferListToLines `{Platform} (buffers : list (list byte)) : list string :=
  split_on "010" (String.concat EmptyString (List.map utf8_decode buffers)).

(** [for (let k in keys)] over an array visits the names of its indices,
    ["0"], ["1"], ..., in order; the elements are not read. *)
Definition index_names {A} (keys : list A) : list string :=
  List.map (fun i => decimal (Z.of_nat i)) (seq 0 (length keys)).

Definition omit {V} (object : gmap string V) (keys : list string) : gmap string V :=
  let newObject := object in
  fold_left (fun newObject k => delete k newObject) (index_names keys) newObject.

(** The first statement of [spawnp]: the options handed to [cp.spawn]. *)
Definition spawnOpts {V} (opts : gmap string V) : gmap string V :=
  omit opts
    (split_ws "stdout stderr pipeStdoutTo pipeStderrTo ignoreNonZero stderrOnError").

Section reload.
Context `{Platform} {S : Type} `{SqlEngine S}.

(** [req.auth.key]. *)
Definition auth_key (auth : Auth) : jsval :=
  match auth with
  | AuthKey (Some key) => VStr key
  | _ => VUndefined
  end.

(** The [before] hook [main] is started with; the result tells whether it
    called [next()]. *)
Definition before (auth : Auth) : M S bool :=
  if negb (Server.truthy (auth_key auth)) then
    Server.sendAuthError auth ;;;
    ret false
  else
    ret true.

(** The reload route of the singleton variant up to the reload itself:
    [app.post('/.src', withAuth)] of [server.js] and then the [before] hook
    of [app.post(url, before, ...)]. *)
Definition route_src (authorization : option string) : M S bool :=
  auth <- Singleton.withAuth authorization ;;
  before auth.

End reload.
End Index.

(** ** encryptedkvdb.js: what the module keeps to itself *)

Module EkvdbInternals.

(** What [decipherKvPairs] returns. *)
Record KvPairs := {
  ivs : gmap string string;
  values : gmap string string
}.

Section decipher.
Context `{Platform}.
Variable key : list byte.

(** The reducer of [decipherKvPairs] over the rows. *)
Fixpoint decipher_rows (r : KvPairs) (queryResult : list Row) : Res KvPairs :=
  match queryResult with
  | [] => Ok r
  | v :: rest =>
      match Crypto.decipherValueFromBase64 key (IV v) (VALUE v) with
      | Ok plain =>
          decipher_rows
            {| ivs := <[KEY v := IV v]> (ivs r); values := <[KEY v := plain]> (values r) |}
            rest
      | Throw e => Throw e
      end
  end.

Definition decipherKvPairs (queryResult : list Row) : Res KvPairs :=
  decipher_rows {| ivs := ∅; values := ∅ |} queryResult.

End decipher.

(** *** The connection pool *)

(** [obj.name] of an object literal held as a map: [undefined] where the
    object has no such property. *)
Definition field (obj : gmap string jsval) (name : string) : jsval :=
  default VUndefined (obj !! name).

(** The options [getPool] creates the pool with: the three defaults, and
    over them the properties of [dbOpts].  The template of the socket path
    throws where [dbOpts.instanceConnectionName] has no text. *)
Definition pool_options (dbOpts : gmap string jsval) : Res (gmap string jsval) :=
  match template (field dbOpts "instanceConnectionName") with
  | Throw e => Throw e
  | Ok name =>
      Ok (dbOpts ∪
          {[ "user"%string := VStr "shib-profile";
             "database"%string := VStr "thurloe";
             "socketPath"%string := VStr (String.append "/cloudsql/" name) ]})
  end.

(** The module's [cachedPool] and the pools [mysql.createPool] has been
    asked for, by their options; a pool is known by its position in that
    list. *)
Record Driver := {
  cachedPool : option nat;
  created : list (gmap string jsval)
}.

(** One call of [getPool], with no other call in flight.  Where the
    options cannot be made, no pool is created. *)
Definition getPool (dbOpts : gmap string jsval) (d : Driver) : Res nat * Driver :=
  match cachedPool d with
  | Some pool => (Ok pool, d)
  | None =>
      match pool_options dbOpts with
      | Throw e => (Throw e, d)
      | Ok options =>
          let pool := length (created d) in
          (Ok pool, {| cachedPool := Some pool; created := created d ++ [options] |})
      end
  end.

(** [n] calls, one after the other: the pools they return. *)
Fixpoint getPool_times (dbOpts : gmap string jsval) (n : nat) (d : Driver)
  : list (Res nat) * Driver :=
  match n with
  | O => ([], d)
  | Datatypes.S n' =>
      let '(pool, d') := getPool dbOpts d in
      let '(pools, d'') := getPool_times dbOpts n' d' in
      (pool :: pools, d'')
  end.

End EkvdbInternals.

(** ** server.js: loading the configuration *)

(** What the start of a request reads from outside the process: files
    ([fs.readFile] with the utf8 encoding, [None] where it rejects), the
    environment, the GET of the metadata server over HTTP and the GET of a
    storage object over HTTPS with an [authorization] header (status code
    and body), [new URL(s)] ([None] where it throws),
    [encodeURIComponent], and [Buffer.from(x, 'base64')] for an [x] that is
    an array or an object.  The permission check of the reload
    route adds the POST of [u.httpreq] ([None] where the request fails
    before an answer), [JSON.stringify] and lodash's [indexOf]. *)
Record URL := {
  href : string;
  hostname : string;
  pathname : string
}.

Class Cloud := {
  readFile : string -> option string;
  process_env : string -> option string;
  http_get : string -> string -> nat * string;
  https_get_authorized : string -> string -> string -> nat * string;
  URL_parse : string -> option URL;
  encodeURIComponent : string -> string;
  Buffer_from_object : json -> Res (list byte);
  https_post : string -> string -> option string -> string -> option (nat * string);
  JSON_stringify : json -> string;
  lodash_indexOf : string -> jsval -> Z
}.

Module Startup.

(** The errors of this part of the code: [ExternalRequestError],
    [JSON.parse]'s [SyntaxError], the [ReferenceError] of a name that is
    not declared, a plain [new Error(message)], the errors of the other
    modules, and a request that failed. *)
Inductive Failure :=
| ExternalRequestError (statusCode : nat)
| SyntaxError
| ReferenceError (name : string)
| Error (message : string)
| Thrown (e : Exn)
| RequestFailed.

Inductive Outcome (A : Type) :=
| Done (a : A)
| Failed (f : Failure).
Arguments Done {A} a.
Arguments Failed {A} f.

Definition of_res {A} (r : Res A) : Outcome A :=
  match r with
  | Ok a => Done a
  | Throw e => Failed (Thrown e)
  end.

Definition and_then {A B} (o : Outcome A) (f : A -> Outcome B) : Outcome B :=
  match o with
  | Done a => f a
  | Failed e => Failed e
  end.

(** What the process has asked of the outside, in order. *)
Inductive Request :=
| ReadFile (path : string)
| HttpGet (hostname path : string)
| HttpsGet (authorization hostname path : string).

(** [v.name] of a value that may be [undefined]. *)
Definition prop_val (v : jsval) (name : string) : Res jsval :=
  match v with
  | VUndefined => Throw (TypeError "Cannot read properties of undefined")
  | VFunction _ => Ok VUndefined
  | VJson j => prop j name
  end.

Section startup.
Context `{Platform} `{Cloud}.

(** [Buffer.from(x, 'base64')]. *)
Definition Buffer_from (x : jsval) : Res (list byte) :=
  match x with
  | VJson (JStr s) => Ok (base64_decode s)
  | VJson (JArr items) => Buffer_from_object (JArr items)
  | VJson (JObj members) => Buffer_from_object (JObj members)
  | _ => Throw (TypeError "The first argument must be of type string")
  end.

(** [fetchAccessToken]: the token and the requests made for it. *)
Definition fetchAccessToken : Outcome jsval * list Request :=
  match readFile ".access-token" with
  | Some text => (Done (VStr (trim text)), [ReadFile ".access-token"])
  | None =>
      let mRes :=
        http_get "metadata" "/computeMetadata/v1/instance/service-accounts/default/token" in
      (of_res (prop (Server.maybeParseJson (snd mRes)) "access_token"),
       [ReadFile ".access-token";
        HttpGet "metadata" "/computeMetadata/v1/instance/service-accounts/default/token"])
  end.

(** [getGcsObjectData(authorization, gsUrlString)]; [gsUrlString] may be
    [undefined], which is no URL. *)
Definition getGcsObjectData (authorization : string) (gsUrlString : option string)
  : Outcome string * list Request :=
  match gsUrlString ≫= URL_parse with
  | None => (Failed (Thrown (TypeError "Invalid URL")), [])
  | Some url =>
      let path :=
        String.append "/download/storage/v1/b/"
          (String.append (encodeURIComponent (hostname url))
             (String.append "/o/"
                (String.append
                   (encodeURIComponent
                      (match pathname url with
                       | EmptyString => EmptyString
                       | String _ rest => rest
                       end))
                   "?alt=media"))) in
      let gcsRes := https_get_authorized authorization "www.googleapis.com" path in
      (if negb (Nat.eqb (fst gcsRes) 200)
       then Failed (Error (String.append "failed to fetch "
                             (String.append (href url)
                                (String.append ": " (decimal (Z.of_nat (fst gcsRes)))))))
       else Done (snd gcsRes),
       [HttpsGet authorization "www.googleapis.com" path])
  end.

(** The two statements both variants of [withConfig] start with: the
    parsed configuration, or the error thrown on the way. *)
Definition fetch_config (gsUrlString : option string) : Outcome json * list Request :=
  let '(token, reqs1) := fetchAccessToken in
  match token with
  | Failed f => (Failed f, reqs1)
  | Done token =>
      match template token with
      | Throw e => (Failed (Thrown e), reqs1)
      | Ok text =>
          let authorization := String.append "Bearer " text in
          let '(data, reqs2) := getGcsObjectData authorization gsUrlString in
          (and_then data
             (fun text =>
                match JSON_parse text with
                | Some parsed => Done parsed
                | None => Failed SyntaxError
                end),
           reqs1 ++ reqs2)
      end
  end.

End startup.
End Startup.

(** ** server.js, middleware variant: the routes around the handlers *)

Module MiddlewareApp.
Import Startup.

(** The store [withEkvdb] builds: the cipher's key and the options of the
    connection. *)
Record Store := {
  store_crypto : list byte;
  dbOpts : gmap string jsval
}.

(** [res.locals]. *)
Record Locals := {
  config : option json;
  crypto : option (list byte);
  ekvdb : option Store;
  isReloadOkay : bool
}.

(** The [res.locals] of a request that has just arrived. *)
Definition fresh : Locals :=
  {| config := None; crypto := None; ekvdb := None; isReloadOkay := false |}.

Definition configGcsUrl : string :=
  "gs://broad-shibboleth-prod.appspot.com/secrets/secrets.20200310a.json".

(** [if (res.locals.config)]. *)
Definition has_config (l : Locals) : bool :=
  match config l with
  | Some j => truthy_json j
  | None => false
  end.

Section app.
Context `{Platform} `{Cloud}.

(** A middleware ends with [next()] (the locals it leaves), with
    [next(err)] or by throwing; the two last are a failure. *)
Definition withConfig (l : Locals) : Outcome Locals * list Request :=
  if has_config l then (Done l, [])
  else
    let '(parsed, reqs) := fetch_config (Some configGcsUrl) in
    (and_then parsed
       (fun parsed =>
          Done {| config := Some parsed; crypto := crypto l; ekvdb := ekvdb l;
                  isReloadOkay := isReloadOkay l |}),
     reqs).

(** [config[envName].name], for the environment names [dev] and [prod]. *)
Definition config_of (l : Locals) (envName name : string) : Res jsval :=
  match config l with
  | None => Throw (TypeError "Cannot read properties of undefined")
  | Some config =>
      res_bind (prop config envName) (fun section => prop_val section name)
  end.

Definition withCrypto (envName : string) (l : Locals) : Outcome Locals :=
  if negb (has_config l) then Failed (Error "Missing configuration")
  else
    and_then (of_res (config_of l envName "encryptionKeyBase64"))
      (fun text =>
         and_then (of_res (Buffer_from text))
           (fun key =>
              Done {| config := config l; crypto := Some key; ekvdb := ekvdb l;
                      isReloadOkay := isReloadOkay l |})).

Definition instanceConnectionName (envName : string) : string :=
  if String.eqb envName "dev"
  then "broad-dsde-dev:us-central1:thurloe-cloudsql-dev201-9e45a2fc870e72f2"
  else "broad-dsde-prod:us-central1:thurloe-cloudsql-prod201-905168db8ab5e528".

Definition withEkvdb (envName : string) (l : Locals) : Outcome Locals :=
  if negb (has_config l) then Failed (Error "Missing configuration")
  else
    match crypto l with
    | None => Failed (Error "Missing crypto library")
    | Some key =>
        and_then (of_res (config_of l envName "dbPassword"))
          (fun password =>
             let dbOpts :=
               {[ "instanceConnectionName"%string := VStr (instanceConnectionName envName);
                  "password"%string := password ]} in
             Done {| config := config l; crypto := crypto l;
                     ekvdb := Some {| store_crypto := key; dbOpts := dbOpts |};
                     isReloadOkay := isReloadOkay l |})
    end.

(** The three middlewares every route of an environment starts with, on
    the locals of a new request. *)
Definition prepare (envName : string) : Outcome Locals * list Request :=
  let '(l, reqs) := withConfig fresh in
  (and_then l (fun l => and_then (withCrypto envName l) (withEkvdb envName)), reqs).

(** *** The permission check of the reload route *)

(** The request [hasPermission] starts with, up to [await permsCheck.resp]
    and the body read by [u.consumeStreamp]: status code and body, [None]
    where the request fails. *)
Definition testIamPermissions (authorizationHeaderValue : option string)
    (permissionName : string) : option (nat * string) :=
  https_post "cloudresourcemanager.googleapis.com"
    (String.append "/v1/projects/"
       (String.append
          (default "undefined"%string (process_env "GOOGLE_CLOUD_PROJECT"))
          ":testIamPermissions"))
    authorizationHeaderValue
    (JSON_stringify (JObj [("permissions"%string, JArr [JStr permissionName])])).

(** What [hasPermission] returns: [[err, hasPerm]].  Its last object
    literal names [requiredPerm], which nothing declares. *)
Definition hasPermission (authorizationHeaderValue : option string) (permissionName : string)
  : Outcome (option json * bool) :=
  match testIamPermissions authorizationHeaderValue permissionName with
  | None => Failed RequestFailed
  | Some res =>
      if negb (Nat.eqb (fst res) 200) then Failed (ExternalRequestError (fst res))
      else
        match JSON_parse (snd res) with
        | None => Failed SyntaxError
        | Some body =>
            and_then (of_res (prop body "permissions"))
              (fun grantedPerms =>
                 if negb (lodash_indexOf permissionName grantedPerms =? -1)
                 then Done (None, true)
                 else Failed (ReferenceError "requiredPerm"))
        end
  end.

(** How the handler of [app.post('/.src', ...)] ends: with [next()] after
    setting [isReloadOkay], or with the answer 403 and the error as its
    body. *)
Inductive SrcAnswer :=
| SrcNext (l : Locals)
| SrcForbidden (err : option json).

Definition post_src (authorization : option string) (l : Locals) : Outcome SrcAnswer :=
  and_then (hasPermission authorization "appengine.applications.update")
    (fun '(err, hasPerm) =>
       if hasPerm
       then Done (SrcNext {| config := config l; crypto := crypto l; ekvdb := ekvdb l;
                             isReloadOkay := true |})
       else Done (SrcForbidden err)).

End app.

Section me.
Context `{Platform} {S : Type} `{SqlEngine S}.

(** [getMe]; [key] is the key of the cipher of [res.locals.ekvdb].  The
    model returns the object [res.sendJson] is called with, [None] after
    [res.sendAuthError()]. *)
Definition getMe (key : list byte) (auth : Auth) : M S (option (gmap string string)) :=
  if negb (Server.truthy (auth_google auth)) then
    Server.sendAuthError auth ;;;
    ret None
  else
    sub <- lift (Server.google_sub auth) ;;
    pairs <- Ekvdb.getPairs key sub ;;
    ret (Some (Ekvdb.toPlain pairs)).

(** The route [app.get('/me', ..., withAuth, getMe)], after [withConfig],
    [withCrypto] and [withEkvdb] have run. *)
Definition route_me (key : list byte) (authorization : option string)
  : M S (option (gmap string string)) :=
  auth <- Middleware.withAuth authorization ;;
  getMe key auth.

End me.
End MiddlewareApp.

(** ** server.js, singleton variant: [withConfig] and the route [/me] *)

Module SingletonApp.
Import Startup.

(** The module-level [config] once it is set: the parsed document spread
    into a new object, and [authKey] over it. *)
Record ConfigObject := {
  parsed : json;
  authKey : option string
}.

(** [config.name] for a name other than [authKey] that is not the name of
    an index: a property of the parsed document if that is an object. *)
Definition config_prop (c : ConfigObject) (name : string) : jsval :=
  match parsed c with
  | JObj members =>
      match member name members with
      | Some v => VJson v
      | None => VUndefined
      end
  | _ => VUndefined
  end.

Record Store := {
  store_crypto : list byte;
  dbOpts : gmap string jsval
}.

(** The three module-level variables, and the requests made so far. *)
Record Process := {
  config : option ConfigObject;
  crypto : option (list byte);
  ekvdb : option Store;
  requests : list Request
}.

(** The process as the module is loaded. *)
Definition started : Process :=
  {| config := None; crypto := None; ekvdb := None; requests := [] |}.

Section app.
Context `{Platform} `{Cloud}.

(** The first [if] of [withConfig]. *)
Definition load_config (p : Process) : Outcome unit * Process :=
  match config p with
  | Some _ => (Done tt, p)
  | None =>
      let '(parsed, reqs) := fetch_config (process_env "CONFIG_GCS_URL") in
      match parsed with
      | Failed f =>
          (Failed f,
           {| config := None; crypto := crypto p; ekvdb := ekvdb p;
              requests := requests p ++ reqs |})
      | Done parsed =>
          let authKey := trim <$> readFile ".authkey" in
          (Done tt,
           {| config := Some {| parsed := parsed; authKey := authKey |};
              crypto := crypto p; ekvdb := ekvdb p;
              requests := requests p ++ reqs ++ [ReadFile ".authkey"] |})
      end
  end.

(** The second. *)
Definition load_crypto (p : Process) : Outcome unit * Process :=
  match crypto p with
  | Some _ => (Done tt, p)
  | None =>
      match config p with
      | None => (Failed (Thrown (TypeError "Cannot read properties of undefined")), p)
      | Some c =>
          match Buffer_from (config_prop c "encryptionKeyBase64") with
          | Throw e => (Failed (Thrown e), p)
          | Ok key =>
              (Done tt,
               {| config := config p; crypto := Some key; ekvdb := ekvdb p;
                  requests := requests p |})
          end
      end
  end.

(** The third. *)
Definition load_ekvdb (p : Process) : Outcome unit * Process :=
  match ekvdb p with
  | Some _ => (Done tt, p)
  | None =>
      match config p, crypto p with
      | Some c, Some key =>
          (Done tt,
           {| config := config p; crypto := crypto p;
              ekvdb := Some {| store_crypto := key;
                               dbOpts := {[ "password"%string := config_prop c "dbPassword" ]} |};
              requests := requests p |})
      | _, _ => (Failed (Thrown (TypeError "Cannot read properties of undefined")), p)
      end
  end.

(** [withConfig], with no other request in flight: it ends with [next()]
    or throws. *)
Definition withConfig (p : Process) : Outcome unit * Process :=
  match load_config p with
  | (Failed f, p1) => (Failed f, p1)
  | (Done _, p1) =>
      match load_crypto p1 with
      | (Failed f, p2) => (Failed f, p2)
      | (Done _, p2) => load_ekvdb p2
      end
  end.

(** [withConfig] at the start of each of [n] requests, one after the
    other: how each ended. *)
Fixpoint withConfig_times (n : nat) (p : Process) : list (Outcome unit) * Process :=
  match n with
  | O => ([], p)
  | Datatypes.S n' =>
      let '(o, p') := withConfig p in
      let '(os, p'') := withConfig_times n' p' in
      (o :: os, p'')
  end.

End app.

Section me.
Context `{Platform} {S : Type} `{SqlEngine S}.

(** The handler of [app.get('/me', withConfig, withAuth, ...)]; the model
    returns the object [res.sendJson] is called with, [None] after
    [res.sendAuthError()]. *)
Definition getMe (auth : Auth) : M S (option (gmap string string)) :=
  if negb (Server.truthy (auth_google auth)) then
    Server.sendAuthError auth ;;;
    ret None
  else
    cfg <- Singleton.the_config ;;
    let key := base64_decode (encryptionKeyBase64 cfg) in
    sub <- lift (Server.google_sub auth) ;;
    pairs <- Ekvdb.getPairs key sub ;;
    ret (Some (Ekvdb.toPlain pairs)).

(** The route after [withConfig] has run. *)
Definition route_me (authorization : option string) : M S (option (gmap string string)) :=
  auth <- Singleton.withAuth authorization ;;
  getMe auth.

End me.
End SingletonApp.

(** ** Further tables and a small cloud to run the model on *)

Module ToyTables.

(** A table in which the caller has the same key twice. *)
Definition doubled : Table :=
  {| rows := [{| USER_ID := "abc123"; KEY := "linkedNihUsername"; IV := Toy.stored_iv;
                 VALUE := "0123456789abcdefold" |};
              {| USER_ID := "abc123"; KEY := "linkedNihUsername"; IV := Toy.stored_iv;
                 VALUE := "0123456789abcdefolder" |}];
     faults := [] |}.

End ToyTables.

Module ToyCloud.

Definition secrets : json :=
  JObj [("encryptionKeyBase64"%string, JStr "0123456789abcdef0123456789abcdef");
        ("dbPassword"%string, JStr "hunter2");
        ("dev"%string,
         JObj [("encryptionKeyBase64"%string, JStr "devkey0123456789devkey0123456789");
               ("dbPassword"%string, JStr "devpass")]);
        ("prod"%string,
         JObj [("encryptionKeyBase64"%string, JStr "prodkey012345678prodkey012345678");
               ("dbPassword"%string, JStr "prodpass")])].

Definition parse (s : string) : option json :=
  if String.eqb s "secrets" then Some secrets
  else if String.eqb s "granted" then
    Some (JObj [("permissions"%string, JArr [JStr "appengine.applications.update"])])
  else if String.eqb s "nothing" then Some (JObj [])
  else Toy.parse s.

(** The key of the development environment is not to be had. *)
Definition get (hostname path : string) : nat * string :=
  if String.eqb path "/dev/public-key.pem" then (404%nat, "not found"%string)
  else Toy.get hostname path.

#[export] Instance platform : Platform := {
  aes256cbc_encrypt := Toy.encrypt;
  aes256cbc_decrypt := Toy.decrypt;
  base64_encode := string_of_list_byte;
  base64_decode := list_byte_of_string;
  utf8_decode := string_of_list_byte;
  random_byte := Toy.random;
  JSON_parse := parse;
  jwt_verify := Toy.check_signature;
  https_get := get;
  float_plus := fun text _ => NFloat text;
  float_times := fun text _ => NFloat text
}.

Definition read (path : string) : option string :=
  if String.eqb path ".access-token" then Some " token "%string
  else if String.eqb path ".authkey" then Some " s3cret "%string
  else None.

Definition env (name : string) : option string :=
  if String.eqb name "CONFIG_GCS_URL" then Some "gs://bucket/secrets.json"%string
  else if String.eqb name "GOOGLE_CLOUD_PROJECT" then Some "project"%string
  else None.

Definition url (s : string) : option URL :=
  if String.eqb s "gs://bucket/secrets.json"
  then Some {| href := s; hostname := "bucket"; pathname := "/secrets.json" |}
  else if String.eqb s MiddlewareApp.configGcsUrl
  then Some {| href := s; hostname := "broad-shibboleth-prod.appspot.com";
               pathname := "/secrets/secrets.20200310a.json" |}
  else None.

Definition storage (authorization hostname path : string) : nat * string :=
  if String.eqb authorization "Bearer token" then (200%nat, "secrets"%string)
  else (401%nat, "unauthorized"%string).

Definition post (hostname path : string) (authorization : option string) (body : string)
  : option (nat * string) :=
  match authorization with
  | Some a =>
      if String.eqb a "Bearer admin" then Some (200%nat, "granted"%string)
      else if String.eqb a "Bearer user" then Some (200%nat, "nothing"%string)
      else Some (403%nat, "forbidden"%string)
  | None => None
  end.

Fixpoint index_from (i : Z) (name : string) (items : list json) : Z :=
  match items with
  | [] => -1
  | JStr s :: rest => if String.eqb s name then i else index_from (i + 1) name rest
  | _ :: rest => index_from (i + 1) name rest
  end.

Definition indexOf (name : string) (array : jsval) : Z :=
  match array with
  | VJson (JArr items) => index_from 0 name items
  | _ => -1
  end.

#[export] Instance cloud : Cloud := {
  readFile := read;
  process_env := env;
  http_get := fun _ _ => (200%nat, "metadata"%string);
  https_get_authorized := storage;
  URL_parse := url;
  encodeURIComponent := fun s => s;
  Buffer_from_object := fun _ => Throw (TypeError "The first argument must be of type string");
  https_post := post;
  JSON_stringify := fun _ => "{}"%string;
  lodash_indexOf := indexOf
}.

End ToyCloud.

(** ** Vocabulary of the properties *)

Section vocabulary.
Context `{Platform}.

(** The ciphertext of [plain] under [key] and the IV [ivBase64] encodes. *)
Definition ciphertext (key : list byte) (ivBase64 plain : string) : string :=
  base64_encode
    (aes256cbc_encrypt key (base64_decode ivBase64) (utf8_encode plain)).

(** A key of the cipher, and the text of an IV it accepts. *)
Definition valid_key (key : list byte) : Prop := length key = 32%nat.

Definition valid_iv (ivBase64 : string) : Prop :=
  length (base64_decode ivBase64) = 16%nat.

(** The entry of a snapshot that a row yields. *)
Definition pair_of_row (key : list byte) (r : Row) : option Pair :=
  match Crypto.decipherValueFromBase64 key (IV r) (VALUE r) with
  | Ok plain => Some {| ivBase64 := IV r; cipheredValueBase64 := VALUE r; value := plain |}
  | Throw _ => None
  end.

(** The rows of one key, in storage order. *)
Definition rows_of_key (k : string) (t : list Row) : list Row :=
  List.filter (fun r => String.eqb (KEY r) k) t.

(** What one [setValue] can do to the rows of the reference engine:
    nothing; set the [VALUE] of the rows of that user and key to the
    ciphertext under the IV the snapshot has for the key; or add one row
    with an IV of its own. *)
Inductive upsert_rows (key : list byte) (userId : jsval) (pairs : gmap string Pair)
    (k : string) (value : jsval) (t t' : list Row) : Prop :=
| rows_same : t' = t -> upsert_rows key userId pairs k value t t'
| rows_updated p plain :
    pairs !! k = Some p -> valid_key key -> valid_iv (ivBase64 p) ->
    value = VStr plain ->
    t' = List.map
           (fun r => if matches userId k r
                     then set_VALUE (ciphertext key (ivBase64 p) plain) r else r) t ->
    upsert_rows key userId pairs k value t t'
| rows_inserted s iv plain :
    userId = VStr s -> valid_key key -> valid_iv iv -> value = VStr plain ->
    existsb (matches userId k) t = false ->
    t' = t ++ [{| USER_ID := s; KEY := k; IV := iv; VALUE := ciphertext key iv plain |}] ->
    upsert_rows key userId pairs k value t t'.

(** A snapshot whose records carry the text of a 16-byte IV, as the rows
    of the table do. *)
Definition valid_snapshot (pairs : gmap string Pair) : Prop :=
  forall k p, pairs !! k = Some p -> valid_iv (ivBase64 p).

(** How [setValue] ends on the driver's reply to its statement: with the
    driver's error; normally when one row was affected; with the
    write-conflict error exactly when the count is not 1. *)
Definition settles (op : StoreOp) (userId : jsval) (key : string)
    (reply : Reply nat) (out : Res unit) : Prop :=
  (forall err, reply = Err err -> out = Throw (DriverError err)) /\
  (out = Ok tt <-> reply = Results 1%nat) /\
  ((exists n, out = Throw (WriteConflict op userId key n)) <->
   (exists n, reply = Results n /\ n <> 1%nat)) /\
  (forall n, reply = Results n -> n <> 1%nat ->
             out = Throw (WriteConflict op userId key n)).

(** A computation that only adds events satisfying [P] to the trace, and
    leaves the module-level [config] alone. *)
Definition appends {S A} (P : Event -> Prop) (m : M S A) : Prop :=
  forall w out w',
    m w = (out, w') ->
    exists evs, trace w' = trace w ++ evs /\ Forall P evs /\ config w' = config w.

(** The statements that change the table, and the key they are about. *)
Definition written_key (ev : Event) : option string :=
  match ev with
  | EvQuery (UpdateValue _ _ key) => Some key
  | EvQuery (InsertRow _ key _ _) => Some key
  | _ => None
  end.

Definition is_query (ev : Event) : Prop :=
  match ev with
  | EvQuery _ => True
  | _ => False
  end.

Definition is_send (ev : Event) : Prop :=
  match ev with
  | EvSendJson _ => True
  | _ => False
  end.

(** The invariant of the table: one row per user and key, and every row
    carries the text of a 16-byte IV and a ciphertext produced under that
    IV. *)
Definition sealed (key : list byte) (r : Row) : Prop :=
  exists plain, valid_iv (IV r) /\ VALUE r = ciphertext key (IV r) plain.

Definition unique_keys (t : list Row) : Prop :=
  NoDup (List.map (fun r => (USER_ID r, KEY r)) t).

Definition store_ok (key : list byte) (t : list Row) : Prop :=
  unique_keys t /\ Forall (sealed key) t.

(** A snapshot of [userId] agrees with the table: each of its records has
    a row of that user and key, with the IV the snapshot has. *)
Definition snapshot_of (userId : jsval) (pairs : gmap string Pair) (t : list Row) : Prop :=
  forall k p, pairs !! k = Some p ->
    exists r, In r t /\ matches userId k r = true /\ IV r = ivBase64 p.

(** The histories of the store: from [w0], any sequence of [getPairs] and
    of [setValue] with a snapshot that an earlier [getPairs] of the same
    user returned.  The list holds the snapshots read so far. *)
Inductive history (key : list byte) (w0 : World Table)
  : World Table -> list (jsval * gmap string Pair) -> Prop :=
| history_start : history key w0 w0 []
| history_read userId w snaps out w' :
    history key w0 w snaps ->
    Ekvdb.getPairs key userId w = (out, w') ->
    history key w0 w'
      (match out with
       | Ok pairs => (userId, pairs) :: snaps
       | Throw _ => snaps
       end)
| history_write userId pairs k value w snaps out w' :
    history key w0 w snaps ->
    In (userId, pairs) snaps ->
    Ekvdb.setValue key userId pairs k value w = (out, w') ->
    history key w0 w' snaps.

End vocabulary.

(** The rows of the table that are not of [userId] under one of [keys],
    in storage order. *)
Definition untouched (userId : jsval) (keys : list string) (t : list Row) : list Row :=
  List.filter
    (fun r => negb (sql_eq userId (USER_ID r) && existsb (String.eqb (KEY r)) keys)) t.

(** A computation over the reference engine that leaves those rows as
    they are. *)
Definition frames {A} (userId : jsval) (keys : list string) (m : M Table A) : Prop :=
  forall w out w',
    m w = (out, w') ->
    untouched userId keys (rows (db w')) = untouched userId keys (rows (db w)).

(** A computation over the reference engine that keeps the invariant of
    the table and the snapshots in [known] snapshots of it, and leaves the
    module-level [config], which is [c], alone. *)
Definition keeps_store_ok `{Platform} {A} (key : list byte) (c : option Config)
    (known : list (jsval * gmap string Pair)) (m : M Table A) : Prop :=
  forall w out w',
    config w = c ->
    store_ok key (rows (db w)) ->
    (forall u pairs, In (u, pairs) known -> snapshot_of u pairs (rows (db w))) ->
    m w = (out, w') ->
    config w' = c /\
    store_ok key (rows (db w')) /\
    (forall u pairs, In (u, pairs) known -> snapshot_of u pairs (rows (db w'))).

(** The keys the linking handlers may write. *)
Definition link_keys : list string := ["linkedNihUsername"; "linkExpireTime"]%string.

Definition writes_link_key (ev : Event) : Prop :=
  forall k, written_key ev = Some k -> In k link_keys.

(** The two linking handlers under one name. *)
Inductive Variant :=
| MiddlewareVariant (key : list byte) (envName : string)
| SingletonVariant.

Section variants.
Context `{Platform} {S : Type} `{!SqlEngine S}.

Definition linking_handler (v : Variant) (auth : Auth) (body : string) : M S unit :=
  match v with
  | MiddlewareVariant key envName => Middleware.postShibbolethToken key envName auth body
  | SingletonVariant => Singleton.postShibbolethToken auth body
  end.

(** The path the variant fetches the public key from. *)
Definition public_key_path (v : Variant) : string :=
  match v with
  | MiddlewareVariant _ envName =>
      if String.eqb envName "dev" then "/dev/public-key.pem" else "/public-key.pem"
  | SingletonVariant => "/public-key.pem"
  end.

(** The encryption key the variant's store works with in world [w], where
    it has one. *)
Definition store_key (v : Variant) (w : World S) : option (list byte) :=
  match v with
  | MiddlewareVariant key _ => Some key
  | SingletonVariant => (fun c => base64_decode (encryptionKeyBase64 c)) <$> config w
  end.

End variants.

(** ** Further vocabulary *)

(** The value of a run of decimal digits read after [acc]. *)
Fixpoint uint_value (acc : Z) (d : Decimal.uint) : Z :=
  match d with
  | Decimal.Nil => acc
  | Decimal.D0 d => uint_value (acc * 10 + 0) d
  | Decimal.D1 d => uint_value (acc * 10 + 1) d
  | Decimal.D2 d => uint_value (acc * 10 + 2) d
  | Decimal.D3 d => uint_value (acc * 10 + 3) d
  | Decimal.D4 d => uint_value (acc * 10 + 4) d
  | Decimal.D5 d => uint_value (acc * 10 + 5) d
  | Decimal.D6 d => uint_value (acc * 10 + 6) d
  | Decimal.D7 d => uint_value (acc * 10 + 7) d
  | Decimal.D8 d => uint_value (acc * 10 + 8) d
  | Decimal.D9 d => uint_value (acc * 10 + 9) d
  end.

(** How often a character occurs in a text. *)
Fixpoint occurrences (c : ascii) (s : string) : nat :=
  match s with
  | EmptyString => 0%nat
  | String c' s' => ((if Ascii.eqb c' c then 1 else 0) + occurrences c s')%nat
  end.

Section routes.
Context `{Platform} {S : Type} `{!SqlEngine S}.

(** The scheme of an [Authorization] header, in lower case, and the
    credential after it; no scheme where the header is missing or
    blank. *)
Definition scheme (authorization : option string) : option string :=
  let authHeader := trim (default EmptyString authorization) in
  if Nat.eqb (String.length authHeader) 0 then None
  else toLowerCase <$> head (split_ws authHeader).

Definition credential (authorization : option string) : option string :=
  head (tail (split_ws (trim (default EmptyString authorization)))).

(** The request the resolvers send the identity provider for a bearer
    credential, and its answer. *)
Definition tokeninfo_path (authorization : option string) : string :=
  String.append "/tokeninfo?access_token=" (default "undefined"%string (credential authorization)).

Definition introspection (authorization : option string) : nat * string :=
  https_get "oauth2.googleapis.com" (tokeninfo_path authorization).

(** The scheme token as it was sent, and what the resolvers make of a
    bearer credential. *)
Definition scheme_token (authorization : option string) : string :=
  default EmptyString (head (split_ws (trim (default EmptyString authorization)))).

Definition bearer_auth (authorization : option string) : Auth :=
  let gtRes := introspection authorization in
  if negb (Nat.eqb (fst gtRes) 200)
  then AuthErr (InvalidBearerToken (credential authorization)
                  (trim (default EmptyString authorization))
                  (Server.maybeParseJson (snd gtRes)))
  else AuthGoogle (Server.maybeParseJson (snd gtRes)).

(** The world after one more event. *)
Definition after (w : World S) (evs : list Event) : World S :=
  {| db := db w; rng := rng w; trace := trace w ++ evs; config := config w |}.

(** The two linking routes and the two [/me] handlers under one name. *)
Definition linking_route (v : Variant) (authorization : option string) (body : string)
  : M S unit :=
  match v with
  | MiddlewareVariant key envName =>
      Middleware.route_shibboleth_token key envName authorization body
  | SingletonVariant => Singleton.route_shibboleth_token authorization body
  end.

Definition me_handler (v : Variant) (auth : Auth) : M S (option (gmap string string)) :=
  match v with
  | MiddlewareVariant key _ => MiddlewareApp.getMe key auth
  | SingletonVariant => SingletonApp.getMe auth
  end.

(** What both linking handlers do once the assertion is verified and
    the caller and the username are at hand: the work on the store and the
    answer.  [iat] is the result of reading [payload['iat']]. *)
Definition link_account (key : list byte) (sub username : jsval) (iat : Res jsval)
  : M S unit :=
  pairs <- Ekvdb.getPairs key sub ;;
  Ekvdb.setValue key sub pairs "linkedNihUsername" username ;;;
  iat <- lift iat ;;
  exp <- lift (plus_number iat Server.thirtyDaysInSeconds) ;;
  Ekvdb.setValue key sub pairs "linkExpireTime" (VStr (jsprim_toString exp)) ;;;
  pairs' <- Ekvdb.getPairs key sub ;;
  Server.sendJson false (BodyLinkValues (Server.link_values (Ekvdb.toPlain pairs'))).

(** An event that is no statement changing the table. *)
Definition is_quiet (ev : Event) : Prop := written_key ev = None.

End routes.

(** The singleton variant's [config] as the resolver and the handlers
    read it, for a process that has loaded its configuration, cipher and
    store with a key given as text. *)
Definition world_config (p : SingletonApp.Process) : option Config :=
  match SingletonApp.config p, SingletonApp.crypto p, SingletonApp.ekvdb p with
  | Some c, Some _, Some _ =>
      match SingletonApp.config_prop c "encryptionKeyBase64" with
      | VJson (JStr s) =>
          Some {| authKey := SingletonApp.authKey c; encryptionKeyBase64 := s |}
      | _ => None
      end
  | _, _, _ => None
  end.

(** A request to one of the handlers, by an already resolved caller, and
    the world after serving requests one after the other. *)
Inductive Call :=
| CallLink (auth : Auth) (body : string)
| CallMe (auth : Auth).

Definition serve `{Platform} (v : Variant) (w : World Table) (c : Call) : World Table :=
  match c with
  | CallLink auth body => snd (linking_handler v auth body w)
  | CallMe auth => snd (me_handler v auth w)
  end.

Definition serve_all `{Platform} (v : Variant) (calls : list Call) (w : World Table)
  : World Table :=
  fold_left (serve v) calls w.

(** * Properties *)

(** Computations are unfolded one step at a time. *)
#[local] Arguments randomBytes : simpl never.
#[local] Arguments Crypto.generateIvBase64 : simpl never.
#[local] Arguments Crypto.cipherValueToBase64 : simpl never.
#[local] Arguments Crypto.decipherValueFromBase64 : simpl never.
#[local] Arguments Ekvdb.query : simpl never.
#[local] Arguments Ekvdb.getPairs : simpl never.
#[local] Arguments Ekvdb.setValue : simpl never.
#[local] Arguments bind : simpl never.

(** ** The toy platform keeps the library contracts *)

Lemma toy_platform_laws : @PlatformLaws Toy.platform.
Proof.
  split.
  - intros key iv plain _ _. cbn. unfold Toy.decrypt, Toy.encrypt.
    rewrite take_app_length, drop_app_length.
    rewrite bool_decide_eq_true_2 by reflexivity. reflexivity.
  - intros key iv iv' plain _ Hiv Hiv'. cbn. unfold Toy.decrypt, Toy.encrypt.
    destruct (bool_decide _) eqn:Htake; [|discriminate].
    apply bool_decide_eq_true in Htake.
    intros _. rewrite Hiv', <- Hiv, take_app_length in Htake. congruence.
  - intros bytes. cbn. apply list_byte_of_string_of_list_byte.
  - reflexivity.
  - intros s. cbn. unfold utf8_encode. apply string_of_list_byte_of_string.
Qed.

(** ** The cipher *)

Section crypto_facts.
Context `{Platform} `{!PlatformLaws} {S : Type}.
Variable key : list byte.

Lemma valid_iv_truthy ivBase64 : valid_iv ivBase64 -> truthy_string ivBase64 = true.
Proof.
  unfold valid_iv, truthy_string. intros Hlen.
  destruct (String.eqb_spec ivBase64 EmptyString) as [->|]; [|reflexivity].
  rewrite base64_decode_empty in Hlen. discriminate.
Qed.

Lemma createCipheriv_valid iv :
  valid_key key -> length iv = 16%nat ->
  Crypto.createCipheriv key iv = Ok {| Crypto.cipher_key := key; Crypto.cipher_iv := iv |}.
Proof.
  unfold valid_key, Crypto.createCipheriv. intros -> ->. reflexivity.
Qed.

Lemma createCipheriv_inv iv c :
  Crypto.createCipheriv key iv = Ok c ->
  valid_key key /\ length iv = 16%nat /\ c = {| Crypto.cipher_key := key; Crypto.cipher_iv := iv |}.
Proof.
  unfold valid_key, Crypto.createCipheriv.
  destruct (Nat.eqb_spec (length key) 32); cbn; [|discriminate].
  destruct (Nat.eqb_spec (length iv) 16); cbn; [|discriminate].
  intros [= <-]. auto.
Qed.

(** With a non-empty IV text the encryption reads no random bytes and is a
    function of its arguments. *)
Lemma cipherValueToBase64_truthy ivBase64 value (w : World S) :
  truthy_string ivBase64 = true ->
  Crypto.cipherValueToBase64 key (Some ivBase64) value w =
  (res_bind (Crypto.createCipher key (Some ivBase64))
     (fun cipher => Crypto.cipher_update_final cipher value), w).
Proof.
  intros Ht. unfold Crypto.cipherValueToBase64, bind, lift, ret. rewrite Ht.
  destruct (Crypto.createCipher key (Some ivBase64)) as [cipher|e]; cbn; [|reflexivity].
  destruct (Crypto.cipher_update_final cipher value); reflexivity.
Qed.

Lemma cipherValueToBase64_valid ivBase64 plain (w : World S) :
  valid_key key -> valid_iv ivBase64 ->
  Crypto.cipherValueToBase64 key (Some ivBase64) (VStr plain) w =
  (Ok (ciphertext key ivBase64 plain), w).
Proof.
  intros Hk Hiv. rewrite cipherValueToBase64_truthy by (apply valid_iv_truthy; exact Hiv).
  unfold Crypto.createCipher, Crypto.Buffer_from_base64. cbn.
  rewrite createCipheriv_valid by assumption. reflexivity.
Qed.

Lemma decipher_ciphertext ivBase64 plain :
  valid_key key -> valid_iv ivBase64 ->
  Crypto.decipherValueFromBase64 key ivBase64 (ciphertext key ivBase64 plain) =
  Ok (toWellFormed plain).
Proof.
  intros Hk Hiv.
  unfold Crypto.decipherValueFromBase64, Crypto.createDecipher, Crypto.Buffer_from_base64.
  cbn. rewrite createCipheriv_valid by assumption. cbn.
  unfold Crypto.decipher_update_final, ciphertext. cbn.
  rewrite base64_roundtrip, aes_roundtrip by assumption.
  rewrite utf8_roundtrip. reflexivity.
Qed.

(** An encryption that succeeds had a valid key, a valid IV and a string
    to encrypt. *)
Lemma encrypt_ok_inv ivBase64 value c :
  res_bind (Crypto.createCipher key (Some ivBase64))
    (fun cipher => Crypto.cipher_update_final cipher value) = Ok c ->
  valid_key key /\ valid_iv ivBase64 /\
  exists plain, value = VStr plain /\ c = ciphertext key ivBase64 plain.
Proof.
  unfold Crypto.createCipher, Crypto.Buffer_from_base64. cbn.
  destruct (Crypto.createCipheriv key (base64_decode ivBase64)) as [cipher|e] eqn:E;
    cbn; [|discriminate].
  apply createCipheriv_inv in E as (Hk & Hiv & ->).
  unfold Crypto.cipher_update_final. cbn.
  destruct value as [| |[| | | |s| |]]; try discriminate.
  intros [= <-]. split_and!; auto. exists s. auto.
Qed.

(** A record that deciphers has a valid IV, under a valid key. *)
Lemma decipher_ok_valid ivBase64 c plain :
  Crypto.decipherValueFromBase64 key ivBase64 c = Ok plain ->
  valid_key key /\ valid_iv ivBase64.
Proof.
  unfold Crypto.decipherValueFromBase64, Crypto.createDecipher, Crypto.Buffer_from_base64.
  cbn. destruct (Crypto.createCipheriv key (base64_decode ivBase64)) as [d|e] eqn:E;
    cbn; [|discriminate].
  intros _. apply createCipheriv_inv in E. tauto.
Qed.

(** What [generateIvBase64] returns is the text of 16 bytes. *)
Lemma generateIvBase64_eq (w : World S) :
  Crypto.generateIvBase64 w =
  (Ok (base64_encode (List.map (random_byte (rng w)) (seq 0 16))),
   {| db := db w; rng := Datatypes.S (rng w); trace := trace w; config := config w |}).
Proof. reflexivity. Qed.

Lemma generateIvBase64_valid (w w' : World S) iv :
  Crypto.generateIvBase64 w = (Ok iv, w') -> valid_iv iv.
Proof.
  rewrite generateIvBase64_eq. intros [= <- _]. unfold valid_iv.
  rewrite base64_roundtrip. reflexivity.
Qed.

End crypto_facts.

Section cipher_claims.
Context `{Platform} `{!PlatformLaws} {S : Type}.
Variable key : list byte.

(** C8, as amended.  Cipher round trip: under a key of the cipher (32
    bytes), for every plaintext [P] and every IV that [generateIvBase64]
    returns, [cipherValueToBase64 iv P] succeeds and
    [decipherValueFromBase64 iv] of its result is [P] with U+FFFD in the
    place of every surrogate that has no partner: it is [P] for every
    well-formed [P]. *)
Theorem cipher_roundtrip (P iv : string) (w w' w1 : World S) :
  valid_key key ->
  Crypto.generateIvBase64 w = (Ok iv, w') ->
  exists c,
    Crypto.cipherValueToBase64 key (Some iv) (VStr P) w1 = (Ok c, w1) /\
    Crypto.decipherValueFromBase64 key iv c = Ok (toWellFormed P) /\
    (isWellFormed P = true -> Crypto.decipherValueFromBase64 key iv c = Ok P).
Proof.
  intros Hk Hgen. apply generateIvBase64_valid in Hgen.
  exists (ciphertext key iv P). split_and!.
  - apply cipherValueToBase64_valid; assumption.
  - apply decipher_ciphertext; assumption.
  - intros Hwf. apply String.eqb_eq in Hwf.
    rewrite decipher_ciphertext by assumption. rewrite Hwf. reflexivity.
Qed.

(** C10.  [cipherValueToBase64] never encrypts under the fallback IV it
    generates: its outcome is that of the cipher created from the
    caller's [ivBase64], whatever the random bytes; with a non-empty valid
    [ivBase64] the result is the ciphertext under exactly that IV; with a
    missing or empty [ivBase64] the fallback is generated and the call then
    throws. *)
Theorem cipherValueToBase64_ignores_fallback
    (ivBase64 : option string) (value : jsval) (w : World S) :
  fst (Crypto.cipherValueToBase64 key ivBase64 value w) =
    res_bind (Crypto.createCipher key ivBase64)
      (fun cipher => Crypto.cipher_update_final cipher value) /\
  (forall s plain,
      ivBase64 = Some s -> s <> EmptyString -> valid_key key -> valid_iv s ->
      value = VStr plain ->
      Crypto.cipherValueToBase64 key ivBase64 value w = (Ok (ciphertext key s plain), w)) /\
  (ivBase64 = None \/ ivBase64 = Some EmptyString ->
   exists e,
     Crypto.cipherValueToBase64 key ivBase64 value w =
     (Throw e, {| db := db w; rng := Datatypes.S (rng w); trace := trace w;
                  config := config w |})).
Proof.
  split; [|split].
  - unfold Crypto.cipherValueToBase64, bind, lift, ret, randomBytes.
    destruct ivBase64 as [s|]; [|reflexivity].
    destruct (truthy_string s); cbn;
      (destruct (Crypto.createCipheriv key (base64_decode s)) as [cipher|e]; cbn;
       [destruct (Crypto.cipher_update_final cipher value)|]; reflexivity).
  - intros s plain -> _ Hk Hiv ->. apply cipherValueToBase64_valid; assumption.
  - intros [-> | ->].
    + eexists. reflexivity.
    + unfold Crypto.cipherValueToBase64, bind, lift, ret, randomBytes,
        Crypto.createCipher, Crypto.Buffer_from_base64. cbn.
      rewrite base64_decode_empty. unfold Crypto.createCipheriv. cbn.
      destruct (negb (length key =? 32)%nat); eexists; reflexivity.
Qed.

End cipher_claims.

(** ** The store's upsert *)

Section store_claims.
Context `{Platform} `{!PlatformLaws} {S : Type} `{!SqlEngine S}.
Variable key : list byte.

Lemma settles_reply op userId k (reply : Reply nat) :
  settles op userId k reply
    match reply with
    | Err err => Throw (DriverError err)
    | Results affectedRows =>
        if negb (Nat.eqb affectedRows 1)
        then Throw (WriteConflict op userId k affectedRows)
        else Ok tt
    end.
Proof.
  unfold settles.
  destruct reply as [err|n]; [|destruct (Nat.eqb_spec n 1) as [->|Hn]; cbn];
    naive_solver.
Qed.

End store_claims.

(** ** The authentication resolvers *)

Lemma split_ws_go_nonempty cur in_sep s : split_ws_go cur in_sep s <> [].
Proof.
  remember (String.length s) as n eqn:Hn. revert cur in_sep s Hn.
  induction n as [n IH] using lt_wf_ind. intros cur in_sep s ->.
  destruct s as [|c s1]; [discriminate|]. cbn [split_ws_go].
  destruct (white_space_width (String c s1)) as [|[|[|[|k]]]];
    repeat match goal with
           | |- context [match ?x with _ => _ end] => destruct x
           end;
    first [discriminate | eapply IH; [|reflexivity]; cbn [String.length]; lia].
Qed.

Lemma split_ws_nonempty s : split_ws s <> [].
Proof. apply split_ws_go_nonempty. Qed.

Section auth_claims.
Context `{Platform} {S : Type} `{!SqlEngine S}.

(** The middleware variant's resolver never throws. *)
Lemma middleware_withAuth_total (authorization : option string) (w : World S) :
  exists auth w', Middleware.withAuth authorization w = (Ok auth, w').
Proof.
  unfold Middleware.withAuth.
  destruct (Nat.eqb _ 0); [eexists _, _; reflexivity|].
  destruct (split_ws _) as [|type rest] eqn:Hs; [apply split_ws_nonempty in Hs; contradiction|].
  destruct (String.eqb (toLowerCase type) "bearer"); [|eexists _, _; reflexivity].
  unfold bind, Server.httpRequest, bind, emit, ret. cbn.
  destruct (negb _); eexists _, _; reflexivity.
Qed.

(** Nor does the singleton variant's, once [withConfig] has filled
    [config]. *)
Lemma singleton_withAuth_total (authorization : option string) (w : World S) cfg :
  config w = Some cfg ->
  exists auth w', Singleton.withAuth authorization w = (Ok auth, w').
Proof.
  intros Hcfg. unfold Singleton.withAuth.
  destruct (Nat.eqb _ 0); [eexists _, _; reflexivity|].
  destruct (split_ws _) as [|type rest] eqn:Hs; [apply split_ws_nonempty in Hs; contradiction|].
  destruct (String.eqb (toLowerCase type) "key").
  { unfold bind, Singleton.the_config. rewrite Hcfg.
    destruct (negb (truthy_opt _)); [eexists _, _; reflexivity|].
    destruct (negb (bool_decide _)); eexists _, _; reflexivity. }
  destruct (String.eqb (toLowerCase type) "bearer"); [|eexists _, _; reflexivity].
  unfold bind, Server.httpRequest, bind, emit, ret. cbn.
  destruct (negb _); eexists _, _; reflexivity.
Qed.

(** C2.  The singleton variant's resolver throws on a [Key] header while
    the module-level [config] is still [undefined]: the routes
    [/shibboleth-token] and [/.src] run [withAuth] with no [withConfig]
    before it, so a process that has not served [/me] yet is in that
    state. *)
Theorem singleton_withAuth_throws_before_config (s : S) (n : nat) (evs : list Event) :
  Singleton.withAuth (Some "Key abc"%string)
    {| db := s; rng := n; trace := evs; config := None |} =
  (Throw (TypeError "Cannot read properties of undefined"),
   {| db := s; rng := n; trace := evs; config := None |}).
Proof. reflexivity. Qed.

Lemma key_scheme_header_nonempty (header type : string) (rest : list string) :
  split_ws header = type :: rest -> toLowerCase type = "key"%string ->
  Nat.eqb (String.length header) 0 = false.
Proof.
  intros Hs Hkey. destruct header; [|reflexivity].
  cbn in Hs. injection Hs as <- _. discriminate.
Qed.

(** C3, as amended.  For a request whose scheme token is [key] in any
    letter case: the singleton variant, with its configuration loaded,
    answers [key authorization disabled] when no (or an empty) static
    secret is configured, [invalid auth key] when the credential differs
    from the configured secret and [{key: value}] when it matches; the
    middleware variant has no key scheme and answers
    [invalid auth type]. *)
Theorem key_scheme_resolution (authorization : option string) (type : string)
    (rest : list string) (w : World S) :
  split_ws (trim (default EmptyString authorization)) = type :: rest ->
  toLowerCase type = "key"%string ->
  let header := trim (default EmptyString authorization) in
  let value := head rest in
  (forall cfg, config w = Some cfg ->
     (truthy_opt (authKey cfg) = false ->
      Singleton.withAuth authorization w =
      (Ok (AuthErr (KeyAuthorizationDisabled type value header)), w)) /\
     (forall secret, authKey cfg = Some secret -> secret <> EmptyString ->
        (value <> Some secret ->
         Singleton.withAuth authorization w =
         (Ok (AuthErr (InvalidAuthKey type value header)), w)) /\
        (value = Some secret ->
         Singleton.withAuth authorization w = (Ok (AuthKey (Some secret)), w)))) /\
  Middleware.withAuth authorization w =
  (Ok (AuthErr (InvalidAuthType type value header)), w).
Proof.
  intros Hs Hkey. cbv zeta.
  pose proof (key_scheme_header_nonempty _ _ _ Hs Hkey) as Hne.
  set (header := trim (default EmptyString authorization)) in *.
  set (value := head rest).
  split.
  - intros cfg Hcfg.
    assert (Hrun : Singleton.withAuth authorization w =
              (if negb (truthy_opt (authKey cfg))
               then Ok (AuthErr (KeyAuthorizationDisabled type value header))
               else if negb (bool_decide (value = authKey cfg))
                    then Ok (AuthErr (InvalidAuthKey type value header))
                    else Ok (AuthKey value), w)).
    { unfold Singleton.withAuth. fold header. rewrite Hne, Hs, Hkey. cbn.
      unfold bind, Singleton.the_config. rewrite Hcfg. fold value.
      destruct (negb (truthy_opt _)); [reflexivity|].
      destruct (negb (bool_decide _)); reflexivity. }
    split.
    + intros Hoff. rewrite Hrun, Hoff. reflexivity.
    + intros secret Hsec Hnonempty.
      assert (Hon : truthy_opt (authKey cfg) = true).
      { rewrite Hsec. cbn. unfold truthy_string.
        destruct (String.eqb_spec secret EmptyString); [contradiction|reflexivity]. }
      rewrite Hrun, Hon, Hsec. cbn. split; intros Hv.
      * rewrite bool_decide_eq_false_2 by exact Hv. reflexivity.
      * rewrite bool_decide_eq_true_2 by exact Hv. rewrite Hv. reflexivity.
  - unfold Middleware.withAuth. fold header. rewrite Hne, Hs. fold value.
    assert (Hb : String.eqb (toLowerCase type) "bearer" = false) by (rewrite Hkey; reflexivity).
    rewrite Hb. reflexivity.
Qed.

End auth_claims.

(** ** Running computations step by step, and what they add to the trace *)

Section effects.
Context `{Platform} {S : Type} `{!SqlEngine S}.

Lemma bind_ret {A B} (a : A) (f : A -> M S B) w : bind (ret a) f w = f a w.
Proof. reflexivity. Qed.

Lemma bind_throw {A B} e (f : A -> M S B) w : bind (throw e) f w = (Throw e, w).
Proof. reflexivity. Qed.

Lemma bind_lift_ok {A B} (a : A) (f : A -> M S B) w : bind (lift (Ok a)) f w = f a w.
Proof. reflexivity. Qed.

Lemma bind_lift_throw {A B} e (f : A -> M S B) w :
  bind (lift (Throw e)) f w = (Throw e, w).
Proof. reflexivity. Qed.

Lemma bind_emit {B} ev (f : unit -> M S B) w :
  bind (emit ev) f w =
  f tt {| db := db w; rng := rng w; trace := trace w ++ [ev]; config := config w |}.
Proof. reflexivity. Qed.

Lemma bind_bind {A B C} (m : M S A) (f : A -> M S B) (g : B -> M S C) w :
  bind (bind m f) g w = bind m (fun a => bind (f a) g) w.
Proof. unfold bind. destruct (m w) as [[a|e] w1]; reflexivity. Qed.

Lemma bind_inv {A B} (m : M S A) (f : A -> M S B) w out w' :
  bind m f w = (out, w') ->
  (exists a w1, m w = (Ok a, w1) /\ f a w1 = (out, w')) \/
  (exists e, m w = (Throw e, w') /\ out = Throw e).
Proof.
  unfold bind. destruct (m w) as [[a|e] w1]; intros Hrun.
  - left. eauto.
  - right. injection Hrun as <- <-. eauto.
Qed.

Lemma bind_ok_inv {A B} (m : M S A) (f : A -> M S B) w b w' :
  bind m f w = (Ok b, w') ->
  exists a w1, m w = (Ok a, w1) /\ f a w1 = (Ok b, w').
Proof.
  intros Hrun. apply bind_inv in Hrun as [Hok | [e [_ [=]]]]. exact Hok.
Qed.

Lemma bind_lift_ok_inv {A B} (r : Res A) (f : A -> M S B) w b w' :
  bind (lift r) f w = (Ok b, w') ->
  exists a, r = Ok a /\ f a w = (Ok b, w').
Proof.
  destruct r as [a|e]; [rewrite bind_lift_ok; eauto|rewrite bind_lift_throw; discriminate].
Qed.

Lemma appends_mono {A} (P Q : Event -> Prop) (m : M S A) :
  (forall ev, P ev -> Q ev) -> appends P m -> appends Q m.
Proof.
  intros HPQ Hm w out w' Hrun. destruct (Hm _ _ _ Hrun) as (evs & Ht & HP & Hc).
  exists evs. split_and!; auto. eapply Forall_impl; eauto.
Qed.

Lemma appends_ret {A} P (a : A) : appends P (ret (S := S) a).
Proof. intros w out w' [= <- <-]. exists []. rewrite app_nil_r. auto. Qed.

Lemma appends_throw {A} P e : appends P (throw (S := S) (A := A) e).
Proof. intros w out w' [= <- <-]. exists []. rewrite app_nil_r. auto. Qed.

Lemma appends_lift {A} P (r : Res A) : appends P (lift (S := S) r).
Proof. intros w out w' [= <- <-]. exists []. rewrite app_nil_r. auto. Qed.

Lemma appends_emit (P : Event -> Prop) ev : P ev -> appends P (emit (S := S) ev).
Proof. intros HP w out w' [= <- <-]. exists [ev]. auto. Qed.

Lemma appends_bind {A B} P (m : M S A) (f : A -> M S B) :
  appends P m -> (forall a, appends P (f a)) -> appends P (bind m f).
Proof.
  intros Hm Hf w out w' Hrun.
  apply bind_inv in Hrun as [(a & w1 & Hm1 & Hf1) | (e & Hm1 & ->)].
  - destruct (Hm _ _ _ Hm1) as (evs1 & Ht1 & HP1 & Hc1).
    destruct (Hf a _ _ _ Hf1) as (evs2 & Ht2 & HP2 & Hc2).
    exists (evs1 ++ evs2). rewrite Ht2, Ht1, app_assoc. split_and!; auto.
    + apply Forall_app; auto.
    + congruence.
  - eauto.
Qed.

Lemma appends_randomBytes P n : appends P (randomBytes (S := S) n).
Proof. intros w out w' [= <- <-]. exists []. rewrite app_nil_r. auto. Qed.

Lemma appends_query (P : Event -> Prop) sql : P (EvQuery sql) -> appends P (Ekvdb.query sql).
Proof.
  intros HP w out w' Hrun. unfold Ekvdb.query in Hrun.
  destruct (Ekvdb.run sql (db w)) as [reply s]. injection Hrun as <- <-.
  exists [EvQuery sql]. auto.
Qed.

Lemma appends_the_config P : appends P (Singleton.the_config (S := S)).
Proof.
  intros w out w' Hrun. unfold Singleton.the_config in Hrun.
  destruct (config w) eqn:Hc; injection Hrun as <- <-; exists []; rewrite app_nil_r;
    auto.
Qed.

Lemma appends_generateIvBase64 P : appends P (Crypto.generateIvBase64 (S := S)).
Proof. unfold Crypto.generateIvBase64. apply appends_bind; [apply appends_randomBytes|].
  intros bytes. apply appends_ret.
Qed.

Lemma appends_cipherValueToBase64 P key ivBase64 value :
  appends P (Crypto.cipherValueToBase64 (S := S) key ivBase64 value).
Proof.
  unfold Crypto.cipherValueToBase64.
  repeat first
    [ apply appends_bind; [|intros ?] | apply appends_ret | apply appends_lift
    | apply appends_randomBytes
    | match goal with |- appends _ (match ?x with _ => _ end) => destruct x end ].
Qed.

Lemma appends_getPairs (P : Event -> Prop) key userId :
  P (EvQuery (SelectByUser userId)) -> appends P (Ekvdb.getPairs key userId).
Proof.
  intros HP. unfold Ekvdb.getPairs.
  apply appends_bind; [apply appends_query; exact HP|].
  intros [err|results]; [apply appends_throw|apply appends_lift].
Qed.

Lemma appends_setValue (P : Event -> Prop) key userId pairs k value :
  (forall c, P (EvQuery (UpdateValue c userId k))) ->
  (forall iv c, P (EvQuery (InsertRow userId k iv c))) ->
  appends P (Ekvdb.setValue key userId pairs k value).
Proof.
  intros Hu Hi. unfold Ekvdb.setValue.
  apply appends_bind.
  { destruct (truthy_opt _); [apply appends_ret|apply appends_generateIvBase64]. }
  intros iv. destruct (truthy_opt _).
  - apply appends_bind; [apply appends_cipherValueToBase64|]. intros c.
    apply appends_bind; [apply appends_query; apply Hu|].
    intros [err|n]; [apply appends_throw|].
    destruct (negb _); [apply appends_throw|apply appends_ret].
  - apply appends_bind; [apply appends_cipherValueToBase64|]. intros c.
    apply appends_bind; [apply appends_query; apply Hi|].
    intros [err|n]; [apply appends_throw|].
    destruct (negb _); [apply appends_throw|apply appends_ret].
Qed.

Lemma appends_httpRequest (P : Event -> Prop) hostname path :
  P (EvHttpsGet hostname path) -> appends P (Server.httpRequest (S := S) hostname path).
Proof.
  intros HP. unfold Server.httpRequest.
  apply appends_bind; [apply appends_emit; exact HP|]. intros _. apply appends_ret.
Qed.

Lemma appends_verify (P : Event -> Prop) token pem :
  P (EvVerify token pem) -> appends P (Server.verify (S := S) token pem).
Proof.
  intros HP. unfold Server.verify.
  apply appends_bind; [apply appends_emit; exact HP|]. intros _. apply appends_ret.
Qed.

(** Which statement [setValue] sends is decided by the IV text the
    snapshot has for the key: an update where it is there and not empty, an
    insert where the key is absent or its IV text is empty. *)
Lemma setValue_branch key userId pairs k value :
  appends
    (fun ev =>
       if truthy_opt (ivBase64 <$> pairs !! k)
       then exists c, ev = EvQuery (UpdateValue c userId k)
       else exists iv c, ev = EvQuery (InsertRow userId k iv c))
    (Ekvdb.setValue (S := S) key userId pairs k value).
Proof.
  unfold Ekvdb.setValue. destruct (truthy_opt (ivBase64 <$> pairs !! k)).
  - apply appends_bind; [apply appends_ret|]. intros iv.
    apply appends_bind; [apply appends_cipherValueToBase64|]. intros c.
    apply appends_bind; [apply appends_query; eauto|].
    intros [err|n]; [apply appends_throw|].
    destruct (negb _); [apply appends_throw|apply appends_ret].
  - apply appends_bind; [apply appends_generateIvBase64|]. intros iv.
    apply appends_bind; [apply appends_cipherValueToBase64|]. intros c.
    apply appends_bind; [apply appends_query; eauto|].
    intros [err|n]; [apply appends_throw|].
    destruct (negb _); [apply appends_throw|apply appends_ret].
Qed.

(** A computation that adds no event leaves the trace as it is. *)
Lemma appends_nothing {A} (m : M S A) w out w' :
  appends (fun _ => False) m -> m w = (out, w') -> trace w' = trace w.
Proof.
  intros Hm Hrun. destruct (Hm _ _ _ Hrun) as (evs & Ht & Hall & _).
  destruct evs as [|ev evs]; [rewrite app_nil_r in Ht; exact Ht|].
  inversion Hall as [|? ? []].
Qed.

(** A [setValue] that returns has sent exactly one statement, a write of
    its key. *)
Lemma setValue_trace_ok key userId pairs k value w w' :
  Ekvdb.setValue key userId pairs k value w = (Ok tt, w') ->
  exists sql, trace w' = trace w ++ [EvQuery sql] /\ written_key (EvQuery sql) = Some k.
Proof.
  unfold Ekvdb.setValue. intros Hrun.
  apply bind_ok_inv in Hrun as (iv & w1 & Hiv & Hrun).
  assert (Ht1 : trace w1 = trace w).
  { eapply appends_nothing; [|exact Hiv].
    destruct (truthy_opt _); [apply appends_ret|apply appends_generateIvBase64]. }
  destruct (truthy_opt _).
  - apply bind_ok_inv in Hrun as (c & w2 & Hc & Hrun).
    apply (appends_nothing _ _ _ _ (appends_cipherValueToBase64 _ _ _ _)) in Hc.
    apply bind_ok_inv in Hrun as (reply & w3 & Hq & Hrun).
    unfold Ekvdb.query in Hq. destruct (Ekvdb.run _ (db w2)) as [reply' s].
    injection Hq as -> <-.
    exists (UpdateValue c userId k). split; [|reflexivity].
    destruct reply as [err|n]; [discriminate|].
    destruct (negb _); [discriminate|]. injection Hrun as <-. cbn. congruence.
  - apply bind_ok_inv in Hrun as (c & w2 & Hc & Hrun).
    apply (appends_nothing _ _ _ _ (appends_cipherValueToBase64 _ _ _ _)) in Hc.
    apply bind_ok_inv in Hrun as (reply & w3 & Hq & Hrun).
    unfold Ekvdb.query in Hq. destruct (Ekvdb.run _ (db w2)) as [reply' s].
    injection Hq as -> <-.
    exists (InsertRow userId k iv c). split; [|reflexivity].
    destruct reply as [err|n]; [discriminate|].
    destruct (negb _); [discriminate|]. injection Hrun as <-. cbn. congruence.
Qed.

End effects.

(** Solves [appends P m] for a computation built from the primitives,
    leaving the facts [P ev] about the events it emits. *)
Ltac appends_step :=
  cbv zeta;
  lazymatch goal with
  | |- appends _ (bind _ _) => apply appends_bind; [|intros ?]
  | |- appends _ (ret _) => apply appends_ret
  | |- appends _ (throw _) => apply appends_throw
  | |- appends _ (lift _) => apply appends_lift
  | |- appends _ (emit _) => apply appends_emit
  | |- appends _ (randomBytes _) => apply appends_randomBytes
  | |- appends _ (Ekvdb.query _) => apply appends_query
  | |- appends _ Singleton.the_config => apply appends_the_config
  | |- appends _ (Ekvdb.getPairs _ _) => apply appends_getPairs
  | |- appends _ (Ekvdb.setValue _ _ _ _ _) => apply appends_setValue; intros
  | |- appends _ (Server.httpRequest _ _) => apply appends_httpRequest
  | |- appends _ (Server.verify _ _) => apply appends_verify
  | |- appends _ (Server.status _) => apply appends_emit
  | |- appends _ (Server.sendJson _ _) => unfold Server.sendJson
  | |- appends _ (Server.sendAuthError _) => unfold Server.sendAuthError
  | |- appends _ (Middleware.getPublicKey _) => unfold Middleware.getPublicKey
  | |- appends _ (if ?b then _ else _) => destruct b
  | |- appends _ (match ?x with _ => _ end) => destruct x
  end.

Ltac appends_auto := repeat appends_step.

(** ** The linking handlers: failures before the store is touched *)

Section linking_failures.
Context `{Platform} {S : Type} `{!SqlEngine S}.

(** Unfolds the helpers of the handlers and runs the emits and returns at
    the head of a computation. *)
Ltac run_head :=
  repeat (progress
    (unfold Server.sendAuthError, Server.status, Server.sendJson, Server.httpRequest,
       Server.verify, Middleware.getPublicKey;
     repeat first [ rewrite bind_bind | rewrite bind_emit | rewrite bind_ret
                  | rewrite bind_lift_ok | rewrite bind_lift_throw | rewrite bind_throw ])).

Ltac run_head_in Hrun :=
  repeat (progress
    (unfold Server.sendAuthError, Server.status, Server.sendJson, Server.httpRequest,
       Server.verify, Middleware.getPublicKey in Hrun;
     repeat first [ rewrite bind_bind in Hrun | rewrite bind_emit in Hrun
                  | rewrite bind_ret in Hrun | rewrite bind_lift_ok in Hrun
                  | rewrite bind_lift_throw in Hrun | rewrite bind_throw in Hrun ])).

(** The middleware variant stops at a payload that does not parse: it
    throws before it fetches the key. *)
Lemma middleware_parse_failure_stops key envName auth body (w : World S) :
  Server.truthy (auth_google auth) = true ->
  Server.parse_payload body = None ->
  Middleware.postShibbolethToken key envName auth body w =
  (Throw (StructError "failed to parse token payload"), w).
Proof.
  intros Ht Hp. unfold Middleware.postShibbolethToken, Middleware.parseJwtPayload.
  rewrite Ht, Hp. reflexivity.
Qed.

(** C4.  The singleton variant does not stop at a payload that does not
    parse: it answers 400 with the parse failure and goes on to fetch the
    public key and, when that fetch answers 200, to verify the
    signature. *)
Theorem singleton_parse_failure_continues auth body (w : World S) :
  Server.truthy (auth_google auth) = true ->
  Server.parse_payload body = None ->
  exists out w' rest,
    Singleton.postShibbolethToken auth body w = (out, w') /\
    trace w' =
      trace w ++
      [EvStatus 400; EvSendJson (BodyParseFailure body);
       EvHttpsGet "broad-shibboleth-prod.appspot.com" "/public-key.pem"] ++ rest /\
    (fst (https_get "broad-shibboleth-prod.appspot.com" "/public-key.pem") = 200%nat ->
     exists rest',
       rest =
       EvVerify body (snd (https_get "broad-shibboleth-prod.appspot.com" "/public-key.pem"))
       :: rest').
Proof.
  intros Ht Hp. unfold Singleton.postShibbolethToken. rewrite Ht, Hp. cbn [negb].
  run_head.
  destruct (Nat.eqb_spec (fst (https_get "broad-shibboleth-prod.appspot.com" "/public-key.pem")) 200)
    as [Hs|Hs]; cbn [negb].
  - run_head.
    destruct (jwt_verify body _) as [e|].
    { run_head. eexists _, _, _. split; [reflexivity|]. cbn. split.
      - rewrite <- !app_assoc. reflexivity.
      - intros _. eauto. }
    match goal with
    | |- context [bind ?m ?k ?w0] =>
        destruct (bind m k w0) as [out w'] eqn:Hrun;
        assert (Happ : appends (fun _ => True) (bind m k))
    end.
    { appends_auto; exact I. }
    destruct (Happ _ _ _ Hrun) as (evs & Htr & _ & _). cbn in Htr.
    exists out, w', (EvVerify body (snd (https_get "broad-shibboleth-prod.appspot.com" "/public-key.pem")) :: evs).
    split; [reflexivity|]. split.
    + rewrite Htr. rewrite <- !app_assoc. reflexivity.
    + intros _. eauto.
  - run_head. eexists _, _, _. split; [reflexivity|]. cbn. split.
    + rewrite <- !app_assoc. reflexivity.
    + intros Hc. contradiction.
Qed.


(** What a request that passes the signature check and completes has
    done: read the caller's pairs, upserted the two attributes against
    that one snapshot, read the pairs again and answered with them. *)
Lemma linking_success_inv (v : Variant) auth body (w w' : World S) pem :
  Server.truthy (auth_google auth) = true ->
  https_get "broad-shibboleth-prod.appspot.com" (public_key_path v) = (200%nat, pem) ->
  jwt_verify body pem = None ->
  linking_handler v auth body w = (Ok tt, w') ->
  exists key payload sub username iat exp pairs pairs' w0 w1 w2 w3 w4,
    store_key v w = Some key /\
    Server.parse_payload body = Some payload /\
    Server.google_sub auth = Ok sub /\
    prop payload "eraCommonsUsername" = Ok username /\
    prop payload "iat" = Ok iat /\
    plus_number iat Server.thirtyDaysInSeconds = Ok exp /\
    w0 = {| db := db w; rng := rng w;
            trace := trace w ++
                     [EvHttpsGet "broad-shibboleth-prod.appspot.com" (public_key_path v);
                      EvVerify body pem];
            config := config w |} /\
    Ekvdb.getPairs key sub w0 = (Ok pairs, w1) /\
    Ekvdb.setValue key sub pairs "linkedNihUsername" username w1 = (Ok tt, w2) /\
    Ekvdb.setValue key sub pairs "linkExpireTime" (VStr (jsprim_toString exp)) w2 =
      (Ok tt, w3) /\
    Ekvdb.getPairs key sub w3 = (Ok pairs', w4) /\
    w' = {| db := db w4; rng := rng w4;
            trace := trace w4 ++
                     [EvSendJson (BodyLinkValues (Server.link_values (Ekvdb.toPlain pairs')))];
            config := config w4 |}.
Proof.
  intros Ht Hget Hver Hrun. destruct v as [key envName|]; cbn in Hget, Hrun |- *.
  - unfold Middleware.postShibbolethToken, Middleware.parseJwtPayload in Hrun.
    rewrite Ht in Hrun. cbn [negb] in Hrun.
    destruct (Server.parse_payload body) as [payload|] eqn:Hp; [|discriminate].
    run_head_in Hrun. rewrite Hget in Hrun. cbn [fst snd negb Nat.eqb] in Hrun.
    run_head_in Hrun. rewrite Hver in Hrun.
    apply bind_lift_ok_inv in Hrun as (sub & Hsub & Hrun).
    apply bind_lift_ok_inv in Hrun as (username & Huser & Hrun).
    apply bind_ok_inv in Hrun as (pairs & w1 & Hg1 & Hrun).
    apply bind_ok_inv in Hrun as ([] & w2 & Hs1 & Hrun).
    apply bind_lift_ok_inv in Hrun as (iat & Hiat & Hrun).
    apply bind_lift_ok_inv in Hrun as (exp & Hexp & Hrun).
    apply bind_ok_inv in Hrun as ([] & w3 & Hs2 & Hrun).
    apply bind_ok_inv in Hrun as (pairs' & w4 & Hg2 & Hrun).
    run_head_in Hrun. unfold emit, ret in Hrun. injection Hrun as <-.
    exists key, payload, sub, username, iat, exp, pairs, pairs'.
    eexists _, w1, w2, w3, w4.
    cbn [db rng trace config] in Hg1. rewrite <- app_assoc in Hg1.
    split_and!; try reflexivity; eauto.
  - unfold Singleton.postShibbolethToken in Hrun.
    rewrite Ht in Hrun. cbn [negb] in Hrun.
    destruct (Server.parse_payload body) as [payload|] eqn:Hp.
    + run_head_in Hrun. rewrite Hget in Hrun. cbn [fst snd negb Nat.eqb] in Hrun.
      run_head_in Hrun. rewrite Hver in Hrun.
      apply bind_ok_inv in Hrun as (cfg & w0 & Hcfg & Hrun).
      unfold Singleton.the_config in Hcfg. cbn in Hcfg.
      destruct (config w) as [cfg'|] eqn:Hc; [|discriminate]. injection Hcfg as -> <-.
      apply bind_lift_ok_inv in Hrun as (sub & Hsub & Hrun).
      apply bind_ok_inv in Hrun as (pairs & w1 & Hg1 & Hrun).
      apply bind_lift_ok_inv in Hrun as (username & Huser & Hrun).
      apply bind_ok_inv in Hrun as ([] & w2 & Hs1 & Hrun).
      apply bind_lift_ok_inv in Hrun as (iat & Hiat & Hrun).
      apply bind_lift_ok_inv in Hrun as (exp & Hexp & Hrun).
      apply bind_ok_inv in Hrun as ([] & w3 & Hs2 & Hrun).
      apply bind_ok_inv in Hrun as (pairs' & w4 & Hg2 & Hrun).
      run_head_in Hrun. unfold emit, ret in Hrun. injection Hrun as <-.
      exists (base64_decode (encryptionKeyBase64 cfg)), payload, sub, username, iat, exp.
      exists pairs, pairs'. eexists _, w1, w2, w3, w4.
      cbn [db rng trace config] in Hg1. rewrite <- ?app_assoc in Hg1.
      split_and!; try reflexivity; eauto.
    + run_head_in Hrun. rewrite Hget in Hrun. cbn [fst snd negb Nat.eqb] in Hrun.
      run_head_in Hrun. rewrite Hver in Hrun.
      apply bind_ok_inv in Hrun as (cfg & w0 & Hcfg & Hrun).
      apply bind_lift_ok_inv in Hrun as (sub & Hsub & Hrun).
      apply bind_ok_inv in Hrun as (pairs & w1 & Hg1 & Hrun).
      apply bind_lift_ok_inv in Hrun as (username & Huser & Hrun).
      discriminate.
Qed.

End linking_failures.

(** ** The store over the reference engine *)

Section table_facts.
Context `{Platform} `{!PlatformLaws}.
Variable key : list byte.

(** The entry of key [k] in what [reduce_rows] returns is that of the last
    row of that key, or the initial one if there is no such row. *)
Lemma reduce_rows_lookup results : forall init m k,
  Ekvdb.reduce_rows key init results = Ok m ->
  m !! k = match last (rows_of_key k results) with
           | Some r => pair_of_row key r
           | None => init !! k
           end.
Proof.
  induction results as [|v rest IH]; intros init m k Hred; cbn in Hred.
  - injection Hred as <-. reflexivity.
  - destruct (Crypto.decipherValueFromBase64 key (IV v) (VALUE v)) as [plain|e] eqn:Hd;
      [|discriminate].
    rewrite (IH _ _ k Hred). unfold rows_of_key. cbn [List.filter].
    destruct (String.eqb_spec (KEY v) k) as [->|Hne].
    + rewrite last_cons. destruct (last _) as [r|]; [reflexivity|].
      rewrite lookup_insert_eq. unfold pair_of_row. rewrite Hd. reflexivity.
    + destruct (last _) as [r|]; [reflexivity|].
      rewrite lookup_insert_ne by exact Hne. reflexivity.
Qed.

Lemma rows_of_key_In k t r : In r (rows_of_key k t) <-> In r t /\ KEY r = k.
Proof.
  unfold rows_of_key. rewrite filter_In.
  destruct (String.eqb_spec (KEY r) k); intuition congruence.
Qed.

(** An entry of a snapshot read from rows comes from one of them. *)
Lemma reduce_rows_source results m k p :
  Ekvdb.reduce_rows key ∅ results = Ok m -> m !! k = Some p ->
  exists r, In r results /\ KEY r = k /\ pair_of_row key r = Some p.
Proof.
  intros Hred Hp. rewrite (reduce_rows_lookup _ _ _ k Hred) in Hp.
  destruct (last (rows_of_key k results)) as [r|] eqn:Hlast.
  - exists r. apply last_Some_elem_of, list_elem_of_In, rows_of_key_In in Hlast.
    tauto.
  - rewrite lookup_empty in Hp. discriminate.
Qed.

Lemma pair_of_row_Some r p :
  pair_of_row key r = Some p ->
  ivBase64 p = IV r /\ cipheredValueBase64 p = VALUE r /\
  Crypto.decipherValueFromBase64 key (IV r) (VALUE r) = Ok (value p).
Proof.
  unfold pair_of_row.
  destruct (Crypto.decipherValueFromBase64 key (IV r) (VALUE r)); [|discriminate].
  intros [= <-]. auto.
Qed.

(** [getPairs] leaves the rows alone and returns the reduction of the
    caller's rows. *)
Lemma getPairs_table userId (w : World Table) out w' :
  Ekvdb.getPairs key userId w = (out, w') ->
  rows (db w') = rows (db w) /\ rng w' = rng w /\ config w' = config w /\
  trace w' = trace w ++ [EvQuery (SelectByUser userId)] /\
  forall pairs, out = Ok pairs ->
    Ekvdb.reduce_rows key ∅
      (List.filter (fun r => sql_eq userId (USER_ID r)) (rows (db w))) = Ok pairs.
Proof.
  unfold Ekvdb.getPairs, bind, Ekvdb.query. cbn. unfold select.
  destruct (next_fault (db w)) as [[err|] rest]; cbn.
  - intros [= <- <-]. cbn. split_and!; try reflexivity. discriminate.
  - unfold lift. intros [= <- <-]. cbn. split_and!; try reflexivity.
    intros pairs Hok. exact Hok.
Qed.

(** What [setValue] does to the rows, and what its success tells. *)
Lemma setValue_table userId pairs k value (w : World Table) out w' :
  Ekvdb.setValue key userId pairs k value w = (out, w') ->
  upsert_rows key userId pairs k value (rows (db w)) (rows (db w')) /\
  config w' = config w /\
  (out = Ok tt ->
   (exists p plain,
      pairs !! k = Some p /\ value = VStr plain /\ valid_key key /\
      valid_iv (ivBase64 p) /\
      length (List.filter (matches userId k) (rows (db w))) = 1%nat /\
      rows (db w') =
        List.map (fun r => if matches userId k r
                           then set_VALUE (ciphertext key (ivBase64 p) plain) r else r)
          (rows (db w))) \/
   (exists s iv plain,
      userId = VStr s /\ value = VStr plain /\ valid_key key /\ valid_iv iv /\
      existsb (matches userId k) (rows (db w)) = false /\
      rows (db w') =
        rows (db w) ++
        [{| USER_ID := s; KEY := k; IV := iv; VALUE := ciphertext key iv plain |}] /\
      truthy_opt (ivBase64 <$> pairs !! k) = false)).
Proof.
  unfold Ekvdb.setValue.
  destruct (truthy_opt (ivBase64 <$> pairs !! k)) eqn:Ht.
  - destruct (pairs !! k) as [p|] eqn:Hp; [|discriminate]. cbn in Ht |- *.
    rewrite bind_ret. unfold bind at 1.
    rewrite (cipherValueToBase64_truthy key) by exact Ht.
    destruct (res_bind _ _) as [c|e] eqn:Henc.
    2:{ intros [= <- <-]. split_and!; [apply rows_same; reflexivity|reflexivity|discriminate]. }
    apply encrypt_ok_inv in Henc as (Hk & Hiv & plain & -> & ->).
    unfold bind, Ekvdb.query. cbn. unfold update.
    destruct (next_fault (db w)) as [[err|] rest]; cbn.
    { intros [= <- <-]. split_and!; [apply rows_same; reflexivity|reflexivity|discriminate]. }
    destruct (Nat.eqb_spec (length (List.filter (matches userId k) (rows (db w)))) 1)
      as [Hone|Hmany]; cbn; intros [= <- <-]; cbn.
    + split_and!; [eapply rows_updated; eauto|reflexivity|].
      intros _. left. exists p, plain. split_and!; auto.
    + split_and!; [eapply rows_updated; eauto|reflexivity|discriminate].
  - unfold bind at 1. rewrite generateIvBase64_eq.
    assert (Hiv : valid_iv (base64_encode (List.map (random_byte (rng w)) (seq 0 16)))).
    { eapply generateIvBase64_valid. apply generateIvBase64_eq. }
    unfold bind at 1.
    rewrite (cipherValueToBase64_truthy key) by (apply valid_iv_truthy; exact Hiv).
    destruct (res_bind _ _) as [c|e] eqn:Henc.
    2:{ intros [= <- <-]. split_and!; [apply rows_same; reflexivity|reflexivity|discriminate]. }
    apply encrypt_ok_inv in Henc as (Hk & _ & plain & -> & ->).
    unfold bind, Ekvdb.query. cbn. unfold insert.
    destruct (next_fault (db w)) as [[err|] rest]; cbn.
    { intros [= <- <-]. split_and!; [apply rows_same; reflexivity|reflexivity|discriminate]. }
    destruct userId as [| |[| | | |s| |]]; cbn;
      try (intros [= <- <-]; split_and!;
           [apply rows_same; reflexivity|reflexivity|discriminate]).
    destruct (existsb _ _) eqn:Hex; cbn; intros [= <- <-]; cbn.
    + split_and!; [apply rows_same; reflexivity|reflexivity|discriminate].
    + split_and!; [eapply rows_inserted; eauto; reflexivity|reflexivity|].
      intros _. right. eexists s, _, plain. split_and!; eauto; reflexivity.
Qed.

(** One [setValue] leaves alone every row that is not of its user and
    key: a selection of such rows is the same before and after. *)
Lemma upsert_rows_filter userId pairs k value t t' (q : Row -> bool) :
  upsert_rows key userId pairs k value t t' ->
  (forall r, q r = true -> matches userId k r = false) ->
  (forall r c, q (set_VALUE c r) = q r) ->
  List.filter q t' = List.filter q t.
Proof.
  intros Hup Hq Hset. destruct Hup as [->|p plain _ _ _ _ ->|s iv plain -> _ _ _ _ ->].
  - reflexivity.
  - induction t as [|r t IH]; [reflexivity|]. cbn [List.map List.filter].
    rewrite IH. destruct (matches userId k r) eqn:Hm; [|reflexivity].
    rewrite Hset. destruct (q r) eqn:Hqr; [|reflexivity].
    apply Hq in Hqr. congruence.
  - rewrite List.filter_app. cbn [List.filter].
    destruct (q _) eqn:Hqr; [|apply app_nil_r].
    apply Hq in Hqr. unfold matches in Hqr. cbn in Hqr.
    rewrite !String.eqb_refl in Hqr. discriminate.
Qed.

Lemma matches_other_key userId k k' r :
  k' <> k -> matches userId k' r = true -> matches userId k r = false.
Proof.
  unfold matches. intros Hne Hm. apply andb_prop in Hm as [_ Hk].
  apply String.eqb_eq in Hk. subst k'.
  destruct (String.eqb_spec (KEY r) k); [contradiction|]. apply andb_false_r.
Qed.

Lemma filter_singleton_In (q : Row -> bool) t r r' :
  List.filter q t = [r] -> In r' t -> q r' = true -> r' = r.
Proof.
  intros Hf Hin Hq.
  assert (Hin' : In r' (List.filter q t)) by (apply filter_In; auto).
  rewrite Hf in Hin'. destruct Hin' as [->|[]]. reflexivity.
Qed.

Lemma filter_nil_map (q : Row -> bool) (g : Row -> Row) t :
  List.filter q t = [] -> List.map (fun r => if q r then g r else r) t = t.
Proof.
  induction t as [|x t IH]; [reflexivity|]. cbn. destruct (q x); [discriminate|].
  intros Hf. rewrite IH by exact Hf. reflexivity.
Qed.

(** Where the [where] clause finds one row, the update changes that row
    and no other. *)
Lemma map_single_match (q : Row -> bool) (g : Row -> Row) t :
  length (List.filter q t) = 1%nat ->
  exists l1 r l2,
    t = l1 ++ r :: l2 /\ q r = true /\
    List.map (fun r => if q r then g r else r) t = l1 ++ g r :: l2.
Proof.
  induction t as [|x t IH]; [discriminate|]. cbn. destruct (q x) eqn:Hq.
  - cbn. intros [= Hlen]. apply length_zero_iff_nil in Hlen.
    exists [], x, t. rewrite filter_nil_map by exact Hlen. auto.
  - intros Hlen. destruct (IH Hlen) as (l1 & r & l2 & -> & Hr & Hmap).
    exists (x :: l1), r, l2. cbn. rewrite Hmap. auto.
Qed.

Lemma length_one {A} (l : list A) : length l = 1%nat -> exists x, l = [x].
Proof. destruct l as [|x [|y l]]; try discriminate. eauto. Qed.

End table_facts.

(** ** The store's upsert *)

Section upsert_claim.
Context `{Platform} `{!PlatformLaws} {S : Type} `{!SqlEngine S}.
Variable key : list byte.

(** C1, as amended.  [setValue] with a cipher key of 32 bytes, a snapshot
    whose records carry the text of a 16-byte IV (as every snapshot that
    [getPairs] returns does) and a string value sends exactly one
    statement.  If the key is in
    the snapshot, the statement is the update of the [VALUE] column, where
    user and key match, to the ciphertext of the value under the stored IV
    of that record, and no IV is generated.  If the key is absent, the
    statement is the insert of one row that carries a fresh IV from
    [generateIvBase64] and the ciphertext under that IV.  In either branch
    the call ends with the write-conflict error exactly when the driver
    reports an affected-row count other than 1.  On the reference engine, a
    call that returns has changed the [VALUE] of exactly one row and
    nothing else (key present), or added exactly one row (key absent). *)
Theorem setValue_upsert (userId : jsval) (pairs : gmap string Pair)
    (k plain : string) (w : World S) :
  valid_key key -> valid_snapshot pairs ->
  (let '(out, w') := Ekvdb.setValue key userId pairs k (VStr plain) w in
   match pairs !! k with
  | Some p =>
      let c := ciphertext key (ivBase64 p) plain in
      let '(reply, s') := run_update c userId k (db w) in
      w' = {| db := s'; rng := rng w;
              trace := trace w ++ [EvQuery (UpdateValue c userId k)];
              config := config w |} /\
      settles Updating userId k reply out
  | None =>
      exists iv w1,
        Crypto.generateIvBase64 w = (Ok iv, w1) /\
        let c := ciphertext key iv plain in
        let '(reply, s') := run_insert userId k iv c (db w) in
        w' = {| db := s'; rng := rng w1;
                trace := trace w ++ [EvQuery (InsertRow userId k iv c)];
                config := config w |} /\
        settles Inserting userId k reply out
   end) /\
  forall wt wt' : World Table,
    Ekvdb.setValue key userId pairs k (VStr plain) wt = (Ok tt, wt') ->
    match pairs !! k with
    | Some p =>
        exists l1 r l2,
          rows (db wt) = l1 ++ r :: l2 /\ matches userId k r = true /\
          rows (db wt') =
            l1 ++ set_VALUE (ciphertext key (ivBase64 p) plain) r :: l2
    | None =>
        exists s iv,
          userId = VStr s /\ valid_iv iv /\
          rows (db wt') =
            rows (db wt) ++
            [{| USER_ID := s; KEY := k; IV := iv; VALUE := ciphertext key iv plain |}]
    end.
Proof.
  intros Hk Hsnap. split.
  2:{ intros wt wt' Hrun.
      destruct (setValue_table key _ _ _ _ _ _ _ Hrun) as (_ & _ & Hok).
      destruct (Hok eq_refl) as
        [(p & plain' & Hp & [= <-] & _ & _ & Hlen & Hrows)
        |(s & iv & plain' & -> & [= <-] & _ & Hiv & _ & Hrows & Hfalsy)].
      - rewrite Hp.
        destruct (map_single_match _
                    (set_VALUE (ciphertext key (ivBase64 p) plain)) _ Hlen)
          as (l1 & r & l2 & Hsplit & Hm & Hmap).
        exists l1, r, l2. rewrite Hrows, Hmap. auto.
      - destruct (pairs !! k) as [p|] eqn:Hp; [|eauto].
        cbn in Hfalsy. rewrite (valid_iv_truthy _ (Hsnap _ _ Hp)) in Hfalsy.
        discriminate. }
  destruct (Ekvdb.setValue key userId pairs k (VStr plain) w) as [out w'] eqn:Hrun.
  unfold Ekvdb.setValue in Hrun.
  destruct (pairs !! k) as [p|] eqn:Hp; cbn in Hrun.
  - pose proof (valid_iv_truthy _ (Hsnap _ _ Hp)) as Ht. rewrite Ht in Hrun.
    unfold bind at 1 in Hrun. cbn in Hrun. unfold bind at 1 in Hrun.
    rewrite (cipherValueToBase64_valid key) in Hrun by eauto.
    unfold bind, Ekvdb.query in Hrun. cbn in Hrun. cbv zeta.
    destruct (run_update _ userId k (db w)) as [reply s'].
    pose proof (settles_reply Updating userId k reply) as Hs.
    destruct reply as [err|n]; [|destruct (negb (n =? 1)%nat)];
      injection Hrun as <- <-; auto.
  - unfold bind at 1 in Hrun. rewrite generateIvBase64_eq in Hrun.
    unfold bind at 1 in Hrun.
    rewrite (cipherValueToBase64_valid key) in Hrun
      by (eauto; eapply generateIvBase64_valid; apply generateIvBase64_eq).
    do 2 eexists. split; [apply generateIvBase64_eq|].
    unfold bind, Ekvdb.query in Hrun. cbn in Hrun. cbn. cbv zeta.
    destruct (run_insert userId k _ _ (db w)) as [reply s'].
    pose proof (settles_reply Inserting userId k reply) as Hs.
    destruct reply as [err|n]; [|destruct (negb (n =? 1)%nat)];
      injection Hrun as <- <-; auto.
Qed.

End upsert_claim.

(** ** Which rows a computation leaves alone *)

Section frames.
Context `{Platform} `{!PlatformLaws}.
Variable userId : jsval.
Variable keys : list string.

Lemma frames_same {A} (m : M Table A) :
  (forall w out w', m w = (out, w') -> rows (db w') = rows (db w)) ->
  frames userId keys m.
Proof. intros Hm w out w' Hrun. rewrite (Hm _ _ _ Hrun). reflexivity. Qed.

Lemma frames_ret {A} (a : A) : frames userId keys (ret a).
Proof. apply frames_same. intros w out w' [= <- <-]. reflexivity. Qed.

Lemma frames_throw {A} e : frames userId keys (throw (A := A) e).
Proof. apply frames_same. intros w out w' [= <- <-]. reflexivity. Qed.

Lemma frames_lift {A} (r : Res A) : frames userId keys (lift r).
Proof. apply frames_same. intros w out w' [= <- <-]. reflexivity. Qed.

Lemma frames_emit ev : frames userId keys (emit ev).
Proof. apply frames_same. intros w out w' [= <- <-]. reflexivity. Qed.

Lemma frames_the_config : frames userId keys Singleton.the_config.
Proof.
  apply frames_same. intros w out w'. unfold Singleton.the_config.
  destruct (config w); intros [= <- <-]; reflexivity.
Qed.

Lemma frames_bind {A B} (m : M Table A) (f : A -> M Table B) :
  frames userId keys m -> (forall a, frames userId keys (f a)) ->
  frames userId keys (bind m f).
Proof.
  intros Hm Hf w out w' Hrun.
  apply bind_inv in Hrun as [(a & w1 & Hm1 & Hf1) | (e & Hm1 & ->)].
  - rewrite (Hf a _ _ _ Hf1). exact (Hm _ _ _ Hm1).
  - exact (Hm _ _ _ Hm1).
Qed.

Lemma frames_bind_lift {A B} (r : Res A) (f : A -> M Table B) :
  (forall a, r = Ok a -> frames userId keys (f a)) ->
  frames userId keys (bind (lift r) f).
Proof.
  intros Hf. destruct r as [a|e].
  - intros w out w'. rewrite bind_lift_ok. apply Hf. reflexivity.
  - intros w out w'. rewrite bind_lift_throw. intros [= <- <-]. reflexivity.
Qed.

Lemma frames_getPairs key u : frames userId keys (Ekvdb.getPairs key u).
Proof.
  apply frames_same. intros w out w' Hrun.
  apply (getPairs_table key) in Hrun. tauto.
Qed.

Lemma frames_setValue key pairs k value :
  In k keys -> frames userId keys (Ekvdb.setValue key userId pairs k value).
Proof.
  intros Hin w out w' Hrun.
  apply (setValue_table key) in Hrun as (Hup & _).
  unfold untouched. eapply upsert_rows_filter; [exact Hup| |reflexivity].
  intros r Hq. destruct (matches userId k r) eqn:Hm; [|reflexivity].
  unfold matches in Hm. apply andb_prop in Hm as [Hu Hk].
  rewrite Hu in Hq. cbn in Hq.
  assert (Hex : existsb (String.eqb (KEY r)) keys = true).
  { apply existsb_exists. exists k. auto. }
  rewrite Hex in Hq. discriminate.
Qed.

End frames.

Ltac frames_step :=
  cbv zeta;
  lazymatch goal with
  | |- frames _ _ (bind (lift _) _) => apply frames_bind_lift; intros ? ?
  | |- frames _ _ (bind _ _) => apply frames_bind; [|intros ?]
  | |- frames _ _ (ret _) => apply frames_ret
  | |- frames _ _ (throw _) => apply frames_throw
  | |- frames _ _ (lift _) => apply frames_lift
  | |- frames _ _ (emit _) => apply frames_emit
  | |- frames _ _ Singleton.the_config => apply frames_the_config
  | |- frames _ _ (Ekvdb.getPairs _ _) => apply frames_getPairs
  | |- frames _ _ (Server.httpRequest _ _) => unfold Server.httpRequest
  | |- frames _ _ (Server.verify _ _) => unfold Server.verify
  | |- frames _ _ (Server.status _) => apply frames_emit
  | |- frames _ _ (Server.sendJson _ _) => unfold Server.sendJson
  | |- frames _ _ (Server.sendAuthError _) => unfold Server.sendAuthError
  | |- frames _ _ (Middleware.getPublicKey _) => unfold Middleware.getPublicKey
  | |- frames _ _ (if ?b then _ else _) => destruct b
  | |- frames _ _ (match ?x with _ => _ end) => destruct x
  end.

(** ** The frame of a linking request *)

Section frame_claim.
Context `{Platform} `{!PlatformLaws}.

Lemma handler_appends (v : Variant) auth body :
  appends (S := Table) writes_link_key (linking_handler v auth body).
Proof.
  destruct v as [key envName|];
    [unfold linking_handler, Middleware.postShibbolethToken, Middleware.parseJwtPayload
    |unfold linking_handler, Singleton.postShibbolethToken];
    appends_auto;
    intros k' Hk; cbn in Hk; first [discriminate | injection Hk as <-; cbn; auto].
Qed.

Lemma handler_frames (v : Variant) auth body sub :
  Server.google_sub auth = Ok sub ->
  frames sub link_keys (linking_handler v auth body).
Proof.
  intros Hsub.
  destruct v as [key envName|];
    [unfold linking_handler, Middleware.postShibbolethToken, Middleware.parseJwtPayload
    |unfold linking_handler, Singleton.postShibbolethToken];
    repeat first
      [ frames_step
      | match goal with
        | Ha : Server.google_sub auth = Ok ?a |- _ =>
            rewrite Hsub in Ha; injection Ha as <-
        end
      | apply frames_setValue; cbn; auto ].
Qed.

Lemma rows_of_key_user userId k t :
  rows_of_key k (List.filter (fun r => sql_eq userId (USER_ID r)) t) =
  List.filter (matches userId k) t.
Proof.
  unfold rows_of_key, matches. induction t as [|r t IH]; [reflexivity|].
  cbn [List.filter]. destruct (sql_eq userId (USER_ID r)); cbn [List.filter andb].
  - rewrite IH. reflexivity.
  - exact IH.
Qed.

(** C9.  What one linking request, in either variant, does to the store.
    Whatever its outcome: every statement it sends that changes the table
    is about [linkedNihUsername] or [linkExpireTime], and every row that is
    not the caller's under one of those two keys is left as it was.  When
    it passes the signature check and completes: it has sent exactly two
    such statements, for [linkedNihUsername] and then [linkExpireTime], and
    the [lastLinkTime] of the response is [parseInt] of the plaintext of
    the caller's last [lastLinkTime] row as the table had it before the
    request, which is [NaN] when the table had none. *)
Theorem linking_frame (v : Variant) auth body (w w' : World Table) out :
  linking_handler v auth body w = (out, w') ->
  (exists evs, trace w' = trace w ++ evs /\ Forall writes_link_key evs) /\
  (forall sub, Server.google_sub auth = Ok sub ->
     untouched sub link_keys (rows (db w')) = untouched sub link_keys (rows (db w))) /\
  (forall pem,
     Server.truthy (auth_google auth) = true ->
     https_get "broad-shibboleth-prod.appspot.com" (public_key_path v) = (200%nat, pem) ->
     jwt_verify body pem = None ->
     out = Ok tt ->
     exists key sub evs values,
       store_key v w = Some key /\ Server.google_sub auth = Ok sub /\
       trace w' = trace w ++ evs ++ [EvSendJson (BodyLinkValues values)] /\
       omap written_key evs = link_keys /\
       lastLinkTime values =
         parseInt (value <$> (last (List.filter (matches sub "lastLinkTime") (rows (db w)))
                              ≫= pair_of_row key)) /\
       (List.filter (matches sub "lastLinkTime") (rows (db w)) = [] ->
        lastLinkTime values = NNaN)).
Proof.
  intros Hrun. split_and!.
  - destruct (handler_appends v auth body _ _ _ Hrun) as (evs & Ht & Hall & _). eauto.
  - intros sub Hsub. exact (handler_frames v auth body sub Hsub _ _ _ Hrun).
  - intros pem Ht Hget Hver ->.
    destruct (linking_success_inv v auth body w w' pem Ht Hget Hver Hrun)
      as (key & payload & sub & username & iat & exp & pairs & pairs' & w0 & w1 & w2 & w3 & w4
          & Hkey & Hp & Hsub & Huser & Hiat & Hexp & Hw0 & Hg1 & Hs1 & Hs2 & Hg2 & Hw').
    destruct (getPairs_table key _ _ _ _ Hg1) as (Hr1 & _ & _ & Ht1 & _).
    destruct (setValue_table key _ _ _ _ _ _ _ Hs1) as (Hup1 & _ & _).
    destruct (setValue_table key _ _ _ _ _ _ _ Hs2) as (Hup2 & _ & _).
    destruct (setValue_trace_ok _ _ _ _ _ _ _ Hs1) as (sql1 & Ht2 & Hk1).
    destruct (setValue_trace_ok _ _ _ _ _ _ _ Hs2) as (sql2 & Ht3 & Hk2).
    destruct (getPairs_table key _ _ _ _ Hg2) as (Hr4 & _ & _ & Ht4 & Hred).
    specialize (Hred pairs' eq_refl).
    assert (Hlast : List.filter (matches sub "lastLinkTime") (rows (db w3)) =
                    List.filter (matches sub "lastLinkTime") (rows (db w))).
    { transitivity (List.filter (matches sub "lastLinkTime") (rows (db w2))).
      - eapply upsert_rows_filter; [exact Hup2| |reflexivity].
        intros r. apply matches_other_key. discriminate.
      - transitivity (List.filter (matches sub "lastLinkTime") (rows (db w1))).
        + eapply upsert_rows_filter; [exact Hup1| |reflexivity].
          intros r. apply matches_other_key. discriminate.
        + rewrite Hr1, Hw0. reflexivity. }
    assert (Hvalue : Ekvdb.toPlain pairs' !! "lastLinkTime"%string =
              value <$> (last (List.filter (matches sub "lastLinkTime") (rows (db w)))
                         ≫= pair_of_row key)).
    { unfold Ekvdb.toPlain. rewrite lookup_fmap.
      rewrite (reduce_rows_lookup key _ _ _ "lastLinkTime"%string Hred).
      rewrite rows_of_key_user, Hlast, lookup_empty.
      destruct (last _); reflexivity. }
    exists key, sub,
      [EvHttpsGet "broad-shibboleth-prod.appspot.com" (public_key_path v);
       EvVerify body pem; EvQuery (SelectByUser sub); EvQuery sql1; EvQuery sql2;
       EvQuery (SelectByUser sub)],
      (Server.link_values (Ekvdb.toPlain pairs')).
    split_and!; auto.
    + rewrite Hw'. cbn [trace]. rewrite Ht4, Ht3, Ht2, Ht1, Hw0. cbn [trace].
      rewrite <- !app_assoc. reflexivity.
    + cbn [omap]. cbn in Hk1, Hk2. cbn. rewrite Hk1, Hk2. reflexivity.
    + cbn [lastLinkTime Server.link_values]. rewrite Hvalue. reflexivity.
    + intros Hnone. cbn [lastLinkTime Server.link_values].
      rewrite Hvalue, Hnone. reflexivity.
Qed.

End frame_claim.

(** ** The invariant of the store *)

Section invariant.
Context `{Platform} `{!PlatformLaws}.
Variable key : list byte.

Lemma matches_inv userId k r :
  matches userId k r = true -> userId = VStr (USER_ID r) /\ KEY r = k.
Proof.
  unfold matches, sql_eq. intros Hm. apply andb_prop in Hm as [Hu Hk].
  apply String.eqb_eq in Hk.
  destruct userId as [| |[| | | |s| |]]; try discriminate.
  apply String.eqb_eq in Hu. subst. auto.
Qed.

Lemma unique_keys_same t r r' :
  unique_keys t -> In r t -> In r' t ->
  USER_ID r = USER_ID r' -> KEY r = KEY r' -> r = r'.
Proof.
  unfold unique_keys. induction t as [|x t IH]; cbn; [contradiction|].
  intros Hnd [->|Hin] [->|Hin'] Hu Hk; inversion Hnd as [|? ? Hnotin Hnd']; subst.
  - reflexivity.
  - exfalso. apply Hnotin. apply list_elem_of_In, in_map_iff. exists r'.
    split; [congruence|exact Hin'].
  - exfalso. apply Hnotin. apply list_elem_of_In, in_map_iff. exists r.
    split; [congruence|exact Hin].
  - auto.
Qed.

Lemma matches_same t userId k r r' :
  unique_keys t -> In r t -> In r' t ->
  matches userId k r = true -> matches userId k r' = true -> r = r'.
Proof.
  intros Hu Hin Hin' Hm Hm'.
  apply matches_inv in Hm as [Hs Hk]. apply matches_inv in Hm' as [Hs' Hk'].
  unfold VStr in *. eapply unique_keys_same; eauto; congruence.
Qed.

(** Under the contracts of the cipher, what was enciphered under one IV
    does not decipher to the bytes written under another. *)
Lemma decrypt_foreign_iv ivBase64 ivBase64' plain :
  valid_key key -> valid_iv ivBase64 -> valid_iv ivBase64' ->
  base64_decode ivBase64' <> base64_decode ivBase64 ->
  aes256cbc_decrypt key (base64_decode ivBase64')
    (base64_decode (ciphertext key ivBase64 plain)) <> Some (utf8_encode plain).
Proof.
  intros Hk Hiv Hiv' Hne Hd. apply Hne. unfold ciphertext in Hd.
  rewrite base64_roundtrip in Hd. eapply aes_other_iv; eauto.
Qed.

(** What [getPairs] returns is a snapshot of the table. *)
Lemma getPairs_snapshot_of userId (w w' : World Table) pairs :
  Ekvdb.getPairs key userId w = (Ok pairs, w') ->
  snapshot_of userId pairs (rows (db w')).
Proof.
  intros Hrun. destruct (getPairs_table key _ _ _ _ Hrun) as (Hrows & _ & _ & _ & Hred).
  specialize (Hred pairs eq_refl). rewrite Hrows. intros k p Hp.
  destruct (reduce_rows_source key _ _ _ _ Hred Hp) as (r & Hin & Hk & Hpair).
  apply filter_In in Hin as [Hin Hu]. apply pair_of_row_Some in Hpair as (Hiv & _).
  exists r. split_and!; auto. unfold matches. rewrite Hu, Hk, String.eqb_refl. reflexivity.
Qed.

(** An upsert with a snapshot of the table keeps the invariant. *)
Lemma upsert_rows_store_ok userId pairs k value t t' :
  upsert_rows key userId pairs k value t t' ->
  snapshot_of userId pairs t -> store_ok key t -> store_ok key t'.
Proof.
  intros Hup Hsnap [Hu Hsealed].
  destruct Hup as [->|p plain Hp Hk Hiv -> ->|s iv plain -> Hk Hiv -> Hex ->].
  - split; assumption.
  - destruct (Hsnap _ _ Hp) as (r0 & Hin0 & Hm0 & Hiv0). split.
    + unfold unique_keys. rewrite List.map_map.
      erewrite List.map_ext; [exact Hu|].
      intros r. destruct (matches userId k r); reflexivity.
    + apply Forall_forall. intros r' Hin'. apply list_elem_of_In, in_map_iff in Hin'.
      destruct Hin' as (r & <- & Hin).
      destruct (matches userId k r) eqn:Hm.
      * assert (r = r0) as -> by (eapply matches_same; eauto).
        exists plain. cbn. rewrite Hiv0. auto.
      * rewrite Forall_forall in Hsealed. apply Hsealed, list_elem_of_In, Hin.
  - split.
    + unfold unique_keys. rewrite List.map_app. cbn.
      apply NoDup_app. split_and!; [exact Hu| |apply NoDup_singleton].
      intros x Hx Hx'. apply list_elem_of_singleton in Hx'. subst x.
      apply list_elem_of_In, in_map_iff in Hx as (r & Heq & Hin).
      injection Heq as Hs Hkey.
      assert (Hm : existsb (matches (VStr s) k) t = true).
      { apply existsb_exists. exists r. split; [exact Hin|].
        unfold matches. cbn. rewrite Hs, Hkey, !String.eqb_refl. reflexivity. }
      congruence.
    + apply Forall_app. split; [exact Hsealed|].
      apply Forall_singleton. exists plain. auto.
Qed.

(** And every snapshot of the table stays one. *)
Lemma upsert_rows_snapshot_of userId pairs k value t t' u pairs' :
  upsert_rows key userId pairs k value t t' ->
  snapshot_of u pairs' t -> snapshot_of u pairs' t'.
Proof.
  intros Hup Hsnap k' p' Hp'. destruct (Hsnap _ _ Hp') as (r & Hin & Hm & Hiv).
  destruct Hup as [->|p plain _ _ _ _ ->|s iv plain _ _ _ _ _ ->].
  - eauto.
  - exists (if matches userId k r
            then set_VALUE (ciphertext key (ivBase64 p) plain) r else r).
    split_and!.
    + apply in_map_iff. exists r. auto.
    + destruct (matches userId k r); exact Hm.
    + destruct (matches userId k r); exact Hiv.
  - exists r. split_and!; auto. apply in_or_app. auto.
Qed.

(** A [setValue] that returns, called with a snapshot of the table, leaves
    a row of its user and key that deciphers to the value written. *)
Lemma setValue_written userId pairs k value (w w' : World Table) :
  snapshot_of userId pairs (rows (db w)) ->
  Ekvdb.setValue key userId pairs k value w = (Ok tt, w') ->
  exists plain r,
    value = VStr plain /\ In r (rows (db w')) /\ matches userId k r = true /\
    Crypto.decipherValueFromBase64 key (IV r) (VALUE r) = Ok (toWellFormed plain).
Proof.
  intros Hsnap Hrun. destruct (setValue_table key _ _ _ _ _ _ _ Hrun) as (_ & _ & Hok).
  destruct (Hok eq_refl) as
    [(p & plain & Hp & -> & Hk & Hiv & Hlen & ->)
    |(s & iv & plain & -> & -> & Hk & Hiv & Hex & -> & _)].
  - destruct (Hsnap _ _ Hp) as (r0 & Hin0 & Hm0 & Hiv0).
    exists plain, (set_VALUE (ciphertext key (ivBase64 p) plain) r0). split_and!; auto.
    + apply in_map_iff. exists r0. rewrite Hm0. auto.
    + cbn. rewrite Hiv0. apply decipher_ciphertext; assumption.
  - exists plain, {| USER_ID := s; KEY := k; IV := iv; VALUE := ciphertext key iv plain |}.
    split_and!; auto.
    + apply in_or_app. right. left. reflexivity.
    + unfold matches. cbn. rewrite !String.eqb_refl. reflexivity.
    + cbn. apply decipher_ciphertext; assumption.
Qed.

(** Along a history, the table keeps the invariant and the snapshots read
    stay snapshots of the table. *)
Lemma history_invariant w0 w snaps :
  store_ok key (rows (db w0)) -> history key w0 w snaps ->
  store_ok key (rows (db w)) /\
  forall u pairs, In (u, pairs) snaps -> snapshot_of u pairs (rows (db w)).
Proof.
  intros Hstart Hh.
  induction Hh as [|u w snaps out w' Hh [IHok IHsnaps] Hrun
                   |u pairs k value w snaps out w' Hh [IHok IHsnaps] Hin Hrun].
  - split; [exact Hstart|]. intros u pairs [].
  - destruct (getPairs_table key _ _ _ _ Hrun) as (Hrows & _).
    rewrite Hrows. split; [exact IHok|].
    destruct out as [pairs|e]; [|exact IHsnaps].
    intros u' pairs' [[= <- <-]|Hin'].
    + rewrite <- Hrows. eapply getPairs_snapshot_of. exact Hrun.
    + auto.
  - destruct (setValue_table key _ _ _ _ _ _ _ Hrun) as (Hup & _). split.
    + eapply upsert_rows_store_ok; eauto.
    + intros u' pairs' Hin'. eapply upsert_rows_snapshot_of; eauto.
Qed.

(** C7, as amended.  Under a key of the cipher, along every history of
    reads, and of writes with a snapshot that an earlier read of the same
    user returned, from a table that satisfies the invariant (one row per
    user and key, each ciphertext produced under the IV stored in the same
    row): the table satisfies the invariant; every row's ciphertext
    deciphers under the row's own IV to the plaintext it was produced
    from; and a [setValue] that returns leaves a row of its user and key
    that deciphers, under the IV stored in that row, to the value written.
    (What comes back is the text as UTF-8 holds it: U+FFFD stands in the
    place of a surrogate that had no partner.) *)
Theorem store_invariant (w0 w : World Table) snaps :
  valid_key key ->
  store_ok key (rows (db w0)) ->
  history key w0 w snaps ->
  store_ok key (rows (db w)) /\
  (forall r, In r (rows (db w)) ->
     exists plain,
       VALUE r = ciphertext key (IV r) plain /\
       Crypto.decipherValueFromBase64 key (IV r) (VALUE r) = Ok (toWellFormed plain)) /\
  (forall userId pairs k value w',
     In (userId, pairs) snaps ->
     Ekvdb.setValue key userId pairs k value w = (Ok tt, w') ->
     store_ok key (rows (db w')) /\
     exists plain r,
       value = VStr plain /\ In r (rows (db w')) /\ matches userId k r = true /\
       Crypto.decipherValueFromBase64 key (IV r) (VALUE r) = Ok (toWellFormed plain) /\
       (isWellFormed plain = true ->
        Crypto.decipherValueFromBase64 key (IV r) (VALUE r) = Ok plain)).
Proof.
  intros Hk Hstart Hh. destruct (history_invariant _ _ _ Hstart Hh) as [Hok Hsnaps].
  split_and!.
  - exact Hok.
  - intros r Hin. destruct Hok as [_ Hsealed]. rewrite Forall_forall in Hsealed.
    destruct (Hsealed r (proj2 (list_elem_of_In _ _) Hin)) as (plain & Hiv & Hv).
    exists plain. split; [exact Hv|]. rewrite Hv. apply decipher_ciphertext; assumption.
  - intros userId pairs k value w' Hin Hrun. split.
    + destruct (setValue_table key _ _ _ _ _ _ _ Hrun) as (Hup & _).
      eapply upsert_rows_store_ok; eauto.
    + destruct (setValue_written _ _ _ _ _ _ (Hsnaps _ _ Hin) Hrun)
        as (plain & r & Hv & Hr & Hm & Hd).
      exists plain, r. split_and!; auto.
      intros Hwf. apply String.eqb_eq in Hwf. rewrite Hd, Hwf. reflexivity.
Qed.

End invariant.

(** ** The linking handlers keep the invariant of the store *)

Section protocol_invariant.
Context `{Platform} `{!PlatformLaws}.
Variable key : list byte.
Variable c : option Config.

Lemma keeps_same {A} known (m : M Table A) :
  (forall w out w', m w = (out, w') ->
                    rows (db w') = rows (db w) /\ config w' = config w) ->
  keeps_store_ok key c known m.
Proof.
  intros Hm w out w' Hc Hok Hsnaps Hrun. destruct (Hm _ _ _ Hrun) as [Hr Hc'].
  rewrite Hr, Hc'. auto.
Qed.

Lemma keeps_ret {A} known (a : A) : keeps_store_ok key c known (ret a).
Proof. apply keeps_same. intros w out w' [= <- <-]. auto. Qed.

Lemma keeps_throw {A} known e : keeps_store_ok key c known (throw (A := A) e).
Proof. apply keeps_same. intros w out w' [= <- <-]. auto. Qed.

Lemma keeps_lift {A} known (r : Res A) : keeps_store_ok key c known (lift r).
Proof. apply keeps_same. intros w out w' [= <- <-]. auto. Qed.

Lemma keeps_emit known ev : keeps_store_ok key c known (emit ev).
Proof. apply keeps_same. intros w out w' [= <- <-]. auto. Qed.

Lemma keeps_bind {A B} known (m : M Table A) (f : A -> M Table B) :
  keeps_store_ok key c known m -> (forall a, keeps_store_ok key c known (f a)) ->
  keeps_store_ok key c known (bind m f).
Proof.
  intros Hm Hf w out w' Hc Hok Hsnaps Hrun.
  apply bind_inv in Hrun as [(a & w1 & Hm1 & Hf1) | (e & Hm1 & ->)].
  - destruct (Hm _ _ _ Hc Hok Hsnaps Hm1) as (Hc1 & Hok1 & Hsnaps1).
    exact (Hf a _ _ _ Hc1 Hok1 Hsnaps1 Hf1).
  - exact (Hm _ _ _ Hc Hok Hsnaps Hm1).
Qed.

Lemma keeps_bind_lift {A B} known (r : Res A) (f : A -> M Table B) :
  (forall a, r = Ok a -> keeps_store_ok key c known (f a)) ->
  keeps_store_ok key c known (bind (lift r) f).
Proof.
  intros Hf. destruct r as [a|e].
  - intros w out w'. rewrite bind_lift_ok. apply Hf. reflexivity.
  - intros w out w' Hc Hok Hsnaps. rewrite bind_lift_throw. intros [= <- <-]. auto.
Qed.

(** After [the_config] has returned [cfg], [config] is [Some cfg]. *)
Lemma keeps_bind_the_config {B} known (f : Config -> M Table B) :
  (forall cfg, c = Some cfg -> keeps_store_ok key c known (f cfg)) ->
  keeps_store_ok key c known (bind Singleton.the_config f).
Proof.
  intros Hf w out w' Hc Hok Hsnaps. unfold bind, Singleton.the_config.
  rewrite Hc. destruct c as [cfg|].
  - apply Hf; auto.
  - intros [= <- <-]. auto.
Qed.

(** What [getPairs] returns joins the known snapshots. *)
Lemma keeps_bind_getPairs {B} known userId (f : gmap string Pair -> M Table B) :
  (forall pairs, keeps_store_ok key c ((userId, pairs) :: known) (f pairs)) ->
  keeps_store_ok key c known (bind (Ekvdb.getPairs key userId) f).
Proof.
  intros Hf w out w' Hc Hok Hsnaps Hrun.
  apply bind_inv in Hrun as [(pairs & w1 & Hg & Hf1) | (e & Hg & ->)].
  - destruct (getPairs_table key _ _ _ _ Hg) as (Hr & _ & Hc1 & _).
    assert (Hsnaps1 : forall u p, In (u, p) ((userId, pairs) :: known) ->
                                  snapshot_of u p (rows (db w1))).
    { intros u p [[= <- <-]|Hin].
      - eapply getPairs_snapshot_of. exact Hg.
      - rewrite Hr. auto. }
    rewrite <- Hr in Hok. rewrite <- Hc1 in Hc.
    destruct (Hf pairs _ _ _ Hc Hok Hsnaps1 Hf1) as (Hc' & Hok' & Hsnaps').
    split_and!; auto. intros u p Hin. apply Hsnaps'. right. exact Hin.
  - destruct (getPairs_table key _ _ _ _ Hg) as (Hr & _ & Hc1 & _).
    rewrite Hr, Hc1. auto.
Qed.

Lemma keeps_setValue known userId pairs k value :
  In (userId, pairs) known ->
  keeps_store_ok key c known (Ekvdb.setValue key userId pairs k value).
Proof.
  intros Hin w out w' Hc Hok Hsnaps Hrun.
  destruct (setValue_table key _ _ _ _ _ _ _ Hrun) as (Hup & Hc' & _).
  split_and!.
  - congruence.
  - eapply upsert_rows_store_ok; eauto.
  - intros u p Hin'. eapply upsert_rows_snapshot_of; eauto.
Qed.

End protocol_invariant.

Ltac keeps_step :=
  cbv zeta;
  lazymatch goal with
  | |- keeps_store_ok _ _ _ (bind (lift _) _) => apply keeps_bind_lift; intros ? ?
  | |- keeps_store_ok _ _ _ (bind Singleton.the_config _) =>
      apply keeps_bind_the_config; intros ? ?
  | |- keeps_store_ok _ _ _ (bind (Ekvdb.getPairs _ _) _) =>
      apply keeps_bind_getPairs; intros ?
  | |- keeps_store_ok _ _ _ (bind _ _) => apply keeps_bind; [|intros ?]
  | |- keeps_store_ok _ _ _ (ret _) => apply keeps_ret
  | |- keeps_store_ok _ _ _ (throw _) => apply keeps_throw
  | |- keeps_store_ok _ _ _ (lift _) => apply keeps_lift
  | |- keeps_store_ok _ _ _ (emit _) => apply keeps_emit
  | |- keeps_store_ok _ _ _ (Ekvdb.setValue _ _ _ _ _) =>
      apply keeps_setValue; cbn; auto
  | |- keeps_store_ok _ _ _ (Server.httpRequest _ _) => unfold Server.httpRequest
  | |- keeps_store_ok _ _ _ (Server.verify _ _) => unfold Server.verify
  | |- keeps_store_ok _ _ _ (Server.status _) => apply keeps_emit
  | |- keeps_store_ok _ _ _ (Server.sendJson _ _) => unfold Server.sendJson
  | |- keeps_store_ok _ _ _ (Server.sendAuthError _) => unfold Server.sendAuthError
  | |- keeps_store_ok _ _ _ (Middleware.getPublicKey _) => unfold Middleware.getPublicKey
  | |- keeps_store_ok _ _ _ (if ?b then _ else _) => destruct b
  | |- keeps_store_ok _ _ _ (match ?x with _ => _ end) => destruct x
  end.

Section protocol_invariant_claim.
Context `{Platform} `{!PlatformLaws}.

(** A linking request, in either variant and whatever its outcome, keeps
    the invariant of the table: it only ever upserts with the snapshot it
    has read itself. *)
Lemma linking_keeps_store_ok (v : Variant) auth body (w w' : World Table) out key :
  store_key v w = Some key ->
  store_ok key (rows (db w)) ->
  linking_handler v auth body w = (out, w') ->
  store_ok key (rows (db w')).
Proof.
  intros Hkey Hok Hrun.
  assert (Hkeeps : keeps_store_ok key (config w) [] (linking_handler v auth body)).
  { destruct v as [key' envName|]; cbn in Hkey.
    - injection Hkey as ->.
      unfold linking_handler, Middleware.postShibbolethToken, Middleware.parseJwtPayload.
      repeat keeps_step.
    - destruct (config w) as [cfg|] eqn:Hc; [|discriminate]. injection Hkey as <-.
      unfold linking_handler, Singleton.postShibbolethToken.
      repeat first
        [ match goal with
          | Hcfg : Some cfg = Some ?cfg' |- _ => injection Hcfg as <-
          end
        | keeps_step ]. }
  destruct (Hkeeps w out w' eq_refl Hok ltac:(intros ? ? []) Hrun) as (_ & Hok' & _).
  exact Hok'.
Qed.

End protocol_invariant_claim.

(** ** Numbers and their decimal text *)

Section decimal.

Lemma digits_go_uint d : forall acc,
  digits_go 10 (Some acc) (NilEmpty.string_of_uint d) = Some (uint_value acc d).
Proof.
  induction d; intros acc; cbn [NilEmpty.string_of_uint uint_value digits_go];
    [reflexivity|..]; apply IHd.
Qed.

Lemma digits_go_uint_start d :
  d <> Decimal.Nil ->
  digits_go 10 None (NilEmpty.string_of_uint d) = Some (uint_value 0 d).
Proof.
  destruct d; intros Hd; [contradiction|..];
    cbn [NilEmpty.string_of_uint uint_value digits_go]; apply digits_go_uint.
Qed.

Lemma uint_value_acc d : forall acc : positive,
  uint_value (Z.pos acc) d = Z.pos (Pos.of_uint_acc d acc).
Proof.
  induction d; intros acc; cbn [uint_value Pos.of_uint_acc]; [reflexivity|..];
    match goal with
    | |- uint_value ?z _ = Z.pos (Pos.of_uint_acc _ ?p) =>
        replace z with (Z.pos p) by lia
    end; apply IHd.
Qed.

Lemma uint_value_of_uint d : uint_value 0 d = Z.of_N (Pos.of_uint d).
Proof.
  induction d; cbn [uint_value Pos.of_uint]; [reflexivity|exact IHd|..];
    match goal with
    | |- uint_value ?z _ = _ => change z with (Z.pos (Z.to_pos z))
    end; rewrite uint_value_acc; reflexivity.
Qed.

(** The text of a number starts with a digit or a minus sign and never
    with the [0x] of a hexadecimal literal. *)
Lemma parse_magnitude_uint d :
  d <> Decimal.Nil ->
  parse_magnitude (NilEmpty.string_of_uint d) = Some (uint_value 0 d).
Proof.
  intros Hd. rewrite <- (digits_go_uint_start d Hd).
  destruct d as [|d|d|d|d|d|d|d|d|d|d]; try reflexivity.
  destruct d; reflexivity.
Qed.

Lemma white_space_width_plain c s :
  white_space1 c = false -> (code c < 128)%N -> white_space_width (String c s) = 0%nat.
Proof.
  intros Hw Hc. unfold white_space_width. rewrite Hw.
  assert (H2 : forall d, white_space2 c d = false).
  { intros d. unfold white_space2.
    destruct (N.eqb_spec (code c) 194) as [Heq|]; [lia|reflexivity]. }
  assert (H3 : forall d e, white_space3 c d e = false).
  { intros d e. unfold white_space3.
    destruct (N.eqb_spec (code c) 225) as [Heq|]; [lia|].
    destruct (N.eqb_spec (code c) 226) as [Heq|]; [lia|].
    destruct (N.eqb_spec (code c) 227) as [Heq|]; [lia|].
    destruct (N.eqb_spec (code c) 239) as [Heq|]; [lia|reflexivity]. }
  destruct s as [|d [|e s]]; rewrite ?H2, ?H3; reflexivity.
Qed.

(** A text that starts with a character of ASCII that is no white space
    has nothing to trim at its start. *)
Lemma trimStart_plain c s :
  white_space1 c = false -> (code c < 128)%N -> trimStart (String c s) = String c s.
Proof.
  intros Hw Hc. unfold trimStart. cbn [strip].
  rewrite (white_space_width_plain c s Hw Hc). reflexivity.
Qed.

Lemma parseInt_string_uint d :
  d <> Decimal.Nil ->
  parseInt_string (NilEmpty.string_of_uint d) = to_double (uint_value 0 d) /\
  parseInt_string (String "-" (NilEmpty.string_of_uint d)) = to_double (- uint_value 0 d).
Proof.
  intros Hd. pose proof (parse_magnitude_uint d Hd) as Hm.
  unfold parseInt_string.
  split.
  - destruct d; try contradiction; cbn [NilEmpty.string_of_uint] in *;
      rewrite trimStart_plain by reflexivity;
      cbv zeta; cbv iota; cbv beta; rewrite Hm; reflexivity.
  - rewrite trimStart_plain by reflexivity. cbv zeta. cbv iota. rewrite Hm. reflexivity.
Qed.

(** [parseInt] reads the decimal digits of an integer as the double
    nearest to it. *)
Lemma parseInt_string_decimal (n : Z) : parseInt_string (decimal n) = to_double n.
Proof.
  unfold decimal. destruct n as [|p|p]; cbn [Z.to_int NilZero.string_of_int].
  - reflexivity.
  - pose proof (Unsigned.to_uint_nonnil p) as Hd.
    unfold NilZero.string_of_uint.
    destruct (Pos.to_uint p) eqn:Hp; [contradiction|..];
      rewrite <- Hp in *;
      rewrite (proj1 (parseInt_string_uint _ Hd)), uint_value_of_uint, Unsigned.of_to;
      reflexivity.
  - pose proof (Unsigned.to_uint_nonnil p) as Hd.
    unfold NilZero.string_of_uint.
    destruct (Pos.to_uint p) eqn:Hp; [contradiction|..];
      rewrite <- Hp in *;
      rewrite (proj2 (parseInt_string_uint _ Hd)), uint_value_of_uint, Unsigned.of_to;
      reflexivity.
Qed.

(** An integer below 2^53 in size is a double, and its text is its
    decimal digits. *)
Lemma round53_safe (n : Z) : Z.abs n < 2 ^ 53 -> round53 n = n.
Proof.
  intros Hn. unfold round53. cbv zeta.
  destruct (Z.leb_spec (Z.log2 (Z.abs n) + 1) 53) as [|Hbig]; [reflexivity|].
  exfalso. destruct (Z.eq_dec (Z.abs n) 0) as [Hz|Hnz].
  - rewrite Hz in Hbig. cbn in Hbig. lia.
  - assert (Z.log2 (Z.abs n) < 53) by (apply Z.log2_lt_pow2; lia). lia.
Qed.

Lemma to_double_safe (n : Z) : Z.abs n < 2 ^ 53 -> to_double n = NNum n.
Proof.
  intros Hn. unfold to_double. cbv zeta. rewrite (round53_safe n Hn).
  destruct (Z.ltb_spec (Z.log2 (Z.abs n)) 1024) as [|Hbig]; [reflexivity|].
  exfalso. destruct (Z.eq_dec (Z.abs n) 0) as [Hz|Hnz].
  - rewrite Hz in Hbig. cbn in Hbig. lia.
  - assert (Z.log2 (Z.abs n) < 53) by (apply Z.log2_lt_pow2; lia). lia.
Qed.

Lemma number_toString_safe (n : Z) : Z.abs n < 2 ^ 53 -> number_toString n = decimal n.
Proof.
  intros Hn. unfold number_toString, positive_toString.
  destruct (Z.ltb_spec n 0) as [Hneg|Hpos].
  - destruct (Z.ltb_spec (- n) (2 ^ 53)) as [_|Hbig]; [|lia].
    destruct n as [|p|p]; try lia. reflexivity.
  - destruct (Z.ltb_spec n (2 ^ 53)) as [_|Hbig]; [reflexivity|lia].
Qed.

Lemma parseInt_number_toString_safe (n : Z) :
  Z.abs n < 2 ^ 53 -> parseInt (Some (number_toString n)) = NNum n.
Proof.
  intros Hn. unfold parseInt, default, id. cbn [from_option].
  rewrite number_toString_safe, parseInt_string_decimal by exact Hn.
  apply to_double_safe. exact Hn.
Qed.

(** Decimal digits are well formed. *)
Lemma toWellFormed_cons c s :
  code c <> 237%N -> toWellFormed (String c s) = String c (toWellFormed s).
Proof.
  intros Hc. destruct s as [|d [|e s3]]; [reflexivity..|].
  change (toWellFormed (String c (String d (String e s3))))
    with (if surrogate c d
          then String "239" (String "191" (String "189" (toWellFormed s3)))
          else String c (toWellFormed (String d (String e s3)))).
  unfold surrogate. destruct (N.eqb_spec (code c) 237); [contradiction|reflexivity].
Qed.

Lemma toWellFormed_uint d :
  toWellFormed (NilEmpty.string_of_uint d) = NilEmpty.string_of_uint d.
Proof.
  induction d; cbn [NilEmpty.string_of_uint]; [reflexivity|..];
    rewrite toWellFormed_cons by discriminate; rewrite IHd; reflexivity.
Qed.

Lemma toWellFormed_decimal (n : Z) : toWellFormed (decimal n) = decimal n.
Proof.
  unfold decimal. destruct (Z.to_int n) as [d|d]; cbn [NilZero.string_of_int].
  - unfold NilZero.string_of_uint. destruct d; try reflexivity; apply toWellFormed_uint.
  - rewrite toWellFormed_cons by discriminate. f_equal.
    unfold NilZero.string_of_uint. destruct d; try reflexivity; apply toWellFormed_uint.
Qed.

End decimal.

Section expiry.
Context `{Platform}.

(** X4.  Within the integers a double holds exactly (below 2^53 in
    size), a number written out by [toString] reads back through
    [parseInt] as the same number: so the expiry the linking handlers
    store as text is the number they later report, and that number times
    1000 is the time value handed to [new Date].  Beyond that range it is
    not so: 2^53 + 1 is no double, and 10^21 is written [1e+21], which
    [parseInt] reads as 1. *)
Theorem parseInt_number_toString (n : Z) :
  Z.abs n < 2 ^ 53 ->
  parseInt (Some (number_toString n)) = NNum n /\
  (Z.abs (n + 2592000) < 2 ^ 53 ->
   exists exp,
     plus_number (VJson (JNum n)) Server.thirtyDaysInSeconds = Ok exp /\
     jsprim_toString exp = decimal (n + 2592000) /\
     parseInt (Some (jsprim_toString exp)) = NNum (n + 2592000)) /\
  (Z.abs (n * 1000) < 2 ^ 53 ->
   unixToJsTime (parseInt (Some (number_toString n))) = NNum (n * 1000)) /\
  (to_double (2 ^ 53 + 1) = NNum (2 ^ 53) /\
   number_toString (10 ^ 21) = "1e+21"%string /\
   parseInt (Some (number_toString (10 ^ 21))) = NNum 1).
Proof.
  intros Hn. split_and!; [| | |vm_compute; reflexivity..].
  - apply parseInt_number_toString_safe. exact Hn.
  - intros Hsum. eexists. split; [reflexivity|].
    rewrite (to_double_safe n Hn).
    change Server.thirtyDaysInSeconds with 2592000.
    rewrite (to_double_safe _ Hsum). cbn [jsprim_toString jsnum_toString].
    split; [apply number_toString_safe; exact Hsum|].
    apply parseInt_number_toString_safe. exact Hsum.
  - intros Hms. rewrite (parseInt_number_toString_safe n Hn). cbn [unixToJsTime].
    apply to_double_safe. exact Hms.
Qed.

End expiry.

(** ** The launcher's helpers *)

Section strings.

Lemma append_cons (c : ascii) (s t : string) :
  String.append (String c s) t = String c (String.append s t).
Proof. reflexivity. Qed.

Lemma append_nil_r (s : string) : String.append s EmptyString = s.
Proof.
  induction s as [|c s IH]; [reflexivity|]. rewrite append_cons, IH. reflexivity.
Qed.

Lemma append_assoc (s t u : string) :
  String.append (String.append s t) u = String.append s (String.append t u).
Proof.
  induction s as [|c s IH]; [reflexivity|]. rewrite !append_cons, IH. reflexivity.
Qed.

Lemma rev_app_append (s acc : string) :
  String.rev_app s acc = String.append (String.rev s) acc.
Proof.
  unfold String.rev. revert acc.
  induction s as [|c s IH]; intros acc; [reflexivity|].
  cbn [String.rev_app].
  rewrite (IH (String c acc)), (IH (String c EmptyString)), append_assoc. reflexivity.
Qed.

Lemma rev_cons (c : ascii) (s : string) :
  String.rev (String c s) = String.append (String.rev s) (String c EmptyString).
Proof. unfold String.rev at 1. cbn [String.rev_app]. apply rev_app_append. Qed.

Lemma occurrences_append c (s t : string) :
  occurrences c (String.append s t) = (occurrences c s + occurrences c t)%nat.
Proof.
  induction s as [|c' s IH]; [reflexivity|].
  rewrite append_cons. cbn [occurrences]. rewrite IH. lia.
Qed.

Lemma split_on_go_nonempty sep cur s : split_on_go sep cur s <> [].
Proof.
  revert cur. induction s as [|c s IH]; intros cur; cbn; [discriminate|].
  destruct (Ascii.eqb c sep); [discriminate|apply IH].
Qed.

(** Joining the pieces with the separator gives the text back. *)
Lemma split_on_go_concat sep s : forall cur,
  String.concat (String sep EmptyString) (split_on_go sep cur s) =
  String.append (String.rev cur) s.
Proof.
  induction s as [|c s IH]; intros cur; cbn [split_on_go].
  - cbn. rewrite append_nil_r. reflexivity.
  - destruct (Ascii.eqb_spec c sep) as [->|Hne].
    + cbn [String.concat].
      destruct (split_on_go sep EmptyString s) as [|piece pieces] eqn:Hs;
        [apply split_on_go_nonempty in Hs; contradiction|].
      rewrite <- Hs, IH. reflexivity.
    + rewrite IH, rev_cons, append_assoc. reflexivity.
Qed.

Lemma split_on_go_pieces sep s : forall cur,
  occurrences sep (String.rev cur) = 0%nat ->
  Forall (fun piece => occurrences sep piece = 0%nat) (split_on_go sep cur s).
Proof.
  induction s as [|c s IH]; intros cur Hcur; cbn [split_on_go].
  - constructor; [exact Hcur|constructor].
  - destruct (Ascii.eqb_spec c sep) as [->|Hne].
    + constructor; [exact Hcur|]. apply IH. reflexivity.
    + apply IH. rewrite rev_cons, occurrences_append, Hcur. cbn.
      destruct (Ascii.eqb_spec c sep); [contradiction|reflexivity].
Qed.

Lemma split_on_go_length sep s : forall cur,
  length (split_on_go sep cur s) = Datatypes.S (occurrences sep s).
Proof.
  induction s as [|c s IH]; intros cur; cbn [split_on_go occurrences]; [reflexivity|].
  destruct (Ascii.eqb c sep); cbn [length]; rewrite IH; reflexivity.
Qed.

End strings.

(** X2.  The lines [bufferListToLines] returns, joined with newlines, are
    the text of the buffers one after the other; no line holds a newline;
    and there is one line more than there are newlines in that text, so
    an empty list of buffers, or empty buffers, give the one empty line. *)
Theorem bufferListToLines_join `{Platform} (buffers : list (list byte)) :
  let text := String.concat EmptyString (List.map utf8_decode buffers) in
  String.concat (String "010" EmptyString) (Index.bufferListToLines buffers) = text /\
  Forall (fun line => occurrences "010" line = 0%nat) (Index.bufferListToLines buffers) /\
  length (Index.bufferListToLines buffers) = Datatypes.S (occurrences "010" text).
Proof.
  cbv zeta. unfold Index.bufferListToLines, split_on. split_and!.
  - apply split_on_go_concat.
  - apply split_on_go_pieces. reflexivity.
  - apply split_on_go_length.
Qed.

Section omit_facts.
Context {V : Type}.

Lemma fold_left_delete_lookup (names : list string) : forall (object : gmap string V) k,
  fold_left (fun o n => delete n o) names object !! k =
  if bool_decide (k ∈ names) then None else object !! k.
Proof.
  induction names as [|n names IH]; intros object k; cbn [fold_left].
  - rewrite bool_decide_eq_false_2 by (apply not_elem_of_nil). reflexivity.
  - rewrite IH. destruct (decide (k ∈ names)) as [Hin|Hnotin].
    + rewrite !bool_decide_eq_true_2; [reflexivity|right; exact Hin|exact Hin].
    + rewrite (bool_decide_eq_false_2 _ Hnotin).
      destruct (decide (n = k)) as [->|Hne].
      * rewrite bool_decide_eq_true_2 by left. apply lookup_delete_eq.
      * rewrite bool_decide_eq_false_2
          by (intros [?|?]%elem_of_cons; [congruence|contradiction]).
        apply lookup_delete_ne. exact Hne.
Qed.

Lemma index_names_In {A} (keys : list A) k :
  In k (Index.index_names keys) <->
  exists i, (i < length keys)%nat /\ k = decimal (Z.of_nat i).
Proof.
  unfold Index.index_names. rewrite in_map_iff. split.
  - intros (i & <- & Hin). apply in_seq in Hin. exists i. split; [lia|reflexivity].
  - intros (i & Hlt & ->). exists i. split; [reflexivity|]. apply in_seq. lia.
Qed.

(** X1.  [omit(object, keys)] removes the properties named after the
    indices of [keys] (["0"], ["1"], ...), whatever the elements of [keys]
    are, and keeps every other property: in particular every property
    whose name is not a number.  So [spawnp] hands the launcher's own six
    options on to [cp.spawn] with all the others. *)
Theorem omit_removes_index_names (object : gmap string V) (keys : list string) :
  (forall i : nat, (i < length keys)%nat ->
     Index.omit object keys !! decimal (Z.of_nat i) = None) /\
  (forall k, (forall i : nat, (i < length keys)%nat -> k <> decimal (Z.of_nat i)) ->
     Index.omit object keys !! k = object !! k) /\
  (forall k, parseInt (Some k) = NNaN -> Index.omit object keys !! k = object !! k) /\
  (forall k,
     In k ["stdout"; "stderr"; "pipeStdoutTo"; "pipeStderrTo"; "ignoreNonZero";
           "stderrOnError"]%string ->
     Index.spawnOpts object !! k = object !! k).
Proof.
  assert (Hkeep : forall (keys' : list string) k,
            (forall i : nat, (i < length keys')%nat -> k <> decimal (Z.of_nat i)) ->
            Index.omit object keys' !! k = object !! k).
  { intros keys' k Hk. unfold Index.omit. rewrite fold_left_delete_lookup.
    rewrite bool_decide_eq_false_2; [reflexivity|].
    intros Hin. apply list_elem_of_In, index_names_In in Hin as (i & Hlt & ->).
    exact (Hk i Hlt eq_refl). }
  assert (Hnan : forall (keys' : list string) k,
            parseInt (Some k) = NNaN -> Index.omit object keys' !! k = object !! k).
  { intros keys' k Hk. apply Hkeep. intros i _ ->.
    unfold parseInt, default, id in Hk. cbn [from_option] in Hk.
    rewrite parseInt_string_decimal in Hk. unfold to_double in Hk.
    destruct (_ <? _) in Hk; discriminate. }
  split_and!.
  - intros i Hlt. unfold Index.omit. rewrite fold_left_delete_lookup.
    rewrite bool_decide_eq_true_2; [reflexivity|].
    apply list_elem_of_In, index_names_In. eauto.
  - apply Hkeep.
  - apply Hnan.
  - intros k Hin. unfold Index.spawnOpts. apply Hnan.
    cbn in Hin. repeat destruct Hin as [<-|Hin]; try reflexivity. contradiction.
Qed.

End omit_facts.

(** ** The store: reading, reading back, failing *)

Section store_facts.
Context `{Platform} `{!PlatformLaws}.
Variable key : list byte.

Lemma reduce_rows_all results : forall init m,
  Ekvdb.reduce_rows key init results = Ok m ->
  Forall (fun r => is_Some (pair_of_row key r)) results.
Proof.
  induction results as [|v rest IH]; intros init m Hred; [constructor|].
  cbn in Hred.
  destruct (Crypto.decipherValueFromBase64 key (IV v) (VALUE v)) as [plain|e] eqn:Hd;
    [|discriminate].
  constructor; [|eapply IH; exact Hred].
  unfold pair_of_row. rewrite Hd. eauto.
Qed.

Lemma reduce_rows_throw results : forall init e,
  Ekvdb.reduce_rows key init results = Throw e ->
  exists r, In r results /\ Crypto.decipherValueFromBase64 key (IV r) (VALUE r) = Throw e.
Proof.
  induction results as [|v rest IH]; intros init e Hred; [discriminate|].
  cbn in Hred.
  destruct (Crypto.decipherValueFromBase64 key (IV v) (VALUE v)) as [plain|e'] eqn:Hd.
  - destruct (IH _ _ Hred) as (r & Hin & Hr). exists r. split; [right; exact Hin|exact Hr].
  - injection Hred as ->. exists v. split; [left; reflexivity|exact Hd].
Qed.

Lemma reduce_rows_total results : forall init,
  Forall (fun r => is_Some (pair_of_row key r)) results ->
  exists m, Ekvdb.reduce_rows key init results = Ok m.
Proof.
  induction results as [|v rest IH]; intros init Hall; [eexists; reflexivity|].
  inversion Hall as [|? ? [p Hp] Hrest]; subst. cbn.
  unfold pair_of_row in Hp.
  destruct (Crypto.decipherValueFromBase64 key (IV v) (VALUE v)); [|discriminate].
  apply IH. exact Hrest.
Qed.

Lemma reduce_rows_lookup_last results m k :
  Ekvdb.reduce_rows key ∅ results = Ok m ->
  m !! k = last (rows_of_key k results) ≫= pair_of_row key.
Proof.
  intros Hred. rewrite (reduce_rows_lookup key _ _ _ k Hred).
  destruct (last (rows_of_key k results)); [reflexivity|apply lookup_empty].
Qed.

(** [decipherKvPairs] and the reducer of [getPairs] go through the rows
    in step. *)
Lemma decipher_rows_reduce_rows results : forall (m : gmap string Pair),
  EkvdbInternals.decipher_rows key
    {| EkvdbInternals.ivs := ivBase64 <$> m; EkvdbInternals.values := value <$> m |} results =
  match Ekvdb.reduce_rows key m results with
  | Ok pairs =>
      Ok {| EkvdbInternals.ivs := ivBase64 <$> pairs;
            EkvdbInternals.values := value <$> pairs |}
  | Throw e => Throw e
  end.
Proof.
  induction results as [|v rest IH]; intros m; cbn; [reflexivity|].
  destruct (Crypto.decipherValueFromBase64 key (IV v) (VALUE v)) as [plain|e]; [|reflexivity].
  rewrite <- IH, !fmap_insert. reflexivity.
Qed.

(** What [getPairs] does on the reference engine. *)
Lemma getPairs_table_eq userId (w : World Table) :
  Ekvdb.getPairs key userId w =
  (match fst (next_fault (db w)) with
   | Some err => Throw (DriverError err)
   | None =>
       Ekvdb.reduce_rows key ∅
         (List.filter (fun r => sql_eq userId (USER_ID r)) (rows (db w)))
   end,
   {| db := {| rows := rows (db w); faults := snd (next_fault (db w)) |};
      rng := rng w;
      trace := trace w ++ [EvQuery (SelectByUser userId)];
      config := config w |}).
Proof.
  unfold Ekvdb.getPairs, bind, Ekvdb.query. cbn. unfold select.
  destruct (next_fault (db w)) as [[err|] rest]; reflexivity.
Qed.

Lemma existsb_false_filter (q : Row -> bool) t :
  existsb q t = false -> List.filter q t = [].
Proof.
  induction t as [|r t IH]; [reflexivity|]. cbn.
  destruct (q r); [discriminate|]. exact IH.
Qed.

Lemma filter_map_set_VALUE (q : Row -> bool) c t :
  (forall r c, q (set_VALUE c r) = q r) ->
  List.filter q (List.map (fun r => if q r then set_VALUE c r else r) t) =
  List.map (set_VALUE c) (List.filter q t).
Proof.
  intros Hq. induction t as [|r t IH]; [reflexivity|]. cbn [List.map List.filter].
  destruct (q r) eqn:Hr.
  - rewrite Hq, Hr. cbn [List.map]. rewrite IH. reflexivity.
  - rewrite Hr. exact IH.
Qed.

(** After a [setValue] that returned, the table has exactly one row of
    that user and key; it carries the ciphertext of the value under its
    own IV, which is the IV the snapshot had for the key; and the rows of
    the user's other keys are as before. *)
Lemma setValue_written_row userId pairs k value (w w1 : World Table) :
  snapshot_of userId pairs (rows (db w)) ->
  Ekvdb.setValue key userId pairs k value w = (Ok tt, w1) ->
  exists plain iv r',
    value = VStr plain /\ valid_key key /\ valid_iv iv /\
    List.filter (matches userId k) (rows (db w1)) = [r'] /\
    IV r' = iv /\ VALUE r' = ciphertext key iv plain /\
    (forall p, pairs !! k = Some p -> iv = ivBase64 p) /\
    (forall k', k' <> k ->
       List.filter (matches userId k') (rows (db w1)) =
       List.filter (matches userId k') (rows (db w))).
Proof.
  intros Hsnap Hrun.
  destruct (setValue_table key _ _ _ _ _ _ _ Hrun) as (Hup & _ & Hok).
  assert (Hothers : forall k', k' <> k ->
            List.filter (matches userId k') (rows (db w1)) =
            List.filter (matches userId k') (rows (db w))).
  { intros k' Hne. eapply upsert_rows_filter; [exact Hup| |reflexivity].
    intros r. apply matches_other_key. exact Hne. }
  destruct (Hok eq_refl) as
    [(p & plain & Hp & -> & Hk & Hiv & Hlen & Hrows)
    |(s & iv & plain & -> & -> & Hk & Hiv & Hex & Hrows & _)].
  - apply length_one in Hlen as [r Hfilter].
    exists plain, (ivBase64 p), (set_VALUE (ciphertext key (ivBase64 p) plain) r).
    destruct (Hsnap _ _ Hp) as (r0 & Hin0 & Hm0 & Hiv0).
    assert (r0 = r) as -> by (eapply filter_singleton_In; eauto).
    split_and!; auto.
    + rewrite Hrows, filter_map_set_VALUE by reflexivity. rewrite Hfilter. reflexivity.
    + intros p' Hp'. congruence.
  - exists plain, iv,
      {| USER_ID := s; KEY := k; IV := iv; VALUE := ciphertext key iv plain |}.
    split_and!; auto.
    + rewrite Hrows, List.filter_app, (existsb_false_filter _ _ Hex). cbn.
      unfold matches. cbn. rewrite !String.eqb_refl. reflexivity.
    + intros p Hp. destruct (Hsnap _ _ Hp) as (r0 & Hin0 & Hm0 & _).
      assert (Htrue : existsb (matches (VStr s) k) (rows (db w)) = true)
        by (apply existsb_exists; eauto).
      congruence.
Qed.

(** The entry a read returns for a key is that of the last row of that
    user and key. *)
Lemma getPairs_lookup userId (w w' : World Table) pairs k :
  Ekvdb.getPairs key userId w = (Ok pairs, w') ->
  pairs !! k = last (List.filter (matches userId k) (rows (db w))) ≫= pair_of_row key.
Proof.
  intros Hrun. destruct (getPairs_table key _ _ _ _ Hrun) as (_ & _ & _ & _ & Hred).
  rewrite (reduce_rows_lookup_last _ _ k (Hred _ eq_refl)), rows_of_key_user. reflexivity.
Qed.

(** What the encryption throws is an error of the cipher. *)
Lemma encrypt_throw_kind ivBase64 value e :
  res_bind (Crypto.createCipher key (Some ivBase64))
    (fun cipher => Crypto.cipher_update_final cipher value) = Throw e ->
  (exists what, e = TypeError what) \/ (exists what, e = CryptoError what).
Proof.
  unfold Crypto.createCipher, Crypto.Buffer_from_base64, Crypto.createCipheriv. cbn.
  destruct (negb (length key =? 32)%nat); cbn; [intros [= <-]; eauto|].
  destruct (negb (length (base64_decode ivBase64) =? 16)%nat); cbn; [intros [= <-]; eauto|].
  unfold Crypto.cipher_update_final.
  destruct value as [| |[| | | |s| |]]; intros [= <-]; eauto.
Qed.

(** After the update, each row the statement found carries the new
    ciphertext. *)
Lemma updated_rows_count userId k c t :
  length (List.filter (fun r => matches userId k r && String.eqb (VALUE r) c)
            (List.map (fun r => if matches userId k r then set_VALUE c r else r) t)) =
  length (List.filter (matches userId k) t).
Proof.
  induction t as [|r t IH]; [reflexivity|]. cbn [List.map List.filter].
  destruct (matches userId k r) eqn:Hm; cbn [List.filter].
  - change (matches userId k (set_VALUE c r)) with (matches userId k r). rewrite Hm.
    cbn [VALUE set_VALUE andb]. rewrite String.eqb_refl. cbn [length]. rewrite IH.
    reflexivity.
  - rewrite Hm. cbn [andb]. exact IH.
Qed.

End store_facts.

Section store_extras.
Context `{Platform} `{!PlatformLaws}.
Variable key : list byte.

(** X5.  [decipherKvPairs] agrees with [getPairs]' reducer and
    [toPlain]: it throws on exactly the rows on which the reducer throws,
    with the same error, and otherwise its [values] are [toPlain] of the
    pairs and its [ivs] their IVs. *)
Theorem decipherKvPairs_getPairs (queryResult : list Row) :
  EkvdbInternals.decipherKvPairs key queryResult =
  match Ekvdb.reduce_rows key ∅ queryResult with
  | Ok pairs =>
      Ok {| EkvdbInternals.ivs := ivBase64 <$> pairs;
            EkvdbInternals.values := Ekvdb.toPlain pairs |}
  | Throw e => Throw e
  end.
Proof.
  unfold EkvdbInternals.decipherKvPairs, Ekvdb.toPlain.
  rewrite <- decipher_rows_reduce_rows, !fmap_empty. reflexivity.
Qed.

(** X6.  A read is all or nothing.  On the reference engine [getPairs]
    throws the driver's error if the driver reports one; otherwise it
    returns exactly when every row of that user deciphers (the rows of
    other users do not matter), and then the entry of each key is that of
    the user's last row of that key; if a row of the user does not
    decipher it throws the error of such a row and returns no entry at
    all.  The rows are left as they are in every case. *)
Theorem getPairs_all_or_nothing (userId : jsval) (w : World Table) :
  let mine := List.filter (fun r => sql_eq userId (USER_ID r)) (rows (db w)) in
  match fst (next_fault (db w)), fst (Ekvdb.getPairs key userId w) with
  | Some err, out => out = Throw (DriverError err)
  | None, Ok pairs =>
      Forall (fun r => is_Some (pair_of_row key r)) mine /\
      forall k, pairs !! k = last (rows_of_key k mine) ≫= pair_of_row key
  | None, Throw e =>
      exists r, In r mine /\
                Crypto.decipherValueFromBase64 key (IV r) (VALUE r) = Throw e /\
                pair_of_row key r = None
  end /\
  (Forall (fun r => is_Some (pair_of_row key r)) mine ->
   fst (next_fault (db w)) = None ->
   exists pairs, fst (Ekvdb.getPairs key userId w) = Ok pairs) /\
  rows (db (snd (Ekvdb.getPairs key userId w))) = rows (db w).
Proof.
  cbv zeta. rewrite getPairs_table_eq. cbn [fst snd db rows]. split_and!.
  - destruct (fst (next_fault (db w))) as [err|]; [reflexivity|].
    destruct (Ekvdb.reduce_rows key ∅ _) as [pairs|e] eqn:Hred.
    + split; [eapply reduce_rows_all; exact Hred|].
      intros k. apply reduce_rows_lookup_last. exact Hred.
    + apply reduce_rows_throw in Hred as (r & Hin & Hr). exists r. split_and!; auto.
      unfold pair_of_row. rewrite Hr. reflexivity.
  - intros Hall ->. apply reduce_rows_total. exact Hall.
  - reflexivity.
Qed.

(** X7.  Read your writes.  After a [setValue] with a snapshot of the
    table that returned, a read of the same user that returns has, under
    the key written, the string written as UTF-8 holds it (the string
    itself if it is well formed; U+FFFD stands in the place of a surrogate
    that had no partner), as ciphertext under the IV the snapshot had for
    the key if it had the key (the update keeps the IV); under every other
    key it has what a read before the write had. *)
Theorem setValue_read_back (userId : jsval) (pairs pairs' : gmap string Pair)
    (k : string) (value : jsval) (w w1 w2 : World Table) :
  snapshot_of userId pairs (rows (db w)) ->
  Ekvdb.setValue key userId pairs k value w = (Ok tt, w1) ->
  Ekvdb.getPairs key userId w1 = (Ok pairs', w2) ->
  (exists plain iv,
     value = VStr plain /\
     pairs' !! k =
       Some {| ivBase64 := iv; cipheredValueBase64 := ciphertext key iv plain;
               value := toWellFormed plain |} /\
     (isWellFormed plain = true -> Ekvdb.toPlain pairs' !! k = Some plain) /\
     (forall p, pairs !! k = Some p -> iv = ivBase64 p)) /\
  (forall k' pairs0 w0,
     k' <> k -> Ekvdb.getPairs key userId w = (Ok pairs0, w0) ->
     pairs' !! k' = pairs0 !! k').
Proof.
  intros Hsnap Hset Hget.
  destruct (setValue_written_row key _ _ _ _ _ _ Hsnap Hset)
    as (plain & iv & r' & -> & Hk & Hiv & Hfilter & Hivr & Hval & Hkeep & Hothers).
  split.
  - assert (Hlook : pairs' !! k =
              Some {| ivBase64 := iv; cipheredValueBase64 := ciphertext key iv plain;
                      value := toWellFormed plain |}).
    { rewrite (getPairs_lookup key _ _ _ _ k Hget), Hfilter. cbn.
      unfold pair_of_row. rewrite Hval, Hivr.
      rewrite decipher_ciphertext by assumption. reflexivity. }
    exists plain, iv. split_and!; auto.
    intros Hwf. apply String.eqb_eq in Hwf. unfold Ekvdb.toPlain.
    rewrite lookup_fmap, Hlook. cbn. rewrite Hwf. reflexivity.
  - intros k' pairs0 w0 Hne Hget0.
    rewrite (getPairs_lookup key _ _ _ _ k' Hget), (getPairs_lookup key _ _ _ _ k' Hget0).
    rewrite Hothers by exact Hne. reflexivity.
Qed.

(** X9.  No rollback.  On the reference engine the write-conflict error
    comes from the update branch only, when the statement found [n <> 1]
    rows of that user and key; by then the statement has run: all [n] rows
    carry the new ciphertext ([n = 0]: the table is as before), and
    [setValue] throws without undoing it. *)
Theorem setValue_conflict_no_rollback (userId userId' : jsval)
    (pairs : gmap string Pair) (k k' : string) (value : jsval) (op : StoreOp) (n : nat)
    (w w' : World Table) :
  Ekvdb.setValue key userId pairs k value w =
    (Throw (WriteConflict op userId' k' n), w') ->
  op = Updating /\ userId' = userId /\ k' = k /\ n <> 1%nat /\
  n = length (List.filter (matches userId k) (rows (db w))) /\
  exists p plain,
    pairs !! k = Some p /\ value = VStr plain /\
    rows (db w') =
      List.map (fun r => if matches userId k r
                         then set_VALUE (ciphertext key (ivBase64 p) plain) r else r)
        (rows (db w)) /\
    length (List.filter
              (fun r => matches userId k r &&
                        String.eqb (VALUE r) (ciphertext key (ivBase64 p) plain))
              (rows (db w'))) = n.
Proof.
  unfold Ekvdb.setValue.
  destruct (truthy_opt (ivBase64 <$> pairs !! k)) eqn:Ht.
  - destruct (pairs !! k) as [p|] eqn:Hp; [|discriminate]. cbn in Ht |- *.
    rewrite bind_ret. unfold bind at 1.
    rewrite (cipherValueToBase64_truthy key) by exact Ht.
    destruct (res_bind _ _) as [c|e] eqn:Henc.
    2:{ intros [= -> _]. apply (encrypt_throw_kind key) in Henc as [[? [=]]|[? [=]]]. }
    apply encrypt_ok_inv in Henc as (Hk & Hiv & plain & -> & ->).
    unfold bind, Ekvdb.query. cbn. unfold update.
    destruct (next_fault (db w)) as [[err|] rest]; cbn; [discriminate|].
    destruct (Nat.eqb_spec (length (List.filter (matches userId k) (rows (db w)))) 1)
      as [Hone|Hmany]; cbn; [discriminate|].
    intros [= <- <- <- <- <-]. cbn. split_and!; auto.
    exists p, plain. split_and!; auto.
    apply updated_rows_count.
  - unfold bind at 1. rewrite generateIvBase64_eq.
    assert (Hiv : valid_iv (base64_encode (List.map (random_byte (rng w)) (seq 0 16)))).
    { eapply generateIvBase64_valid. apply generateIvBase64_eq. }
    unfold bind at 1.
    rewrite (cipherValueToBase64_truthy key) by (apply valid_iv_truthy; exact Hiv).
    destruct (res_bind _ _) as [c|e] eqn:Henc.
    2:{ intros [= -> _]. apply (encrypt_throw_kind key) in Henc as [[? [=]]|[? [=]]]. }
    unfold bind, Ekvdb.query. cbn. unfold insert.
    destruct (next_fault (db w)) as [[err|] rest]; cbn; [discriminate|].
    destruct userId as [| |[| | | |s| |]]; cbn; try discriminate.
    destruct (existsb _ _); cbn; discriminate.
Qed.

End store_extras.

Section store_generic.
Context `{Platform} `{!PlatformLaws} {S : Type} `{!SqlEngine S}.
Variable key : list byte.

Lemma cipher_update_final_non_string cipher value :
  (forall plain, value <> VStr plain) ->
  Crypto.cipher_update_final cipher value =
  Throw (TypeError "The data argument must be of type string").
Proof.
  intros Hv. destruct value as [| |[| | | |s| |]]; try reflexivity.
  exfalso. exact (Hv s eq_refl).
Qed.

Lemma encrypt_non_string ivBase64 value :
  (forall plain, value <> VStr plain) ->
  exists e,
    res_bind (Crypto.createCipher key (Some ivBase64))
      (fun cipher => Crypto.cipher_update_final cipher value) = Throw e.
Proof.
  intros Hv. destruct (Crypto.createCipher key (Some ivBase64)) as [cipher|e]; cbn.
  - rewrite cipher_update_final_non_string by exact Hv. eauto.
  - eauto.
Qed.

(** A value that is not a string is rejected before any statement. *)
Lemma setValue_non_string (userId : jsval) (pairs : gmap string Pair)
    (k : string) (value : jsval) (w : World S) :
  (forall plain, value <> VStr plain) ->
  exists e w',
    Ekvdb.setValue key userId pairs k value w = (Throw e, w') /\
    db w' = db w /\ trace w' = trace w /\ config w' = config w /\
    (valid_key key -> valid_snapshot pairs ->
     e = TypeError "The data argument must be of type string").
Proof.
  intros Hv. unfold Ekvdb.setValue.
  destruct (truthy_opt (ivBase64 <$> pairs !! k)) eqn:Ht.
  - destruct (pairs !! k) as [p|] eqn:Hp; [|discriminate]. cbn in Ht |- *.
    rewrite bind_ret. unfold bind at 1.
    rewrite (cipherValueToBase64_truthy key) by exact Ht.
    destruct (encrypt_non_string (ivBase64 p) value Hv) as [e He]. rewrite He.
    exists e, w. split_and!; auto. intros Hk Hsnap.
    unfold Crypto.createCipher, Crypto.Buffer_from_base64 in He. cbn in He.
    rewrite createCipheriv_valid in He by (auto; exact (Hsnap _ _ Hp)). cbn in He.
    rewrite cipher_update_final_non_string in He by exact Hv. congruence.
  - unfold bind at 1. rewrite generateIvBase64_eq.
    assert (Hiv : valid_iv (base64_encode (List.map (random_byte (rng w)) (seq 0 16)))).
    { eapply generateIvBase64_valid. apply generateIvBase64_eq. }
    unfold bind at 1.
    rewrite (cipherValueToBase64_truthy key) by (apply valid_iv_truthy; exact Hiv).
    destruct (encrypt_non_string
                (base64_encode (List.map (random_byte (rng w)) (seq 0 16))) value Hv)
      as [e He].
    rewrite He. eexists e, _. split_and!; [reflexivity..|]. intros Hk _.
    unfold Crypto.createCipher, Crypto.Buffer_from_base64 in He. cbn in He.
    rewrite createCipheriv_valid in He by auto. cbn in He.
    rewrite cipher_update_final_non_string in He by exact Hv. congruence.
Qed.


(** X8.  A value that is not a string is never written: [setValue]
    throws before it sends a statement, whatever the engine, the snapshot
    and the key; the state of the store and the trace are as before.
    With a cipher key of 32 bytes and a snapshot of records with 16-byte
    IVs, what it throws is the cipher's [TypeError]. *)
Theorem setValue_rejects_non_string (userId : jsval) (pairs : gmap string Pair)
    (k : string) (value : jsval) (w : World S) :
  (forall plain, value <> VStr plain) ->
  exists e w',
    Ekvdb.setValue key userId pairs k value w = (Throw e, w') /\
    db w' = db w /\ trace w' = trace w /\ config w' = config w /\
    (valid_key key -> valid_snapshot pairs ->
     e = TypeError "The data argument must be of type string").
Proof. apply setValue_non_string. Qed.

End store_generic.

(** X10.  The pool is created once.  From a module that has no pool yet,
    any number of calls of [getPool], one after the other, create one
    pool and all return it.  Its options are the properties of [dbOpts]
    and, where [dbOpts] does not set them, the user [shib-profile], the
    database [thurloe] and the socket path [/cloudsql/] followed by the
    text of [dbOpts.instanceConnectionName]: [/cloudsql/undefined] where
    [dbOpts] has no such property.  Where that property has no text (an
    object with a [toString] of its own), every call throws and no pool is
    created. *)
Theorem getPool_once (dbOpts : gmap string jsval) (n : nat) :
  let start := {| EkvdbInternals.cachedPool := None; EkvdbInternals.created := [] |} in
  match EkvdbInternals.pool_options dbOpts with
  | Throw e =>
      EkvdbInternals.getPool_times dbOpts (Datatypes.S n) start =
      (repeat (Throw e) (Datatypes.S n), start) /\
      template (EkvdbInternals.field dbOpts "instanceConnectionName") = Throw e
  | Ok options =>
      EkvdbInternals.getPool_times dbOpts (Datatypes.S n) start =
      (repeat (Ok 0%nat) (Datatypes.S n),
       {| EkvdbInternals.cachedPool := Some 0%nat; EkvdbInternals.created := [options] |}) /\
      (forall name v, dbOpts !! name = Some v -> options !! name = Some v) /\
      (dbOpts !! "user"%string = None ->
       options !! "user"%string = Some (VStr "shib-profile")) /\
      (dbOpts !! "database"%string = None ->
       options !! "database"%string = Some (VStr "thurloe")) /\
      (dbOpts !! "socketPath"%string = None ->
       exists text,
         template (EkvdbInternals.field dbOpts "instanceConnectionName") = Ok text /\
         options !! "socketPath"%string = Some (VStr (String.append "/cloudsql/" text))) /\
      (dbOpts !! "instanceConnectionName"%string = None ->
       dbOpts !! "socketPath"%string = None ->
       options !! "socketPath"%string = Some (VStr "/cloudsql/undefined"))
  end.
Proof.
  cbv zeta. unfold EkvdbInternals.pool_options.
  destruct (template (EkvdbInternals.field dbOpts "instanceConnectionName"))
    as [text|e] eqn:Htext.
  - assert (Hcached : forall m d pool,
              EkvdbInternals.cachedPool d = Some pool ->
              EkvdbInternals.getPool_times dbOpts m d = (repeat (Ok pool) m, d)).
    { induction m as [|m IH]; intros d pool Hd; [reflexivity|].
      cbn [EkvdbInternals.getPool_times]. unfold EkvdbInternals.getPool. rewrite Hd.
      rewrite (IH d pool Hd). reflexivity. }
    assert (Hdefault : forall name v,
              dbOpts !! name = None ->
              ({[ "user"%string := VStr "shib-profile";
                  "database"%string := VStr "thurloe";
                  "socketPath"%string := VStr (String.append "/cloudsql/" text) ]}
               : gmap string jsval) !! name = Some v ->
              (dbOpts ∪
               {[ "user"%string := VStr "shib-profile";
                  "database"%string := VStr "thurloe";
                  "socketPath"%string := VStr (String.append "/cloudsql/" text) ]})
              !! name = Some v).
    { intros name v Hnone Hv. apply lookup_union_Some_raw. right. auto. }
    split_and!.
    + cbn [EkvdbInternals.getPool_times]. unfold EkvdbInternals.getPool at 1.
      unfold EkvdbInternals.pool_options.
      cbn [EkvdbInternals.cachedPool EkvdbInternals.created length app]. rewrite Htext.
      erewrite Hcached by reflexivity. reflexivity.
    + intros name v Hv. apply lookup_union_Some_raw. left. exact Hv.
    + intros Hnone. apply Hdefault; [exact Hnone|reflexivity].
    + intros Hnone. apply Hdefault; [exact Hnone|reflexivity].
    + intros Hnone. exists text. split; [reflexivity|].
      apply Hdefault; [exact Hnone|reflexivity].
    + intros Hinst Hnone. apply Hdefault; [exact Hnone|].
      unfold EkvdbInternals.field in Htext. rewrite Hinst in Htext.
      injection Htext as <-. reflexivity.
  - split; [|reflexivity].
    generalize (Datatypes.S n). intros m. induction m as [|m IH]; [reflexivity|].
    cbn [EkvdbInternals.getPool_times]. unfold EkvdbInternals.getPool at 1.
    unfold EkvdbInternals.pool_options.
    cbn [EkvdbInternals.cachedPool]. rewrite Htext, IH. reflexivity.
Qed.

(** ** The parts of a token *)

Section token_facts.
Context `{Platform}.

Lemma split_on_go_whole sep s : forall cur,
  occurrences sep s = 0%nat ->
  split_on_go sep cur s = [String.append (String.rev cur) s].
Proof.
  induction s as [|c s IH]; intros cur Hs; cbn [split_on_go].
  - rewrite append_nil_r. reflexivity.
  - cbn [occurrences] in Hs. destruct (Ascii.eqb c sep) eqn:Hc; [discriminate|].
    rewrite IH by exact Hs. rewrite rev_cons, append_assoc. reflexivity.
Qed.

Lemma split_on_go_first sep s t : forall cur,
  occurrences sep s = 0%nat ->
  split_on_go sep cur (String.append s (String sep t)) =
  String.append (String.rev cur) s :: split_on_go sep EmptyString t.
Proof.
  induction s as [|c s IH]; intros cur Hs.
  - change (String.append EmptyString (String sep t)) with (String sep t).
    cbn [split_on_go]. rewrite Ascii.eqb_refl, append_nil_r. reflexivity.
  - cbn [occurrences] in Hs. destruct (Ascii.eqb c sep) eqn:Hc; [discriminate|].
    rewrite append_cons. cbn [split_on_go]. rewrite Hc.
    rewrite IH by exact Hs. rewrite rev_cons, append_assoc. reflexivity.
Qed.

(** X11.  Reading the payload looks at the second dot-separated part of
    the token and at nothing else: whatever the header part and the
    signature part are, and whether or not there is a signature part at
    all, the payload is [JSON.parse] of the base64-decoded second part.  A
    token with no dot has no payload. *)
Theorem parse_payload_second_part (header payload : string) :
  occurrences "." header = 0%nat ->
  occurrences "." payload = 0%nat ->
  let claims := JSON_parse (utf8_decode (base64_decode payload)) in
  Server.parse_payload (String.append header (String "." payload)) = claims /\
  (forall signature,
     Server.parse_payload
       (String.append header (String "." (String.append payload (String "." signature)))) =
     claims) /\
  Server.parse_payload header = None.
Proof.
  intros Hh Hp. cbv zeta. unfold Server.parse_payload, Server.decode_parts, split_on.
  split_and!.
  - rewrite split_on_go_first by exact Hh. rewrite split_on_go_whole by exact Hp.
    reflexivity.
  - intros signature. rewrite split_on_go_first by exact Hh.
    rewrite split_on_go_first by exact Hp.
    destruct (split_on_go "." EmptyString signature); reflexivity.
  - rewrite split_on_go_whole by exact Hh. reflexivity.
Qed.

End token_facts.

(** ** The resolvers, scheme by scheme *)

Section auth_facts.
Context `{Platform} {S : Type} `{!SqlEngine S}.

Lemma after_nil (w : World S) : after w [] = w.
Proof. destruct w. unfold after. cbn. rewrite app_nil_r. reflexivity. Qed.

Lemma after_after (w : World S) evs evs' : after (after w evs) evs' = after w (evs ++ evs').
Proof. unfold after. cbn. rewrite app_assoc. reflexivity. Qed.

(** The header splits into the scheme token and what follows it. *)
Lemma scheme_Some authorization sch :
  scheme authorization = Some sch ->
  exists rest,
    Nat.eqb (String.length (trim (default EmptyString authorization))) 0 = false /\
    split_ws (trim (default EmptyString authorization)) = scheme_token authorization :: rest /\
    toLowerCase (scheme_token authorization) = sch /\
    credential authorization = head rest.
Proof.
  unfold scheme, scheme_token, credential.
  destruct (Nat.eqb _ 0); [discriminate|].
  destruct (split_ws _) as [|type rest] eqn:Hs; [discriminate|].
  cbn. intros [= <-]. exists rest. auto.
Qed.

Lemma scheme_None authorization :
  scheme authorization = None ->
  Nat.eqb (String.length (trim (default EmptyString authorization))) 0 = true.
Proof.
  unfold scheme. destruct (Nat.eqb _ 0); [reflexivity|].
  destruct (split_ws _) as [|type rest] eqn:Hs; [|discriminate].
  apply split_ws_nonempty in Hs. contradiction.
Qed.

Lemma bearer_request authorization (w : World S) {A} (k : nat * string -> M S A) :
  bind (Server.httpRequest "oauth2.googleapis.com" (tokeninfo_path authorization)) k w =
  k (introspection authorization)
    (after w [EvHttpsGet "oauth2.googleapis.com" (tokeninfo_path authorization)]).
Proof. reflexivity. Qed.

(** The middleware variant's resolver, by the scheme of the header. *)
Lemma middleware_withAuth_eq authorization (w : World S) :
  Middleware.withAuth authorization w =
  match scheme authorization with
  | None => (Ok (AuthErr MissingAuthorizationHeader), w)
  | Some sch =>
      if String.eqb sch "bearer"
      then (Ok (bearer_auth authorization),
            after w [EvHttpsGet "oauth2.googleapis.com" (tokeninfo_path authorization)])
      else (Ok (AuthErr (InvalidAuthType (scheme_token authorization)
                           (credential authorization)
                           (trim (default EmptyString authorization)))), w)
  end.
Proof.
  destruct (scheme authorization) as [sch|] eqn:Hsch.
  - destruct (scheme_Some _ _ Hsch) as (rest & Hlen & Hsplit & Hlow & Hcred).
    unfold Middleware.withAuth. rewrite Hlen, Hsplit, Hlow, <- Hcred.
    destruct (String.eqb sch "bearer"); [|reflexivity].
    change (String.append "/tokeninfo?access_token="
              (default "undefined"%string (credential authorization)))
      with (tokeninfo_path authorization).
    rewrite bearer_request. unfold bearer_auth.
    destruct (negb _); reflexivity.
  - unfold Middleware.withAuth. rewrite (scheme_None _ Hsch). reflexivity.
Qed.

(** The singleton variant's. *)
Lemma singleton_withAuth_eq authorization (w : World S) :
  Singleton.withAuth authorization w =
  match scheme authorization with
  | None => (Ok (AuthErr MissingAuthorizationHeader), w)
  | Some sch =>
      if String.eqb sch "key" then
        match config w with
        | None => (Throw (TypeError "Cannot read properties of undefined"), w)
        | Some cfg =>
            (Ok (if negb (truthy_opt (authKey cfg))
                 then AuthErr (KeyAuthorizationDisabled (scheme_token authorization)
                                 (credential authorization)
                                 (trim (default EmptyString authorization)))
                 else if negb (bool_decide (credential authorization = authKey cfg))
                      then AuthErr (InvalidAuthKey (scheme_token authorization)
                                      (credential authorization)
                                      (trim (default EmptyString authorization)))
                      else AuthKey (credential authorization)), w)
        end
      else if String.eqb sch "bearer"
      then (Ok (bearer_auth authorization),
            after w [EvHttpsGet "oauth2.googleapis.com" (tokeninfo_path authorization)])
      else (Ok (AuthErr (InvalidAuthType (scheme_token authorization)
                           (credential authorization)
                           (trim (default EmptyString authorization)))), w)
  end.
Proof.
  destruct (scheme authorization) as [sch|] eqn:Hsch.
  - destruct (scheme_Some _ _ Hsch) as (rest & Hlen & Hsplit & Hlow & Hcred).
    unfold Singleton.withAuth. rewrite Hlen, Hsplit, Hlow, <- Hcred.
    destruct (String.eqb sch "key").
    { unfold bind, Singleton.the_config. destruct (config w) as [cfg|]; [|reflexivity].
      destruct (negb (truthy_opt _)); [reflexivity|].
      destruct (negb (bool_decide _)); reflexivity. }
    destruct (String.eqb sch "bearer"); [|reflexivity].
    change (String.append "/tokeninfo?access_token="
              (default "undefined"%string (credential authorization)))
      with (tokeninfo_path authorization).
    rewrite bearer_request. unfold bearer_auth.
    destruct (negb _); reflexivity.
  - unfold Singleton.withAuth. rewrite (scheme_None _ Hsch). reflexivity.
Qed.

(** X14.  The resolvers contact the identity provider for a bearer
    header and for no other.  For a header whose scheme is [bearer] in any
    letter case, both variants (the singleton one whether or not its
    configuration is loaded) send one GET of [/tokeninfo] with the
    credential as the [access_token] parameter ([undefined] if the header
    has no credential) and answer with the body as the Google identity on
    status 200 and with [invalid bearer token] otherwise.  For every other
    header they leave the world as it is and never answer with a Google
    identity. *)
Theorem withAuth_bearer_only (authorization : option string) (w : World S) :
  if bool_decide (scheme authorization = Some "bearer"%string) then
    let gtRes := introspection authorization in
    let auth :=
      if Nat.eqb (fst gtRes) 200
      then AuthGoogle (Server.maybeParseJson (snd gtRes))
      else AuthErr (InvalidBearerToken (credential authorization)
                      (trim (default EmptyString authorization))
                      (Server.maybeParseJson (snd gtRes))) in
    let w' :=
      after w [EvHttpsGet "oauth2.googleapis.com"
                 (String.append "/tokeninfo?access_token="
                    (default "undefined"%string (credential authorization)))] in
    Middleware.withAuth authorization w = (Ok auth, w') /\
    Singleton.withAuth authorization w = (Ok auth, w')
  else
    snd (Middleware.withAuth authorization w) = w /\
    snd (Singleton.withAuth authorization w) = w /\
    (forall google,
       fst (Middleware.withAuth authorization w) <> Ok (AuthGoogle google) /\
       fst (Singleton.withAuth authorization w) <> Ok (AuthGoogle google)).
Proof.
  rewrite middleware_withAuth_eq, singleton_withAuth_eq.
  destruct (bool_decide_reflect (scheme authorization = Some "bearer"%string)) as [Hb|Hb].
  - rewrite Hb. assert (Hk : String.eqb "bearer" "key" = false) by reflexivity.
    rewrite Hk, String.eqb_refl. cbv zeta. unfold bearer_auth.
    destruct (Nat.eqb (fst (introspection authorization)) 200); cbn [negb]; auto.
  - destruct (scheme authorization) as [sch|].
    2:{ cbn. split_and!; auto; intros google; split; discriminate. }
    assert (Hne : String.eqb sch "bearer" = false) by (apply String.eqb_neq; congruence).
    rewrite Hne.
    destruct (String.eqb sch "key");
      [destruct (config w) as [cfg|];
       [destruct (negb (truthy_opt _)); [|destruct (negb (bool_decide _))]|]|];
      cbn; split_and!; auto; intros google; split; discriminate.
Qed.

End auth_facts.

(** ** The routes: who gets past the resolver *)

Section route_facts.
Context `{Platform} {S : Type} `{!SqlEngine S}.

Ltac run_front :=
  repeat (progress
    (unfold Server.sendAuthError, Server.status, Server.sendJson, Server.httpRequest,
       Server.verify, Middleware.getPublicKey;
     repeat first [ rewrite bind_bind | rewrite bind_emit | rewrite bind_ret
                  | rewrite bind_lift_ok | rewrite bind_lift_throw | rewrite bind_throw ])).

(** Both linking handlers answer a caller without a Google identity with
    401 and the authentication context, and do nothing else. *)
Lemma handler_unauthenticated (v : Variant) auth body (w : World S) :
  Server.truthy (auth_google auth) = false ->
  linking_handler v auth body w =
  (Ok tt, after w [EvStatus 401; EvSendJson (BodyAuth auth)]).
Proof.
  intros Ht. destruct v as [key envName|]; cbn;
    [unfold Middleware.postShibbolethToken|unfold Singleton.postShibbolethToken];
    rewrite Ht; cbn [negb]; unfold Server.sendAuthError, Server.status, Server.sendJson;
    rewrite !bind_emit; unfold ret, after; cbn; rewrite <- app_assoc; reflexivity.
Qed.

Lemma bearer_auth_rejected authorization :
  fst (introspection authorization) <> 200%nat ->
  auth_google (bearer_auth authorization) = VUndefined.
Proof.
  intros Hs. unfold bearer_auth.
  destruct (Nat.eqb_spec (fst (introspection authorization)) 200); [contradiction|].
  reflexivity.
Qed.

(** What the resolvers answer to a request that carries no Google
    identity: an authentication context without one, after at most the
    one request to the identity provider. *)
Lemma withAuth_without_google (v : Variant) authorization (w : World S) :
  scheme authorization <> Some "bearer"%string \/
  fst (introspection authorization) <> 200%nat ->
  (v = SingletonVariant -> scheme authorization = Some "key"%string -> config w <> None) ->
  exists auth pre,
    match v with
    | MiddlewareVariant _ _ => Middleware.withAuth authorization w
    | SingletonVariant => Singleton.withAuth authorization w
    end = (Ok auth, after w pre) /\
    auth_google auth = VUndefined /\
    (pre = [] \/ pre = [EvHttpsGet "oauth2.googleapis.com" (tokeninfo_path authorization)]).
Proof.
  intros Hreject Hcfg.
  destruct v as [key envName|];
    [rewrite middleware_withAuth_eq|rewrite singleton_withAuth_eq];
    (destruct (scheme authorization) as [sch|] eqn:Hsch;
     [|eexists _, []; rewrite after_nil; split_and!; [reflexivity|reflexivity|auto]]).
  - destruct (String.eqb_spec sch "bearer") as [->|Hne].
    + destruct Hreject as [Hc|Hs]; [contradiction|].
      eexists _, _. split_and!; [reflexivity|apply bearer_auth_rejected; exact Hs|auto].
    + eexists _, []. rewrite after_nil. split_and!; [reflexivity|reflexivity|auto].
  - destruct (String.eqb_spec sch "key") as [->|Hnk].
    + destruct (config w) as [cfg|] eqn:Hc; [|exfalso; apply Hcfg; auto].
      eexists _, []. rewrite after_nil. split_and!; [reflexivity| |auto].
      destruct (negb (truthy_opt _)); [reflexivity|].
      destruct (negb (bool_decide _)); [reflexivity|].
      destruct (credential authorization); reflexivity.
    + destruct (String.eqb_spec sch "bearer") as [->|Hne].
      * destruct Hreject as [Hc|Hs]; [contradiction|].
        eexists _, _. split_and!; [reflexivity|apply bearer_auth_rejected; exact Hs|auto].
      * eexists _, []. rewrite after_nil. split_and!; [reflexivity|reflexivity|auto].
Qed.

(** X12.  Linking needs a Google identity.  In either variant a request
    to the linking route whose header is missing, or has another scheme
    than [bearer] (the static key too, right or wrong), or carries a bearer
    credential the identity provider does not answer with 200, is answered
    with 401 and the authentication context; apart from the one request to
    the identity provider for a bearer credential it does nothing: no key
    fetch, no verification, no statement to the store.  The one exception
    is a key header to the singleton variant while its [config] is still
    unset: there the resolver throws, and nothing is sent or done at
    all. *)
Theorem linking_requires_google (v : Variant) (authorization : option string)
    (body : string) (w : World S) :
  scheme authorization <> Some "bearer"%string \/
  fst (introspection authorization) <> 200%nat ->
  let unset :=
    v = SingletonVariant /\ scheme authorization = Some "key"%string /\ config w = None in
  (unset ->
   linking_route v authorization body w =
   (Throw (TypeError "Cannot read properties of undefined"), w)) /\
  (~ unset ->
   exists auth pre,
     linking_route v authorization body w =
     (Ok tt, after w (pre ++ [EvStatus 401; EvSendJson (BodyAuth auth)])) /\
     auth_google auth = VUndefined /\
     (pre = [] \/ pre = [EvHttpsGet "oauth2.googleapis.com" (tokeninfo_path authorization)])).
Proof.
  intros Hreject unset. split.
  - intros (-> & Hkey & Hnone). cbn. unfold Singleton.route_shibboleth_token.
    unfold bind at 1. rewrite singleton_withAuth_eq, Hkey, Hnone. reflexivity.
  - intros Hset.
    assert (Hcfg : v = SingletonVariant -> scheme authorization = Some "key"%string ->
                   config w <> None).
    { intros Hv Hkey Hnone. apply Hset. split_and!; assumption. }
    destruct (withAuth_without_google v authorization w Hreject Hcfg)
      as (auth & pre & Hauth & Hgoogle & Hpre).
    exists auth, pre. split_and!; auto.
    assert (Ht : Server.truthy (auth_google auth) = false) by (rewrite Hgoogle; reflexivity).
    pose proof (handler_unauthenticated v auth body (after w pre) Ht) as Hh.
    rewrite after_after in Hh.
    destruct v as [key envName|]; cbn in Hh |- *;
      [unfold Middleware.route_shibboleth_token|unfold Singleton.route_shibboleth_token];
      unfold bind at 1; rewrite Hauth; exact Hh.
Qed.

(** X13.  A key fetch that is not answered with 200 ends the request
    before the signature check and before the store: the middleware
    variant throws [failed to fetch key for JWT verification], the
    singleton variant answers 502.  Neither verifies, reads or writes; the
    state of the store is as before.  (Where the payload had not parsed,
    the singleton variant has answered 400 before the fetch, so its
    [sendJson] of the 502 throws and no second answer is sent.) *)
Theorem key_fetch_failure_stops (v : Variant) auth (body : string) (w : World S)
    (statusCode : nat) (text : string) :
  Server.truthy (auth_google auth) = true ->
  https_get "broad-shibboleth-prod.appspot.com" (public_key_path v) = (statusCode, text) ->
  statusCode <> 200%nat ->
  match v with
  | MiddlewareVariant _ _ =>
      match Server.parse_payload body with
      | Some _ =>
          linking_handler v auth body w =
          (Throw (StructError "failed to fetch key for JWT verification"),
           after w [EvHttpsGet "broad-shibboleth-prod.appspot.com" (public_key_path v)])
      | None =>
          linking_handler v auth body w =
          (Throw (StructError "failed to parse token payload"), w)
      end
  | SingletonVariant =>
      linking_handler v auth body w =
      (match Server.parse_payload body with
       | Some _ => Ok tt
       | None => Throw HeadersSent
       end,
       after w
         (match Server.parse_payload body with
          | Some _ => []
          | None => [EvStatus 400; EvSendJson (BodyParseFailure body)]
          end ++
          [EvHttpsGet "broad-shibboleth-prod.appspot.com" "/public-key.pem";
           EvStatus 502; EvSendJson BodyKeyFetchFailure]))
  end.
Proof.
  intros Ht Hget Hs.
  assert (Hne : negb (Nat.eqb statusCode 200) = true).
  { destruct (Nat.eqb_spec statusCode 200); [contradiction|reflexivity]. }
  destruct v as [key envName|]; cbn in Hget |- *.
  - unfold Middleware.postShibbolethToken, Middleware.parseJwtPayload. rewrite Ht. cbn [negb].
    destruct (Server.parse_payload body) as [payload|]; [|reflexivity].
    run_front. rewrite Hget. cbn [fst snd]. rewrite Hne. reflexivity.
  - unfold Singleton.postShibbolethToken. rewrite Ht. cbn [negb].
    destruct (Server.parse_payload body) as [payload|]; run_front; rewrite Hget;
      cbn [fst snd]; rewrite Hne; run_front; unfold emit, after; cbn;
      rewrite <- ?app_assoc; reflexivity.
Qed.

(** X18.  The reload gate of the singleton variant.  With the
    configuration loaded, a request to [/.src] gets past [withAuth] and the
    launcher's [before] hook exactly when its scheme is [key], a
    non-empty static secret is configured and the credential equals it;
    then nothing has been sent or changed.  Every other request, a Google
    identity included, is answered with 401 and the authentication
    context, after at most the one request to the identity provider. *)
Theorem reload_gate (authorization : option string) (w : World S) (cfg : Config) :
  config w = Some cfg ->
  let allowed :=
    scheme authorization = Some "key"%string /\
    truthy_opt (authKey cfg) = true /\
    credential authorization = authKey cfg in
  (allowed /\ Index.route_src authorization w = (Ok true, w)) \/
  (~ allowed /\
   exists auth pre,
     Index.route_src authorization w =
     (Ok false, after w (pre ++ [EvStatus 401; EvSendJson (BodyAuth auth)])) /\
     (pre = [] \/ pre = [EvHttpsGet "oauth2.googleapis.com" (tokeninfo_path authorization)])).
Proof.
  intros Hcfg. cbv zeta. unfold Index.route_src, bind.
  rewrite singleton_withAuth_eq, Hcfg.
  assert (Hreject : forall auth pre,
            Server.truthy (Index.auth_key auth) = false ->
            Index.before auth (after w pre) =
            (Ok false, after w (pre ++ [EvStatus 401; EvSendJson (BodyAuth auth)]))).
  { intros auth pre Hk. unfold Index.before. rewrite Hk. cbn [negb].
    unfold Server.sendAuthError, Server.status, Server.sendJson.
    rewrite bind_bind, bind_emit. unfold bind, emit, ret, after. cbn.
    rewrite <- !app_assoc. reflexivity. }
  destruct (scheme authorization) as [sch|] eqn:Hsch.
  2:{ right. split; [intros (Hc & _); discriminate|].
      eexists _, []. split; [|auto]. rewrite <- (after_nil w) at 1. apply Hreject.
      reflexivity. }
  destruct (String.eqb_spec sch "key") as [->|Hnk].
  - destruct (truthy_opt (authKey cfg)) eqn:Hon; cbn [negb].
    + destruct (bool_decide_reflect (credential authorization = authKey cfg)) as [Heq|Hneq];
        cbn [negb].
      * left. split; [auto|]. unfold Index.before.
        assert (Hk : Server.truthy (Index.auth_key (AuthKey (credential authorization))) = true).
        { rewrite Heq. destruct (authKey cfg) as [secret|]; [|discriminate]. exact Hon. }
        rewrite Hk. reflexivity.
      * right. split; [intros (_ & _ & Hc); contradiction|].
        eexists _, []. split; [|auto]. rewrite <- (after_nil w) at 1. apply Hreject.
        reflexivity.
    + right. split; [intros (_ & Hc & _); discriminate|].
      eexists _, []. split; [|auto]. rewrite <- (after_nil w) at 1. apply Hreject.
      reflexivity.
  - right. split; [intros (Hc & _); congruence|].
    destruct (String.eqb sch "bearer").
    + eexists _, _. split; [|right; reflexivity]. apply Hreject.
      unfold bearer_auth. destruct (negb _); reflexivity.
    + eexists _, []. split; [|auto]. rewrite <- (after_nil w) at 1. apply Hreject.
      reflexivity.
Qed.

End route_facts.

(** ** The linking handlers on the store *)

Section linking_runs.
Context `{Platform} `{!PlatformLaws}.

Ltac run_front_in Hrun :=
  repeat (progress
    (unfold Server.sendAuthError, Server.status, Server.sendJson, Server.httpRequest,
       Server.verify, Middleware.getPublicKey in Hrun;
     repeat first [ rewrite bind_bind in Hrun | rewrite bind_emit in Hrun
                  | rewrite bind_ret in Hrun | rewrite bind_lift_ok in Hrun
                  | rewrite bind_lift_throw in Hrun | rewrite bind_throw in Hrun ])).

(** Closes the case of a run that ended before the store part. *)
Ltac early_stop Hrun :=
  run_front_in Hrun; unfold throw, ret, emit, lift in Hrun;
  cbn [db rng trace config] in Hrun;
  rewrite <- ?app_assoc in Hrun; injection Hrun as <- <-; left;
  split_and!;
  [ reflexivity
  | reflexivity
  | eexists; split;
    [ cbn [trace]; first [reflexivity | symmetry; apply app_nil_r]
    | repeat constructor ] ].

(** A run of a linking handler for a caller with a Google identity either
    ends without a statement that changes the table, or is the store part
    after the key fetch and the signature check. *)
Lemma linking_run_inv (v : Variant) auth body (w w' : World Table) out :
  Server.truthy (auth_google auth) = true ->
  linking_handler v auth body w = (out, w') ->
  (rows (db w') = rows (db w) /\ config w' = config w /\
   exists evs, trace w' = trace w ++ evs /\ Forall is_quiet evs) \/
  (exists key payload sub username pem,
     store_key v w = Some key /\
     Server.parse_payload body = Some payload /\
     Server.google_sub auth = Ok sub /\
     prop payload "eraCommonsUsername" = Ok username /\
     https_get "broad-shibboleth-prod.appspot.com" (public_key_path v) = (200%nat, pem) /\
     jwt_verify body pem = None /\
     link_account key sub username (prop payload "iat")
       (after w [EvHttpsGet "broad-shibboleth-prod.appspot.com" (public_key_path v);
                 EvVerify body pem]) = (out, w')).
Proof.
  intros Ht Hrun. destruct v as [key envName|]; cbn in Hrun |- *.
  - unfold Middleware.postShibbolethToken, Middleware.parseJwtPayload in Hrun.
    rewrite Ht in Hrun. cbn [negb] in Hrun.
    destruct (Server.parse_payload body) as [payload|] eqn:Hp.
    2:{ early_stop Hrun. }
    run_front_in Hrun.
    destruct (https_get "broad-shibboleth-prod.appspot.com"
                (if String.eqb envName "dev" then "/dev/public-key.pem"%string
                 else "/public-key.pem"%string)) as [st pem] eqn:Hget.
    cbn [fst snd] in Hrun.
    destruct (Nat.eqb_spec st 200) as [->|Hst]; cbn [negb] in Hrun.
    2:{ early_stop Hrun. }
    run_front_in Hrun.
    destruct (jwt_verify body pem) as [e|] eqn:Hver; [early_stop Hrun|].
    destruct (Server.google_sub auth) as [sub|e] eqn:Hsub;
      [rewrite bind_lift_ok in Hrun|rewrite bind_lift_throw in Hrun; early_stop Hrun].
    destruct (prop payload "eraCommonsUsername") as [username|e] eqn:Huser;
      [rewrite bind_lift_ok in Hrun|rewrite bind_lift_throw in Hrun; early_stop Hrun].
    right. exists key, payload, sub, username, pem.
    split_and!; auto. unfold link_account, Server.sendJson, after.
    cbn [db rng trace config] in Hrun. rewrite <- ?app_assoc in Hrun. exact Hrun.
  - unfold Singleton.postShibbolethToken in Hrun. rewrite Ht in Hrun. cbn [negb] in Hrun.
    destruct (https_get "broad-shibboleth-prod.appspot.com" "/public-key.pem")
      as [st pem] eqn:Hget.
    destruct (Server.parse_payload body) as [payload|] eqn:Hp.
    + run_front_in Hrun. rewrite Hget in Hrun. cbn [fst snd] in Hrun.
      destruct (Nat.eqb_spec st 200) as [->|Hst]; cbn [negb] in Hrun;
        [|run_front_in Hrun; early_stop Hrun].
      run_front_in Hrun.
      destruct (jwt_verify body pem) as [e|] eqn:Hver; [run_front_in Hrun; early_stop Hrun|].
      unfold bind at 1, Singleton.the_config in Hrun. cbn [config] in Hrun.
      destruct (config w) as [cfg|] eqn:Hcfg; [|early_stop Hrun].
      destruct (Server.google_sub auth) as [sub|e] eqn:Hsub;
        [rewrite bind_lift_ok in Hrun|rewrite bind_lift_throw in Hrun; early_stop Hrun].
      cbn [db rng trace config] in Hrun. rewrite <- ?app_assoc in Hrun.
      destruct (prop payload "eraCommonsUsername") as [username|e] eqn:Huser.
      * right. exists (base64_decode (encryptionKeyBase64 cfg)), payload, sub, username, pem.
        split_and!; auto. unfold link_account, Server.sendJson.
        unfold bind at 1. unfold bind at 1 in Hrun.
        unfold after. rewrite Hcfg. cbn [app] in Hrun |- *.
        destruct (Ekvdb.getPairs _ sub _) as [[pairs|e] w1];
          [rewrite bind_lift_ok in Hrun|]; exact Hrun.
      * unfold bind at 1 in Hrun. rewrite (getPairs_table_eq _ sub) in Hrun.
        cbn [db rng trace config rows] in Hrun.
        destruct (match fst (next_fault (db w)) with
                  | Some err => Throw (DriverError err)
                  | None => _
                  end) as [pairs|e'];
          [rewrite bind_lift_throw in Hrun|]; early_stop Hrun.
    + run_front_in Hrun. rewrite Hget in Hrun. cbn [fst snd] in Hrun.
      destruct (Nat.eqb_spec st 200) as [->|Hst]; cbn [negb] in Hrun;
        [|run_front_in Hrun; early_stop Hrun].
      run_front_in Hrun.
      destruct (jwt_verify body pem) as [e|] eqn:Hver; [run_front_in Hrun; early_stop Hrun|].
      unfold bind at 1, Singleton.the_config in Hrun. cbn [config] in Hrun.
      destruct (config w) as [cfg|] eqn:Hcfg; [|early_stop Hrun].
      destruct (Server.google_sub auth) as [sub|e] eqn:Hsub;
        [rewrite bind_lift_ok in Hrun|rewrite bind_lift_throw in Hrun; early_stop Hrun].
      cbn [db rng trace config] in Hrun. rewrite <- ?app_assoc in Hrun.
      unfold bind at 1 in Hrun. rewrite (getPairs_table_eq _ sub) in Hrun.
      cbn [db rng trace config rows] in Hrun.
      destruct (match fst (next_fault (db w)) with
                | Some err => Throw (DriverError err)
                | None => _
                end) as [pairs|e'];
        [cbn [prop] in Hrun; rewrite bind_lift_throw in Hrun|]; early_stop Hrun.
Qed.

End linking_runs.

Section linking_extras.
Context `{Platform} `{!PlatformLaws}.

Ltac run_front :=
  repeat (progress
    (unfold Server.sendAuthError, Server.status, Server.sendJson, Server.httpRequest,
       Server.verify, Middleware.getPublicKey;
     repeat first [ rewrite bind_bind | rewrite bind_emit | rewrite bind_ret
                  | rewrite bind_lift_ok | rewrite bind_lift_throw | rewrite bind_throw ])).

Lemma bind_congr {A B} (m : M Table A) (f g : A -> M Table B) w :
  (forall a w1, f a w1 = g a w1) -> bind m f w = bind m g w.
Proof. intros Hfg. unfold bind. destruct (m w) as [[a|e] w1]; [apply Hfg|reflexivity]. Qed.

(** A run that reaches the store part is the store part. *)
Lemma linking_run_store (v : Variant) auth body (w : World Table)
    key payload sub username pem :
  Server.truthy (auth_google auth) = true ->
  store_key v w = Some key ->
  Server.parse_payload body = Some payload ->
  Server.google_sub auth = Ok sub ->
  prop payload "eraCommonsUsername" = Ok username ->
  https_get "broad-shibboleth-prod.appspot.com" (public_key_path v) = (200%nat, pem) ->
  jwt_verify body pem = None ->
  linking_handler v auth body w =
  link_account key sub username (prop payload "iat")
    (after w [EvHttpsGet "broad-shibboleth-prod.appspot.com" (public_key_path v);
              EvVerify body pem]).
Proof.
  intros Ht Hkey Hp Hsub Huser Hget Hver.
  destruct v as [key' envName|]; cbn in Hkey, Hget |- *.
  - injection Hkey as ->.
    unfold Middleware.postShibbolethToken, Middleware.parseJwtPayload.
    rewrite Ht, Hp. cbn [negb]. run_front. rewrite Hget. cbn [fst snd negb Nat.eqb].
    run_front. rewrite Hver, Hsub, bind_lift_ok, Huser, bind_lift_ok.
    unfold link_account, Server.sendJson, after. cbn [db rng trace config].
    rewrite <- ?app_assoc. reflexivity.
  - destruct (config w) as [cfg|] eqn:Hcfg; [|discriminate]. cbn in Hkey.
    injection Hkey as <-.
    unfold Singleton.postShibbolethToken. rewrite Ht, Hp. cbn [negb]. run_front.
    rewrite Hget. cbn [fst snd negb Nat.eqb]. run_front. rewrite Hver.
    unfold bind at 1, Singleton.the_config. cbn [config]. rewrite Hcfg.
    rewrite Hsub, bind_lift_ok, Huser.
    unfold link_account, Server.sendJson, after. cbn [db rng trace config].
    rewrite <- ?app_assoc. cbn [app]. rewrite Hcfg.
    apply bind_congr. intros pairs w1. rewrite bind_lift_ok. reflexivity.
Qed.

Lemma map_fixed (f : Row -> Row) t : (forall r, In r t -> f r = r) -> List.map f t = t.
Proof.
  induction t as [|r t IH]; intros Hf; [reflexivity|]. cbn.
  rewrite Hf by (left; reflexivity). rewrite IH; [reflexivity|].
  intros r' Hin. apply Hf. right. exact Hin.
Qed.

(** Writing the value a key already has, with a snapshot that has the
    row's IV, leaves the rows as they are, whatever the outcome. *)
Lemma setValue_same_value key userId pairs k plain p r (w w' : World Table) out :
  List.filter (matches userId k) (rows (db w)) = [r] ->
  VALUE r = ciphertext key (IV r) plain ->
  pairs !! k = Some p -> ivBase64 p = IV r ->
  Ekvdb.setValue key userId pairs k (VStr plain) w = (out, w') ->
  rows (db w') = rows (db w).
Proof.
  intros Hfilter Hvalue Hp Hiv Hrun.
  destruct (setValue_table key _ _ _ _ _ _ _ Hrun) as (Hup & _ & _).
  destruct Hup as [->|p' plain' Hp' _ _ Hv ->|s iv plain' _ _ _ _ Hex _].
  - reflexivity.
  - rewrite Hp in Hp'. injection Hp' as <-. unfold VStr in Hv. injection Hv as <-.
    apply map_fixed. intros r0 Hin. destruct (matches userId k r0) eqn:Hm; [|reflexivity].
    assert (r0 = r) as -> by (eapply filter_singleton_In; eauto).
    rewrite Hiv, <- Hvalue. destruct r; reflexivity.
  - apply existsb_false_filter in Hex. rewrite Hex in Hfilter. discriminate.
Qed.

(** What the store part leaves when it completes: one row of the caller
    under each of the two keys, carrying the username and the text of the
    expiry, and the answer read from those rows. *)
Lemma link_account_done key sub username iat (w w' : World Table) :
  link_account key sub username iat w = (Ok tt, w') ->
  exists plain iatv exp r1 r2 pairs',
    username = VStr plain /\ iat = Ok iatv /\
    plus_number iatv Server.thirtyDaysInSeconds = Ok exp /\ valid_key key /\
    List.filter (matches sub "linkedNihUsername") (rows (db w')) = [r1] /\
    valid_iv (IV r1) /\ VALUE r1 = ciphertext key (IV r1) plain /\
    List.filter (matches sub "linkExpireTime") (rows (db w')) = [r2] /\
    valid_iv (IV r2) /\
    VALUE r2 = ciphertext key (IV r2) (jsprim_toString exp) /\
    Ekvdb.reduce_rows key ∅
      (List.filter (fun r => sql_eq sub (USER_ID r)) (rows (db w'))) = Ok pairs' /\
    trace w' <> [] /\
    last (trace w') =
      Some (EvSendJson (BodyLinkValues (Server.link_values (Ekvdb.toPlain pairs')))).
Proof.
  unfold link_account. intros Hrun.
  apply bind_ok_inv in Hrun as (pairs & w1 & Hg1 & Hrun).
  apply bind_ok_inv in Hrun as ([] & w2 & Hs1 & Hrun).
  apply bind_lift_ok_inv in Hrun as (iatv & -> & Hrun).
  apply bind_lift_ok_inv in Hrun as (exp & Hexp & Hrun).
  apply bind_ok_inv in Hrun as ([] & w3 & Hs2 & Hrun).
  apply bind_ok_inv in Hrun as (pairs' & w4 & Hg2 & Hrun).
  unfold Server.sendJson in Hrun. rewrite bind_emit in Hrun. unfold ret in Hrun.
  injection Hrun as <-. cbn [db rows trace].
  pose proof (getPairs_snapshot_of key _ _ _ _ Hg1) as Hsnap1.
  destruct (setValue_written_row key _ _ _ _ _ _ Hsnap1 Hs1)
    as (plain & iv1 & r1 & -> & Hk & Hiv1 & Hf1 & Hivr1 & Hval1 & _ & _).
  destruct (setValue_table key _ _ _ _ _ _ _ Hs1) as (Hup1 & _ & _).
  pose proof (upsert_rows_snapshot_of key _ _ _ _ _ _ _ _ Hup1 Hsnap1) as Hsnap2.
  destruct (setValue_written_row key _ _ _ _ _ _ Hsnap2 Hs2)
    as (text & iv2 & r2 & Htext & _ & Hiv2 & Hf2 & Hivr2 & Hval2 & _ & Hothers).
  unfold VStr in Htext. injection Htext as <-.
  destruct (getPairs_table key _ _ _ _ Hg2) as (Hr4 & _ & _ & _ & Hred).
  exists plain, iatv, exp, r1, r2, pairs'. rewrite Hr4.
  split_and!; auto.
  - rewrite Hothers by discriminate. exact Hf1.
  - rewrite Hivr1. exact Hiv1.
  - rewrite Hivr1. exact Hval1.
  - rewrite Hivr2. exact Hiv2.
  - rewrite Hivr2. exact Hval2.
  - intros Hnil. apply app_eq_nil in Hnil as [_ [=]].
  - apply last_snoc.
Qed.

(** The entry a read returns for a key of which the caller has one row
    that carries a ciphertext under its own IV. *)
Lemma getPairs_sealed_row key sub k r plain (w w' : World Table) pairs :
  valid_key key -> valid_iv (IV r) -> VALUE r = ciphertext key (IV r) plain ->
  List.filter (matches sub k) (rows (db w)) = [r] ->
  Ekvdb.getPairs key sub w = (Ok pairs, w') ->
  pairs !! k = Some {| ivBase64 := IV r; cipheredValueBase64 := VALUE r; value := toWellFormed plain |}.
Proof.
  intros Hk Hiv Hval Hf Hg. rewrite (getPairs_lookup key _ _ _ _ k Hg), Hf. cbn.
  unfold pair_of_row. rewrite Hval at 1. rewrite decipher_ciphertext by assumption.
  reflexivity.
Qed.

(** X15.  What a completed linking request answers.  In either variant,
    a request that passes the signature check and completes has an
    assertion with a string [eraCommonsUsername], and its answer, the last
    thing it sends, has that username (as UTF-8 holds it) as
    [linkedNihUsername] and, as [linkExpireTime], [parseInt] of the text it
    stored: [iat + 2592000] for an integer [iat], as long as both are below
    2^53 in size (with that number times 1000 as the time of
    [linkExpireTimeHuman]), and [NaN] for an assertion without [iat], which
    is linked all the same. *)
Theorem linking_response (v : Variant) auth (body : string) (w w' : World Table)
    (pem : string) :
  Server.truthy (auth_google auth) = true ->
  https_get "broad-shibboleth-prod.appspot.com" (public_key_path v) = (200%nat, pem) ->
  jwt_verify body pem = None ->
  linking_handler v auth body w = (Ok tt, w') ->
  exists payload username iat exp values,
    Server.parse_payload body = Some payload /\
    prop payload "eraCommonsUsername" = Ok (VStr username) /\
    prop payload "iat" = Ok iat /\
    plus_number iat Server.thirtyDaysInSeconds = Ok exp /\
    last (trace w') = Some (EvSendJson (BodyLinkValues values)) /\
    linkedNihUsername values = Some (toWellFormed username) /\
    linkExpireTime values = parseInt (Some (toWellFormed (jsprim_toString exp))) /\
    linkExpireTimeHuman values = unixToJsTime (linkExpireTime values) /\
    (forall n, iat = VJson (JNum n) ->
       Z.abs n < 2 ^ 53 -> Z.abs (n + 2592000) < 2 ^ 53 ->
       linkExpireTime values = NNum (n + 2592000) /\
       (Z.abs ((n + 2592000) * 1000) < 2 ^ 53 ->
        linkExpireTimeHuman values = NNum ((n + 2592000) * 1000))) /\
    (iat = VUndefined ->
       linkExpireTime values = NNaN /\ linkExpireTimeHuman values = NNaN).
Proof.
  intros Ht Hget Hver Hrun.
  destruct (linking_run_inv v auth body w w' (Ok tt) Ht Hrun)
    as [(_ & _ & evs & Htrace & Hquiet)
       |(key & payload & sub & username & pem' & Hkey & Hp & Hsub & Huser & Hget' & Hver'
         & Hstore)].
  { exfalso.
    destruct (linking_success_inv v auth body w w' pem Ht Hget Hver Hrun)
      as (key2 & payload2 & sub2 & username2 & iat2 & exp2 & pairs2 & pairs2' & w0' & w1' & w2'
          & w3' & w4' & _ & _ & _ & _ & _ & _ & Hw0' & Hg1' & Hs1' & Hs2' & Hg2' & Hw').
    destruct (setValue_trace_ok _ _ _ _ _ _ _ Hs1') as (sql1 & Hta & Hwa).
    destruct (setValue_trace_ok _ _ _ _ _ _ _ Hs2') as (sql2 & Htb & Hwb).
    destruct (getPairs_table key2 _ _ _ _ Hg1') as (_ & _ & _ & Htg1 & _).
    destruct (getPairs_table key2 _ _ _ _ Hg2') as (_ & _ & _ & Htg2 & _).
    assert (Hfull : trace w' =
              trace w ++
              [EvHttpsGet "broad-shibboleth-prod.appspot.com" (public_key_path v);
               EvVerify body pem; EvQuery (SelectByUser sub2); EvQuery sql1;
               EvQuery sql2; EvQuery (SelectByUser sub2);
               EvSendJson (BodyLinkValues (Server.link_values (Ekvdb.toPlain pairs2')))]).
    { rewrite Hw'. cbn [trace]. rewrite Htg2, Htb, Hta, Htg1, Hw0'. cbn [trace].
      rewrite <- !app_assoc. reflexivity. }
    rewrite Htrace in Hfull. apply app_inv_head in Hfull. subst evs.
    inversion Hquiet as [|? ? _ Hq1]; subst. inversion Hq1 as [|? ? _ Hq2]; subst.
    inversion Hq2 as [|? ? _ Hq3]; subst. inversion Hq3 as [|? ? Hbad _]; subst.
    unfold is_quiet in Hbad. congruence. }
  rewrite Hget in Hget'. injection Hget' as <-.
  destruct (link_account_done key sub username _ _ _ Hstore)
    as (plain & iatv & exp & r1 & r2 & pairs' & -> & Hiat & Hsum & Hk & Hf1 & Hiv1 & Hval1
        & Hf2 & Hiv2 & Hval2 & Hred & _ & Hlast).
  exists payload, plain, iatv, exp, (Server.link_values (Ekvdb.toPlain pairs')).
  assert (Hname : Ekvdb.toPlain pairs' !! "linkedNihUsername"%string =
                  Some (toWellFormed plain)).
  { unfold Ekvdb.toPlain. rewrite lookup_fmap.
    rewrite (reduce_rows_lookup_last key _ _ "linkedNihUsername" Hred), rows_of_key_user, Hf1.
    cbn. unfold pair_of_row. rewrite Hval1 at 1.
    rewrite decipher_ciphertext by assumption. reflexivity. }
  assert (Hexp : Ekvdb.toPlain pairs' !! "linkExpireTime"%string =
                 Some (toWellFormed (jsprim_toString exp))).
  { unfold Ekvdb.toPlain. rewrite lookup_fmap.
    rewrite (reduce_rows_lookup_last key _ _ "linkExpireTime" Hred), rows_of_key_user, Hf2.
    cbn. unfold pair_of_row. rewrite Hval2 at 1.
    rewrite decipher_ciphertext by assumption. reflexivity. }
  assert (Hvalue : linkExpireTime (Server.link_values (Ekvdb.toPlain pairs')) =
                   parseInt (Some (toWellFormed (jsprim_toString exp)))).
  { unfold Server.link_values. cbn [linkExpireTime]. rewrite Hexp. reflexivity. }
  split_and!; auto.
  - intros n -> Hn Hm. cbn [plus_number] in Hsum. rewrite (to_double_safe n Hn) in Hsum.
    change Server.thirtyDaysInSeconds with 2592000 in Hsum.
    rewrite (to_double_safe _ Hm) in Hsum. injection Hsum as <-.
    cbn [jsprim_toString jsnum_toString] in Hvalue, Hexp.
    rewrite (number_toString_safe _ Hm), toWellFormed_decimal in Hvalue, Hexp.
    assert (Hparse : parseInt (Some (decimal (n + 2592000))) = NNum (n + 2592000)).
    { rewrite <- (number_toString_safe _ Hm). apply parseInt_number_toString_safe. exact Hm. }
    split; [rewrite Hvalue; exact Hparse|].
    intros Hms. unfold Server.link_values. cbn [linkExpireTimeHuman].
    rewrite Hexp, Hparse. cbn [unixToJsTime]. apply to_double_safe. exact Hms.
  - intros ->. cbn [plus_number] in Hsum. injection Hsum as <-.
    rewrite Hvalue. split; [reflexivity|].
    unfold Server.link_values. cbn [linkExpireTimeHuman]. rewrite Hexp. reflexivity.
Qed.

End linking_extras.

Section linking_twice.
Context `{Platform} `{!PlatformLaws}.

Lemma truthy_google_sub auth :
  Server.truthy (auth_google auth) = true -> exists sub, Server.google_sub auth = Ok sub.
Proof.
  destruct auth as [e|k|google]; cbn; try discriminate.
  destruct google as [|b|n|t|s|items|members]; cbn; try discriminate; intros _;
    try (eexists; reflexivity).
  destruct (member "sub" members); eexists; reflexivity.
Qed.


(** The store part run again on the rows it has left. *)
Lemma link_account_again key sub username iat (w0 w1 w1' w2 : World Table) out :
  link_account key sub username iat w0 = (Ok tt, w1) ->
  rows (db w1') = rows (db w1) ->
  link_account key sub username iat w1' = (out, w2) ->
  rows (db w2) = rows (db w1) /\
  (out = Ok tt -> last (trace w2) = last (trace w1)).
Proof.
  intros Hfirst Hrows Hsecond.
  destruct (link_account_done key sub username iat _ _ Hfirst)
    as (plain & iatv & exp & r1 & r2 & pairs' & -> & -> & Hsum & Hk & Hf1 & Hiv1 & Hval1
        & Hf2 & Hiv2 & Hval2 & Hred & _ & Hlast).
  unfold link_account in Hsecond.
  apply bind_inv in Hsecond as [(pairs2 & wa & Hg & Hrest)|(e & Hg & ->)].
  2:{ destruct (getPairs_table key _ _ _ _ Hg) as (Hra & _).
      split; [congruence|discriminate]. }
  destruct (getPairs_table key _ _ _ _ Hg) as (Hra & _).
  rewrite <- Hrows in Hf1, Hf2.
  pose proof (getPairs_sealed_row key sub _ _ _ _ _ _ Hk Hiv1 Hval1 Hf1 Hg) as Hp1.
  pose proof (getPairs_sealed_row key sub _ _ _ _ _ _ Hk Hiv2 Hval2 Hf2 Hg) as Hp2.
  rewrite <- Hra in Hf1, Hf2.
  apply bind_inv in Hrest as [([] & wb & Hs1 & Hrest)|(e & Hs1 & ->)].
  2:{ pose proof (setValue_same_value key _ _ _ _ _ _ _ _ _ Hf1 Hval1 Hp1 eq_refl Hs1) as Hrb.
      split; [congruence|discriminate]. }
  pose proof (setValue_same_value key _ _ _ _ _ _ _ _ _ Hf1 Hval1 Hp1 eq_refl Hs1) as Hrb.
  rewrite bind_lift_ok, Hsum, bind_lift_ok in Hrest. rewrite <- Hrb in Hf2.
  apply bind_inv in Hrest as [([] & wc & Hs2 & Hrest)|(e & Hs2 & ->)].
  2:{ pose proof (setValue_same_value key _ _ _ _ _ _ _ _ _ Hf2 Hval2 Hp2 eq_refl Hs2) as Hrc.
      split; [congruence|discriminate]. }
  pose proof (setValue_same_value key _ _ _ _ _ _ _ _ _ Hf2 Hval2 Hp2 eq_refl Hs2) as Hrc.
  apply bind_inv in Hrest as [(pairs3 & wd & Hg3 & Hrest)|(e & Hg3 & ->)].
  2:{ destruct (getPairs_table key _ _ _ _ Hg3) as (Hrd & _).
      split; [congruence|discriminate]. }
  destruct (getPairs_table key _ _ _ _ Hg3) as (Hrd & _ & _ & _ & Hred3).
  specialize (Hred3 pairs3 eq_refl).
  assert (Hsame : rows (db wc) = rows (db w1)) by congruence.
  rewrite Hsame, Hred in Hred3. injection Hred3 as <-.
  unfold Server.sendJson in Hrest. rewrite bind_emit in Hrest. unfold ret in Hrest.
  injection Hrest as <- <-. cbn [db trace].
  split; [congruence|]. intros _. rewrite Hlast. apply last_snoc.
Qed.

(** X20.  Linking is idempotent.  In either variant, after a linking
    request that completed, the same request again leaves every row of the
    table as it is, however it ends: it rewrites the two records with the
    ciphertexts they already carry, under the IVs they already have.  If
    it passes the signature check and completes, it answers what the first
    request answered. *)
Theorem linking_idempotent (v : Variant) auth (body : string)
    (w w1 w2 : World Table) (out : Res unit) :
  linking_handler v auth body w = (Ok tt, w1) ->
  linking_handler v auth body w1 = (out, w2) ->
  rows (db w2) = rows (db w1) /\
  (forall pem,
     Server.truthy (auth_google auth) = true ->
     https_get "broad-shibboleth-prod.appspot.com" (public_key_path v) = (200%nat, pem) ->
     jwt_verify body pem = None ->
     out = Ok tt ->
     last (trace w2) = last (trace w1)).
Proof.
  intros Hfirst Hsecond.
  assert (Hconfig : config w1 = config w).
  { destruct (handler_appends v auth body _ _ _ Hfirst) as (evs & _ & _ & Hc). exact Hc. }
  assert (Hkey : forall key, store_key v w1 = Some key -> store_key v w = Some key).
  { intros key. destruct v; cbn; rewrite ?Hconfig; auto. }
  assert (Hboth : forall key payload sub username pem,
            Server.truthy (auth_google auth) = true ->
            store_key v w1 = Some key ->
            Server.parse_payload body = Some payload ->
            Server.google_sub auth = Ok sub ->
            prop payload "eraCommonsUsername" = Ok username ->
            https_get "broad-shibboleth-prod.appspot.com" (public_key_path v) =
              (200%nat, pem) ->
            jwt_verify body pem = None ->
            rows (db w2) = rows (db w1) /\
            (out = Ok tt -> last (trace w2) = last (trace w1))).
  { intros key payload sub username pem Ht Hk1 Hp Hsub Huser Hget Hver.
    rewrite (linking_run_store v auth body w key payload sub username pem)
      in Hfirst by auto.
    rewrite (linking_run_store v auth body w1 key payload sub username pem)
      in Hsecond by auto.
    exact (link_account_again key sub username _ _ w1
             (after w1 [EvHttpsGet "broad-shibboleth-prod.appspot.com" (public_key_path v);
                        EvVerify body pem])
             w2 out Hfirst eq_refl Hsecond). }
  split.
  - destruct (Server.truthy (auth_google auth)) eqn:Ht.
    2:{ rewrite (handler_unauthenticated v auth body w1 Ht) in Hsecond.
        injection Hsecond as _ <-. reflexivity. }
    destruct (linking_run_inv v auth body w1 w2 out Ht Hsecond)
      as [(Hrows & _)
         |(key & payload & sub & username & pem & Hk1 & Hp & Hsub & Huser & Hget & Hver & _)];
      [exact Hrows|].
    exact (proj1 (Hboth key payload sub username pem eq_refl Hk1 Hp Hsub Huser Hget Hver)).
  - intros pem Ht Hget Hver Hout.
    destruct (linking_success_inv v auth body w w1 pem Ht Hget Hver Hfirst)
      as (key & payload & sub & username & iat & exp & pairs & pairs' & w0 & wa & wb & wc & wd
          & Hk0 & Hp & Hsub & Huser & _).
    assert (Hk1 : store_key v w1 = Some key).
    { destruct v; cbn in Hk0 |- *; rewrite ?Hconfig; exact Hk0. }
    exact (proj2 (Hboth key payload sub username pem Ht Hk1 Hp Hsub Huser Hget Hver) Hout).
Qed.

(** X17.  What [/me] shows.  In either variant (the singleton one with
    its configuration loaded), the handler answers a caller without a
    Google identity with 401 and the authentication context and sends no
    statement; for a caller with one it sends one statement, the select of
    the caller's rows, changes no row, and what it answers has, under each
    key, the plaintext of the caller's last row of that key and nothing of
    any other account. *)
Theorem me_answers_own_rows (v : Variant) auth (w : World Table) (key : list byte) :
  store_key v w = Some key ->
  if Server.truthy (auth_google auth) then
    exists sub out w',
      Server.google_sub auth = Ok sub /\
      me_handler v auth w = (out, w') /\
      rows (db w') = rows (db w) /\
      trace w' = trace w ++ [EvQuery (SelectByUser sub)] /\
      out <> Ok None /\
      forall plain, out = Ok (Some plain) ->
        forall k,
          plain !! k =
          value <$> (last (List.filter (matches sub k) (rows (db w))) ≫= pair_of_row key)
  else
    me_handler v auth w = (Ok None, after w [EvStatus 401; EvSendJson (BodyAuth auth)]).
Proof.
  intros Hkey.
  assert (Hme : me_handler v auth w = MiddlewareApp.getMe key auth w).
  { destruct v as [key' envName|]; cbn in Hkey |- *; [congruence|].
    destruct (config w) as [cfg|] eqn:Hcfg; [|discriminate]. injection Hkey as <-.
    unfold SingletonApp.getMe, MiddlewareApp.getMe.
    destruct (negb (Server.truthy (auth_google auth))); [reflexivity|].
    unfold bind at 1, Singleton.the_config. rewrite Hcfg. reflexivity. }
  rewrite Hme. unfold MiddlewareApp.getMe.
  destruct (Server.truthy (auth_google auth)) eqn:Ht; cbn [negb].
  2:{ unfold Server.sendAuthError, Server.status, Server.sendJson.
      rewrite bind_bind, bind_emit. unfold bind, emit, ret, after. cbn.
      rewrite <- app_assoc. reflexivity. }
  destruct (truthy_google_sub auth Ht) as [sub Hsub]. rewrite Hsub, bind_lift_ok.
  destruct (Ekvdb.getPairs key sub w) as [res w1] eqn:Hg.
  destruct (getPairs_table key _ _ _ _ Hg) as (Hrows & _ & _ & Htrace & _).
  unfold bind. rewrite Hg.
  destruct res as [pairs|e].
  - eexists sub, _, _. split_and!; [reflexivity|reflexivity|exact Hrows|exact Htrace| |].
    + discriminate.
    + intros plain [= <-] k. unfold Ekvdb.toPlain.
      rewrite lookup_fmap, (getPairs_lookup key _ _ _ _ k Hg). reflexivity.
  - eexists sub, _, _. split_and!; [reflexivity|reflexivity|exact Hrows|exact Htrace| |];
      discriminate.
Qed.

End linking_twice.

(** ** Linking requests that complete *)

Section progress.
Context `{Platform} `{!PlatformLaws}.
Variable key : list byte.

Lemma bind_run {A B} (m : M Table A) (f : A -> M Table B) w a w1 :
  m w = (Ok a, w1) -> bind m f w = f a w1.
Proof. intros Hm. unfold bind. rewrite Hm. reflexivity. Qed.

(** A row that carries a ciphertext under its own IV yields an entry with
    that IV. *)
Lemma sealed_pair_of_row r :
  valid_key key -> sealed key r ->
  exists p, pair_of_row key r = Some p /\ ivBase64 p = IV r.
Proof.
  intros Hk (plain & Hiv & Hval). unfold pair_of_row.
  pose proof (decipher_ciphertext key (IV r) plain Hk Hiv) as Hd.
  rewrite <- Hval in Hd. rewrite Hd. eexists. split; reflexivity.
Qed.

(** In a table with one row per user and key, a [where] clause on user
    and key finds at most one row. *)
Lemma unique_keys_filter t userId k :
  unique_keys t -> (length (List.filter (matches userId k) t) <= 1)%nat.
Proof.
  unfold unique_keys. induction t as [|r t IH]; intros Hu; [cbn; lia|].
  cbn [List.map] in Hu. inversion Hu as [|? ? Hnotin Hu']; subst.
  cbn [List.filter]. destruct (matches userId k r) eqn:Hm; [|exact (IH Hu')].
  destruct (List.filter (matches userId k) t) as [|r' rest] eqn:Hf; [cbn; lia|].
  exfalso. apply Hnotin.
  assert (Hin : In r' t /\ matches userId k r' = true).
  { apply filter_In. rewrite Hf. left. reflexivity. }
  destruct Hin as [Hin Hm'].
  apply matches_inv in Hm as [Hs Hk]. apply matches_inv in Hm' as [Hs' Hk'].
  unfold VStr in *. apply list_elem_of_In, in_map_iff. exists r'.
  split; [|exact Hin]. f_equal; congruence.
Qed.

Lemma filter_nil_existsb (q : Row -> bool) t : List.filter q t = [] -> existsb q t = false.
Proof.
  induction t as [|r t IH]; [reflexivity|]. cbn.
  destruct (q r); [discriminate|]. exact IH.
Qed.

(** A read of a table whose rows all carry a ciphertext under their own
    IV, over a driver that reports no error, returns. *)
Lemma getPairs_completes userId (w : World Table) :
  valid_key key -> Forall (sealed key) (rows (db w)) -> faults (db w) = [] ->
  exists pairs w',
    Ekvdb.getPairs key userId w = (Ok pairs, w') /\
    rows (db w') = rows (db w) /\ faults (db w') = [].
Proof.
  intros Hk Hall Hf. rewrite getPairs_table_eq. unfold next_fault. rewrite Hf.
  cbn [fst snd].
  destruct (reduce_rows_total key
              (List.filter (fun r => sql_eq userId (USER_ID r)) (rows (db w))) ∅)
    as [m Hm].
  { apply List.Forall_forall. intros r Hin. apply filter_In in Hin as [Hin _].
    rewrite List.Forall_forall in Hall.
    destruct (sealed_pair_of_row r Hk (Hall r Hin)) as (p & Hp & _).
    rewrite Hp. eauto. }
  rewrite Hm. eexists _, _. split; [reflexivity|]. split; reflexivity.
Qed.

(** A write of a string, with the entry a read of the table gives for
    the key, into a table that is in order, over a driver that reports no
    error, returns. *)
Lemma setValue_completes sub pairs k plain (w : World Table) :
  valid_key key -> store_ok key (rows (db w)) -> faults (db w) = [] ->
  pairs !! k =
    last (List.filter (matches (VStr sub) k) (rows (db w))) ≫= pair_of_row key ->
  exists w',
    Ekvdb.setValue key (VStr sub) pairs k (VStr plain) w = (Ok tt, w') /\
    faults (db w') = [].
Proof.
  intros Hk [Hu Hall] Hf Hlook.
  pose proof (unique_keys_filter (rows (db w)) (VStr sub) k Hu) as Hlen.
  unfold Ekvdb.setValue. cbv zeta.
  destruct (List.filter (matches (VStr sub) k) (rows (db w))) as [|r [|r' rest]] eqn:Hfilter;
    [| |cbn in Hlen; lia].
  - cbn in Hlook. rewrite Hlook. cbn [fmap option_fmap option_map truthy_opt].
    erewrite bind_run by apply generateIvBase64_eq.
    assert (Hiv : valid_iv (base64_encode (List.map (random_byte (rng w)) (seq 0 16)))).
    { eapply generateIvBase64_valid. apply (generateIvBase64_eq (S := Table)). }
    erewrite bind_run by (apply cipherValueToBase64_valid; assumption).
    unfold bind, Ekvdb.query, Ekvdb.run. cbn [run_insert engine db]. unfold insert, next_fault.
    cbn [faults rows db]. rewrite Hf. unfold VStr in *.
    rewrite (filter_nil_existsb _ _ Hfilter). cbn.
    eexists. split; reflexivity.
  - assert (Hin : In r (rows (db w)) /\ matches (VStr sub) k r = true).
    { apply filter_In. rewrite Hfilter. left. reflexivity. }
    destruct Hin as [Hin _].
    rewrite List.Forall_forall in Hall.
    destruct (sealed_pair_of_row r Hk (Hall r Hin)) as (p & Hp & Hivp).
    destruct (Hall r Hin) as (plain0 & Hiv & _).
    cbn in Hlook. rewrite Hp in Hlook. rewrite Hlook.
    cbn [fmap option_fmap option_map truthy_opt default]. rewrite Hivp.
    rewrite (valid_iv_truthy _ Hiv). rewrite bind_ret.
    erewrite bind_run by (apply cipherValueToBase64_valid; assumption).
    unfold bind, Ekvdb.query, Ekvdb.run. cbn [run_update engine db]. unfold update, next_fault.
    cbn [faults rows db]. rewrite Hf, Hfilter. cbn.
    eexists. split; reflexivity.
Qed.

(** The store part of a linking request, with a string username and an
    expiry that can be computed, returns on such a table. *)
Lemma link_account_completes sub username iatv exp (w : World Table) :
  valid_key key -> store_ok key (rows (db w)) -> faults (db w) = [] ->
  plus_number iatv Server.thirtyDaysInSeconds = Ok exp ->
  exists w', link_account key (VStr sub) (VStr username) (Ok iatv) w = (Ok tt, w').
Proof.
  intros Hk Hok Hf Hexp. unfold link_account.
  destruct (getPairs_completes (VStr sub) w Hk (proj2 Hok) Hf)
    as (pairs & w1 & Hg1 & Hr1 & Hf1).
  erewrite bind_run by exact Hg1.
  pose proof (getPairs_snapshot_of key _ _ _ _ Hg1) as Hsnap1.
  pose proof (getPairs_lookup key _ _ _ _ "linkedNihUsername"%string Hg1) as Hlook1.
  pose proof (getPairs_lookup key _ _ _ _ "linkExpireTime"%string Hg1) as Hlook2.
  rewrite <- Hr1 in Hok, Hlook1, Hlook2.
  destruct (setValue_completes sub pairs "linkedNihUsername" username w1 Hk Hok Hf1 Hlook1)
    as (w2 & Hs1 & Hf2).
  erewrite bind_run by exact Hs1.
  rewrite bind_lift_ok, Hexp, bind_lift_ok.
  destruct (setValue_table key _ _ _ _ _ _ _ Hs1) as (Hup1 & _ & _).
  pose proof (upsert_rows_store_ok key _ _ _ _ _ _ Hup1 Hsnap1 Hok) as Hok2.
  pose proof (upsert_rows_snapshot_of key _ _ _ _ _ _ _ _ Hup1 Hsnap1) as Hsnap2.
  assert (Hlook2' : pairs !! "linkExpireTime"%string =
            last (List.filter (matches (VStr sub) "linkExpireTime") (rows (db w2)))
              ≫= pair_of_row key).
  { rewrite Hlook2. f_equal. f_equal. symmetry.
    eapply upsert_rows_filter; [exact Hup1| |reflexivity].
    intros r. apply matches_other_key. discriminate. }
  destruct (setValue_completes sub pairs "linkExpireTime" (jsprim_toString exp) w2
              Hk Hok2 Hf2 Hlook2') as (w3 & Hs2 & Hf3).
  erewrite bind_run by exact Hs2.
  destruct (setValue_table key _ _ _ _ _ _ _ Hs2) as (Hup2 & _ & _).
  pose proof (upsert_rows_store_ok key _ _ _ _ _ _ Hup2 Hsnap2 Hok2) as Hok3.
  destruct (getPairs_completes (VStr sub) w3 Hk (proj2 Hok3) Hf3)
    as (pairs' & w4 & Hg2 & _).
  erewrite bind_run by exact Hg2.
  unfold Server.sendJson. rewrite bind_emit. eexists. reflexivity.
Qed.

End progress.

Section expiry_claim.
Context `{Platform} `{!PlatformLaws}.


End expiry_claim.

(** ** The start of a request: permission, configuration, cipher, store *)

Section startup_facts.
Context `{Platform} `{Cloud}.
Import Startup.

(** X19.  The reload route of the middleware variant never answers 403.
    [hasPermission] returns [[null, true]] or throws: where the permission
    is not among the granted ones, building the error object evaluates
    the undeclared [requiredPerm] and throws a [ReferenceError] instead of
    returning [[err, false]].  So the handler of [/.src] either calls
    [next()] with [isReloadOkay] set, which it does only if the permission
    service answered 200 with a list that holds the permission, or
    throws. *)
Theorem post_src_never_forbids (authorization : option string)
    (l : MiddlewareApp.Locals) :
  (forall permissionName err hasPerm,
     MiddlewareApp.hasPermission authorization permissionName = Done (err, hasPerm) ->
     err = None /\ hasPerm = true) /\
  (forall err,
     MiddlewareApp.post_src authorization l <> Done (MiddlewareApp.SrcForbidden err)) /\
  (forall l',
     MiddlewareApp.post_src authorization l = Done (MiddlewareApp.SrcNext l') ->
     MiddlewareApp.isReloadOkay l' = true /\
     MiddlewareApp.config l' = MiddlewareApp.config l /\
     MiddlewareApp.crypto l' = MiddlewareApp.crypto l /\
     MiddlewareApp.ekvdb l' = MiddlewareApp.ekvdb l /\
     exists text body granted,
       MiddlewareApp.testIamPermissions authorization "appengine.applications.update" =
         Some (200%nat, text) /\
       JSON_parse text = Some body /\
       prop body "permissions" = Ok granted /\
       lodash_indexOf "appengine.applications.update" granted <> -1) /\
  (forall text body granted,
     MiddlewareApp.testIamPermissions authorization "appengine.applications.update" =
       Some (200%nat, text) ->
     JSON_parse text = Some body ->
     prop body "permissions" = Ok granted ->
     lodash_indexOf "appengine.applications.update" granted = -1 ->
     MiddlewareApp.post_src authorization l = Failed (ReferenceError "requiredPerm")).
Proof.
  assert (Hperm : forall permissionName err hasPerm,
            MiddlewareApp.hasPermission authorization permissionName = Done (err, hasPerm) ->
            err = None /\ hasPerm = true /\
            exists text body granted,
              MiddlewareApp.testIamPermissions authorization permissionName =
                Some (200%nat, text) /\
              JSON_parse text = Some body /\
              prop body "permissions" = Ok granted /\
              lodash_indexOf permissionName granted <> -1).
  { intros permissionName err hasPerm. unfold MiddlewareApp.hasPermission.
    destruct (MiddlewareApp.testIamPermissions authorization permissionName)
      as [[st text]|]; [|discriminate]. cbn [fst snd].
    destruct (Nat.eqb_spec st 200) as [->|]; cbn [negb]; [|discriminate].
    destruct (JSON_parse text) as [body|] eqn:Hbody; [|discriminate].
    destruct (prop body "permissions") as [granted|e] eqn:Hgranted; cbn; [|discriminate].
    destruct (Z.eqb_spec (lodash_indexOf permissionName granted) (-1)) as [|Hfound];
      cbn [negb]; [discriminate|].
    intros [= <- <-]. split_and!; auto. exists text, body, granted. auto. }
  split_and!.
  - intros permissionName err hasPerm Hp. destruct (Hperm _ _ _ Hp) as (? & ? & _). auto.
  - intros err. unfold MiddlewareApp.post_src.
    destruct (MiddlewareApp.hasPermission authorization "appengine.applications.update")
      as [[err' hasPerm]|f] eqn:Hp; cbn; [|discriminate].
    destruct (Hperm _ _ _ Hp) as (_ & -> & _). discriminate.
  - intros l'. unfold MiddlewareApp.post_src.
    destruct (MiddlewareApp.hasPermission authorization "appengine.applications.update")
      as [[err' hasPerm]|f] eqn:Hp; cbn; [|discriminate].
    destruct (Hperm _ _ _ Hp) as (_ & -> & Hgranted). intros [= <-]. cbn. auto.
  - intros text body granted Hreq Hbody Hgranted Hmissing.
    unfold MiddlewareApp.post_src, MiddlewareApp.hasPermission.
    rewrite Hreq. cbn [fst snd Nat.eqb negb]. rewrite Hbody, Hgranted. cbn.
    rewrite Hmissing. reflexivity.
Qed.

(** The socket the pool of an environment's store connects to. *)
Lemma environment_socket envName (password : jsval) :
  exists options,
    EkvdbInternals.pool_options
      {[ "instanceConnectionName"%string :=
           VStr (MiddlewareApp.instanceConnectionName envName);
         "password"%string := password ]} = Ok options /\
    options !! "socketPath"%string =
    Some (VStr (String.append "/cloudsql/" (MiddlewareApp.instanceConnectionName envName))).
Proof.
  unfold EkvdbInternals.pool_options, EkvdbInternals.field.
  rewrite lookup_insert_eq. cbn [default from_option id template json_toString VStr].
  eexists. split; [reflexivity|]. apply lookup_union_Some_raw. right.
  split; reflexivity.
Qed.

(** X21.  The environments of the middleware variant are kept apart.  If
    the three middlewares a route of an environment starts with all call
    [next()], then the cipher's key is [Buffer.from] of
    [config[envName].encryptionKeyBase64], the password of the store is
    [config[envName].dbPassword], and its pool connects to the socket of
    that environment's instance, the development one for [dev] and for no
    other name; the configuration was fetched for this request, and it
    has a section of the environment's name. *)
Theorem prepare_environment (envName : string) (l : MiddlewareApp.Locals) :
  fst (MiddlewareApp.prepare envName) = Done l ->
  (exists parsed section text password key,
     fst (fetch_config (Some MiddlewareApp.configGcsUrl)) = Done parsed /\
     prop parsed envName = Ok section /\
     prop_val section "encryptionKeyBase64" = Ok text /\
     prop_val section "dbPassword" = Ok password /\
     Buffer_from text = Ok key /\
     (forall s, text = VStr s -> key = base64_decode s) /\
     MiddlewareApp.config l = Some parsed /\
     MiddlewareApp.crypto l = Some key /\
     exists store,
       MiddlewareApp.ekvdb l = Some store /\
       MiddlewareApp.store_crypto store = key /\
       MiddlewareApp.dbOpts store !! "password"%string = Some password /\
       exists options,
         EkvdbInternals.pool_options (MiddlewareApp.dbOpts store) = Ok options /\
         options !! "socketPath"%string =
           Some (VStr (String.append "/cloudsql/"
                         (MiddlewareApp.instanceConnectionName envName)))) /\
  (MiddlewareApp.instanceConnectionName envName =
     "broad-dsde-dev:us-central1:thurloe-cloudsql-dev201-9e45a2fc870e72f2"%string <->
   envName = "dev"%string) /\
  snd (MiddlewareApp.prepare envName) = snd (fetch_config (Some MiddlewareApp.configGcsUrl)) /\
  (forall parsed,
     fst (fetch_config (Some MiddlewareApp.configGcsUrl)) = Done parsed ->
     prop parsed envName = Ok VUndefined ->
     False).
Proof.
  unfold MiddlewareApp.prepare, MiddlewareApp.withConfig. cbn [MiddlewareApp.has_config
    MiddlewareApp.fresh MiddlewareApp.config].
  destruct (fetch_config (Some MiddlewareApp.configGcsUrl)) as [[parsed|f] reqs] eqn:Hfetch;
    cbn [fst snd and_then]; [|discriminate].
  unfold MiddlewareApp.withCrypto, MiddlewareApp.has_config. cbn [MiddlewareApp.config].
  destruct (truthy_json parsed) eqn:Htruthy; cbn [negb]; [|discriminate].
  unfold MiddlewareApp.config_of. cbn [MiddlewareApp.config].
  destruct (prop parsed envName) as [section|e] eqn:Hsection; cbn; [|discriminate].
  destruct (prop_val section "encryptionKeyBase64") as [text|e] eqn:Htext; cbn;
    [|discriminate].
  destruct (Buffer_from text) as [key|e] eqn:Hkey; cbn; [|discriminate].
  unfold MiddlewareApp.withEkvdb, MiddlewareApp.has_config, MiddlewareApp.config_of.
  cbn [MiddlewareApp.config MiddlewareApp.crypto]. rewrite Htruthy, Hsection. cbn.
  destruct (prop_val section "dbPassword") as [password|e] eqn:Hpassword; cbn;
    [|discriminate].
  intros [= <-]. cbn. split_and!.
  - exists parsed, section, text, password, key. split_and!; auto.
    + intros s ->. cbn in Hkey. congruence.
    + eexists. split_and!; [reflexivity|reflexivity| |apply environment_socket].
      cbn [MiddlewareApp.dbOpts].
      rewrite lookup_insert_ne by discriminate. apply lookup_singleton_Some. auto.
  - unfold MiddlewareApp.instanceConnectionName.
    destruct (String.eqb_spec envName "dev"); split; auto; intros Hc;
      first [discriminate | contradiction].
  - reflexivity.
  - intros parsed' [= <-] Hnone. rewrite Hnone in Hsection. injection Hsection as <-.
    discriminate.
Qed.


Lemma singleton_socket (password : jsval) :
  exists options,
    EkvdbInternals.pool_options {[ "password"%string := password ]} = Ok options /\
    options !! "socketPath"%string = Some (VStr "/cloudsql/undefined").
Proof.
  unfold EkvdbInternals.pool_options, EkvdbInternals.field.
  rewrite lookup_singleton_ne by discriminate.
  cbn [default from_option id template].
  eexists. split; [reflexivity|]. apply lookup_union_Some_raw. right.
  split; reflexivity.
Qed.

(** [withConfig] on a process that has its configuration. *)
Lemma withConfig_configured (p : SingletonApp.Process) c :
  SingletonApp.config p = Some c ->
  SingletonApp.withConfig p =
  match SingletonApp.crypto p with
  | Some key =>
      match SingletonApp.ekvdb p with
      | Some _ => (Done tt, p)
      | None =>
          (Done tt,
           {| SingletonApp.config := Some c; SingletonApp.crypto := Some key;
              SingletonApp.ekvdb :=
                Some {| SingletonApp.store_crypto := key;
                        SingletonApp.dbOpts :=
                          {[ "password"%string := SingletonApp.config_prop c "dbPassword" ]} |};
              SingletonApp.requests := SingletonApp.requests p |})
      end
  | None =>
      match Buffer_from (SingletonApp.config_prop c "encryptionKeyBase64") with
      | Throw e => (Failed (Thrown e), p)
      | Ok key =>
          match SingletonApp.ekvdb p with
          | Some store =>
              (Done tt,
               {| SingletonApp.config := Some c; SingletonApp.crypto := Some key;
                  SingletonApp.ekvdb := Some store;
                  SingletonApp.requests := SingletonApp.requests p |})
          | None =>
              (Done tt,
               {| SingletonApp.config := Some c; SingletonApp.crypto := Some key;
                  SingletonApp.ekvdb :=
                    Some {| SingletonApp.store_crypto := key;
                            SingletonApp.dbOpts :=
                              {[ "password"%string :=
                                   SingletonApp.config_prop c "dbPassword" ]} |};
                  SingletonApp.requests := SingletonApp.requests p |})
          end
      end
  end.
Proof.
  intros Hc. unfold SingletonApp.withConfig, SingletonApp.load_config. rewrite Hc.
  unfold SingletonApp.load_crypto, SingletonApp.load_ekvdb.
  destruct (SingletonApp.crypto p) as [key|] eqn:Hk.
  - rewrite Hc, Hk. destruct (SingletonApp.ekvdb p); reflexivity.
  - rewrite Hc. destruct (Buffer_from _) as [key|e]; [|reflexivity]. cbn.
    destruct (SingletonApp.ekvdb p); reflexivity.
Qed.

(** X22.  What [withConfig] of the singleton variant loads.  On a process
    that has loaded nothing yet, a call that ends with [next()] has
    fetched and parsed the configuration, read [.authkey] once, and left:
    [config] with [authKey] the trimmed text of [.authkey], or [undefined]
    if the file cannot be read; the cipher's key, [Buffer.from] of
    [config.encryptionKeyBase64]; and a store with that key whose only
    option is the password, so that its pool connects to
    [/cloudsql/undefined].  A call that throws either has no [config]
    (the fetch or the parse failed: the next request starts over) or has
    [config] but no cipher, because there is no key to decode. *)
Theorem withConfig_loads (p p' : SingletonApp.Process) (o : Outcome unit) :
  SingletonApp.config p = None ->
  SingletonApp.crypto p = None ->
  SingletonApp.ekvdb p = None ->
  SingletonApp.withConfig p = (o, p') ->
  match o with
  | Done _ =>
      exists parsed key store,
        fst (fetch_config (process_env "CONFIG_GCS_URL")) = Done parsed /\
        SingletonApp.config p' =
          Some {| SingletonApp.parsed := parsed;
                  SingletonApp.authKey := trim <$> readFile ".authkey" |} /\
        Buffer_from
          (SingletonApp.config_prop
             {| SingletonApp.parsed := parsed;
                SingletonApp.authKey := trim <$> readFile ".authkey" |}
             "encryptionKeyBase64") = Ok key /\
        SingletonApp.crypto p' = Some key /\
        SingletonApp.ekvdb p' = Some store /\
        SingletonApp.store_crypto store = key /\
        dom (SingletonApp.dbOpts store) = {[ "password"%string ]} /\
        (exists options,
           EkvdbInternals.pool_options (SingletonApp.dbOpts store) = Ok options /\
           options !! "socketPath"%string = Some (VStr "/cloudsql/undefined")) /\
        SingletonApp.requests p' =
          SingletonApp.requests p ++
          snd (fetch_config (process_env "CONFIG_GCS_URL")) ++ [ReadFile ".authkey"]
  | Failed f =>
      SingletonApp.crypto p' = None /\ SingletonApp.ekvdb p' = None /\
      ((SingletonApp.config p' = None /\
        fst (fetch_config (process_env "CONFIG_GCS_URL")) = Failed f) \/
       (exists c e,
          SingletonApp.config p' = Some c /\
          Buffer_from (SingletonApp.config_prop c "encryptionKeyBase64") = Throw e /\
          f = Thrown e))
  end.
Proof.
  intros Hc Hk He. unfold SingletonApp.withConfig, SingletonApp.load_config. rewrite Hc.
  destruct (fetch_config (process_env "CONFIG_GCS_URL")) as [[parsed|f] reqs] eqn:Hfetch.
  2:{ intros [= <- <-]. cbn. auto. }
  unfold SingletonApp.load_crypto. cbn [SingletonApp.crypto SingletonApp.config]. rewrite Hk.
  destruct (Buffer_from _) as [key|e] eqn:Hkey.
  2:{ intros [= <- <-]. cbn. split_and!; auto. right. eauto. }
  unfold SingletonApp.load_ekvdb. cbn [SingletonApp.crypto SingletonApp.config
    SingletonApp.ekvdb]. rewrite He.
  intros [= <- <-]. cbn. eexists parsed, key, _.
  split_and!; try reflexivity; first [exact Hkey | apply dom_singleton_L | apply singleton_socket].
Qed.

(** X23.  The configuration is fetched once and kept, usable or not.
    Once [config] is set, no later call of [withConfig] asks anything of
    the outside, and [config] stays what it is.  If the cipher could not
    be built from it, every later call throws the same error and changes
    nothing: the process does not recover.  If cipher and store are there,
    every later call is [next()] and changes nothing. *)
Theorem withConfig_never_refetches (n : nat) (p : SingletonApp.Process)
    (c : SingletonApp.ConfigObject) :
  SingletonApp.config p = Some c ->
  let '(outcomes, p') := SingletonApp.withConfig_times n p in
  SingletonApp.requests p' = SingletonApp.requests p /\
  SingletonApp.config p' = Some c /\
  (forall e,
     SingletonApp.crypto p = None ->
     Buffer_from (SingletonApp.config_prop c "encryptionKeyBase64") = Throw e ->
     outcomes = repeat (Failed (Thrown e)) n /\ p' = p) /\
  (SingletonApp.crypto p <> None -> SingletonApp.ekvdb p <> None ->
   outcomes = repeat (Done tt) n /\ p' = p).
Proof.
  revert p. induction n as [|n IH]; intros p Hc; cbn [SingletonApp.withConfig_times].
  - split_and!; auto.
  - rewrite (withConfig_configured p c Hc).
    destruct (SingletonApp.crypto p) as [key|] eqn:Hk.
    + destruct (SingletonApp.ekvdb p) as [store|] eqn:He.
      * specialize (IH p Hc). destruct (SingletonApp.withConfig_times n p) as [os p'].
        destruct IH as (Hr & Hc' & _ & Hloaded). split_and!; auto.
        -- intros e [=].
        -- intros _ _. rewrite Hk, He in Hloaded.
           destruct Hloaded as [-> ->]; [discriminate..|]. auto.
      * match goal with
        | |- context [SingletonApp.withConfig_times n ?q] =>
            specialize (IH q eq_refl); destruct (SingletonApp.withConfig_times n q) as [os p']
        end.
        destruct IH as (Hr & Hc' & _). cbn in Hr. split_and!; auto.
        -- intros e [=].
        -- intros _ Hne. contradiction.
    + destruct (Buffer_from (SingletonApp.config_prop c "encryptionKeyBase64"))
        as [key|e] eqn:Hkey.
      * destruct (SingletonApp.ekvdb p) as [store|] eqn:He;
          match goal with
          | |- context [SingletonApp.withConfig_times n ?q] =>
              specialize (IH q eq_refl);
              destruct (SingletonApp.withConfig_times n q) as [os p']
          end;
          destruct IH as (Hr & Hc' & _); cbn in Hr; split_and!; auto;
          try (intros e _ [=]); intros Hne; contradiction.
      * specialize (IH p Hc). destruct (SingletonApp.withConfig_times n p) as [os p'].
        destruct IH as (Hr & Hc' & Hstuck & _). split_and!; auto.
        -- intros e' _ [= <-]. destruct (Hstuck e Hk eq_refl) as [-> ->]. auto.
        -- intros Hne. contradiction.
Qed.


(** X24.  The static secret is the trimmed text of [.authkey].  After the
    first [withConfig] of a process has ended with [next()], with the key
    of the cipher given as text, the cipher's key is the decoded text, the
    resolver does not throw on any header, and it accepts a [key] header
    exactly when [.authkey] could be read, is not blank, and its trimmed
    text equals the credential; if the file is missing or blank, key
    authorization is disabled. *)
Theorem authkey_file_is_the_secret {S : Type} (p' : SingletonApp.Process) (cfg : Config)
    (authorization : option string) (w : World S) :
  SingletonApp.withConfig SingletonApp.started = (Done tt, p') ->
  world_config p' = Some cfg ->
  config w = Some cfg ->
  authKey cfg = trim <$> readFile ".authkey" /\
  SingletonApp.crypto p' = Some (base64_decode (encryptionKeyBase64 cfg)) /\
  (exists auth w', Singleton.withAuth authorization w = (Ok auth, w')) /\
  (scheme authorization = Some "key"%string ->
   ((exists key, Singleton.withAuth authorization w = (Ok (AuthKey key), w)) <->
    (exists text,
       readFile ".authkey" = Some text /\ trim text <> EmptyString /\
       credential authorization = Some (trim text))) /\
   (truthy_opt (trim <$> readFile ".authkey") = false ->
    Singleton.withAuth authorization w =
    (Ok (AuthErr (KeyAuthorizationDisabled (scheme_token authorization)
                    (credential authorization)
                    (trim (default EmptyString authorization)))), w))).
Proof.
  intros Hload Hview Hcfg.
  pose proof (withConfig_loads SingletonApp.started p' (Done tt) eq_refl eq_refl eq_refl Hload)
    as (parsed & key & store & _ & Hc & Hkey & Hk & He & _).
  unfold world_config in Hview. rewrite Hc, Hk, He in Hview.
  destruct (SingletonApp.config_prop _ "encryptionKeyBase64") as [| |[| | | |s| |]] eqn:Hprop;
    try discriminate.
  injection Hview as <-. cbn [authKey encryptionKeyBase64 SingletonApp.authKey].
  cbn in Hkey. injection Hkey as <-.
  split_and!; auto.
  - eapply singleton_withAuth_total. exact Hcfg.
  - intros Hscheme. rewrite singleton_withAuth_eq, Hscheme, Hcfg.
    cbn [String.eqb Ascii.eqb Bool.eqb authKey]. split.
    + destruct (readFile ".authkey") as [text|]; cbn [fmap option_fmap option_map truthy_opt].
      * unfold truthy_string.
        destruct (String.eqb_spec (trim text) EmptyString) as [Hblank|Hfull]; cbn [negb].
        { split; [intros [k [=]]|intros (text' & [= <-] & Hne & _); contradiction]. }
        destruct (bool_decide_reflect (credential authorization = Some (trim text)))
          as [Heq|Hneq]; cbn [negb].
        { split; [intros _; eauto|intros _; eauto]. }
        split; [intros [k [=]]|intros (text' & [= <-] & _ & Heq); contradiction].
      * cbn [negb]. split; [intros [k [=]]|intros (text' & [=] & _)].
    + intros Hoff. rewrite Hoff. reflexivity.
Qed.

End startup_facts.

(** ** The service as a whole *)

Section resolver_total.
Context `{Platform} {S : Type} `{!SqlEngine S}.

(** X25.  When the resolvers throw.  The middleware variant's resolver
    never throws.  The singleton variant's throws exactly on a header of
    the scheme [key] while the module-level [config] is still unset; on
    every other header, and once [config] is set, it answers. *)
Theorem withAuth_throws_exactly (authorization : option string) (w : World S) :
  (exists auth w', Middleware.withAuth authorization w = (Ok auth, w')) /\
  ((exists e w', Singleton.withAuth authorization w = (Throw e, w')) <->
   scheme authorization = Some "key"%string /\ config w = None) /\
  (~ (scheme authorization = Some "key"%string /\ config w = None) ->
   exists auth w', Singleton.withAuth authorization w = (Ok auth, w')).
Proof.
  rewrite middleware_withAuth_eq, singleton_withAuth_eq.
  destruct (scheme authorization) as [sch|].
  - split; [destruct (String.eqb sch "bearer"); eauto|].
    destruct (String.eqb_spec sch "key") as [->|Hne].
    + destruct (config w) as [cfg|]; split.
      * split; [intros (e & w' & Hrun); discriminate Hrun|intros [_ Hnone]; discriminate Hnone].
      * eauto.
      * split; eauto.
      * intros Hnot. exfalso. apply Hnot. auto.
    + split.
      * split.
        -- destruct (String.eqb sch "bearer"); intros (e & w' & Hrun); discriminate Hrun.
        -- intros [Hkey _]. injection Hkey as ->. contradiction.
      * intros _. destruct (String.eqb sch "bearer"); eauto.
  - split; [eauto|]. split.
    + split; [intros (e & w' & Hrun); discriminate Hrun|intros [Hkey _]; discriminate Hkey].
    + eauto.
Qed.

End resolver_total.

Section service.
Context `{Platform} `{!PlatformLaws}.

Lemma untouched_nil userId t : untouched userId [] t = t.
Proof.
  unfold untouched. cbn [existsb].
  induction t as [|r t IH]; [reflexivity|]. cbn [List.filter].
  rewrite andb_false_r. cbn [negb]. rewrite IH. reflexivity.
Qed.

(** The [/me] handlers change neither the rows nor the configuration. *)
Lemma me_handler_keeps (v : Variant) auth (w w' : World Table) out :
  me_handler v auth w = (out, w') ->
  rows (db w') = rows (db w) /\ config w' = config w.
Proof.
  intros Hrun. split.
  - assert (Hf : frames VUndefined [] (me_handler v auth)).
    { destruct v as [key envName|];
        [unfold me_handler, MiddlewareApp.getMe|unfold me_handler, SingletonApp.getMe];
        repeat frames_step. }
    specialize (Hf _ _ _ Hrun). rewrite !untouched_nil in Hf. exact Hf.
  - assert (Ha : appends (fun _ => True) (me_handler (S := Table) v auth)).
    { destruct v as [key envName|];
        [unfold me_handler, MiddlewareApp.getMe|unfold me_handler, SingletonApp.getMe];
        appends_auto; exact I. }
    destruct (Ha _ _ _ Hrun) as (evs & _ & _ & Hc). exact Hc.
Qed.

Lemma store_key_config (v : Variant) (w w' : World Table) :
  config w' = config w -> store_key v w' = store_key v w.
Proof. intros Hc. destruct v; cbn; [reflexivity|rewrite Hc; reflexivity]. Qed.

(** X26.  The invariant of the table under the whole service.  From a
    table in which every user has at most one row per key and every row
    carries a ciphertext under its own 16-byte IV, any sequence of linking
    requests and [/me] requests, in either variant, by any callers, with
    any bodies and whatever the driver reports, leaves a table of which
    the same holds; the key of the store stays the same. *)
Theorem service_keeps_store_ok (v : Variant) (calls : list Call) (w : World Table)
    (key : list byte) :
  store_key v w = Some key ->
  store_ok key (rows (db w)) ->
  store_key v (serve_all v calls w) = Some key /\
  store_ok key (rows (db (serve_all v calls w))).
Proof.
  revert w. unfold serve_all.
  induction calls as [|c calls IH]; intros w Hkey Hok; cbn [fold_left]; [auto|].
  apply IH.
  - rewrite <- Hkey. apply store_key_config. destruct c as [auth body|auth]; cbn [serve].
    + destruct (linking_handler v auth body w) as [out w'] eqn:Hrun.
      destruct (handler_appends v auth body _ _ _ Hrun) as (evs & _ & _ & Hc). exact Hc.
    + destruct (me_handler v auth w) as [out w'] eqn:Hrun.
      exact (proj2 (me_handler_keeps v auth w w' out Hrun)).
  - destruct c as [auth body|auth]; cbn [serve].
    + destruct (linking_handler v auth body w) as [out w'] eqn:Hrun.
      exact (linking_keeps_store_ok v auth body w w' out key Hkey Hok Hrun).
    + destruct (me_handler v auth w) as [out w'] eqn:Hrun.
      cbn [snd]. rewrite (proj1 (me_handler_keeps v auth w w' out Hrun)). exact Hok.
Qed.

Lemma filter_filter_absorb (q p : Row -> bool) t :
  (forall r, q r = true -> p r = true) ->
  List.filter q (List.filter p t) = List.filter q t.
Proof.
  intros Hqp. induction t as [|r t IH]; [reflexivity|]. cbn [List.filter].
  destruct (p r) eqn:Hp; cbn [List.filter].
  - rewrite IH. reflexivity.
  - destruct (q r) eqn:Hq; [|exact IH]. apply Hqp in Hq. congruence.
Qed.

Lemma google_sub_throws auth e :
  Server.google_sub auth = Throw e -> Server.truthy (auth_google auth) = false.
Proof.
  intros Hsub. destruct (Server.truthy (auth_google auth)) eqn:Ht; [|reflexivity].
  destruct (truthy_google_sub auth Ht) as [sub Hok]. congruence.
Qed.

(** X27.  Accounts are isolated.  A linking request, in either variant
    and whatever its outcome, leaves the rows of every account other than
    the caller's exactly as they are, so what such an account reads is the
    same before and after it. *)
Theorem linking_isolated (v : Variant) auth (body : string) (w w' : World Table)
    (out : Res unit) (other : string) :
  linking_handler v auth body w = (out, w') ->
  (forall caller, Server.google_sub auth = Ok (VStr caller) -> caller <> other) ->
  List.filter (fun r => sql_eq (VStr other) (USER_ID r)) (rows (db w')) =
  List.filter (fun r => sql_eq (VStr other) (USER_ID r)) (rows (db w)) /\
  forall key (before after' : World Table),
    rows (db before) = rows (db w) ->
    rows (db after') = rows (db w') ->
    fst (next_fault (db before)) = fst (next_fault (db after')) ->
    fst (Ekvdb.getPairs key (VStr other) before) =
    fst (Ekvdb.getPairs key (VStr other) after').
Proof.
  intros Hrun Hother.
  assert (Hrows :
    List.filter (fun r => sql_eq (VStr other) (USER_ID r)) (rows (db w')) =
    List.filter (fun r => sql_eq (VStr other) (USER_ID r)) (rows (db w))).
  { destruct (Server.google_sub auth) as [sub|e] eqn:Hsub.
    - pose proof (handler_frames v auth body sub Hsub _ _ _ Hrun) as Hframe.
      assert (Habsorb : forall t,
                List.filter (fun r => sql_eq (VStr other) (USER_ID r))
                  (untouched sub link_keys t) =
                List.filter (fun r => sql_eq (VStr other) (USER_ID r)) t).
      { intros t. apply filter_filter_absorb. intros r Hr.
        assert (Hnot : sql_eq sub (USER_ID r) = false).
        { destruct sub as [| |[| | | |caller| |]]; try reflexivity.
          cbn in Hr |- *. apply String.eqb_eq in Hr. apply String.eqb_neq.
          intros Heq. exact (Hother caller eq_refl (eq_trans Heq (eq_sym Hr))). }
        rewrite Hnot. reflexivity. }
      rewrite <- (Habsorb (rows (db w'))), <- (Habsorb (rows (db w))), Hframe. reflexivity.
    - rewrite (handler_unauthenticated v auth body w (google_sub_throws _ _ Hsub)) in Hrun.
      injection Hrun as _ <-. reflexivity. }
  split; [exact Hrows|].
  intros key before after' Hb Ha Hfault.
  rewrite !getPairs_table_eq. cbn [fst]. rewrite Hb, Ha, Hfault, Hrows. reflexivity.
Qed.

End service.

(** * Witnesses: the theorems at concrete inputs, on the toy platform *)

Module Witness.
Section witness.
#[local] Existing Instance Toy.platform.
#[local] Existing Instance toy_platform_laws.

Lemma cipher_roundtrip_witness :
  exists c,
    Crypto.cipherValueToBase64 Toy.key
      (Some (base64_encode (List.map (random_byte 0) (seq 0 16)))) (VStr "jdoe")
      (Toy.world Toy.empty_table None) =
    (Ok c, Toy.world Toy.empty_table None) /\
    Crypto.decipherValueFromBase64 Toy.key
      (base64_encode (List.map (random_byte 0) (seq 0 16))) c = Ok "jdoe"%string.
Proof.
  destruct (cipher_roundtrip (H := Toy.platform) Toy.key "jdoe" _
              (Toy.world Toy.empty_table None)
              {| db := Toy.empty_table; rng := 1; trace := []; config := None |}
              (Toy.world Toy.empty_table None) eq_refl eq_refl)
    as (c & Hc & _ & Hd).
  exists c. split; [exact Hc|]. apply Hd. reflexivity.
Defined.

(** C8: a plaintext that is one surrogate without a partner comes back
    as U+FFFD; and under a key of 31 bytes nothing is enciphered. *)
Lemma cipher_roundtrip_counterexample :
  (exists iv w' c,
     Crypto.generateIvBase64 (Toy.world Toy.empty_table None) = (Ok iv, w') /\
     Crypto.cipherValueToBase64 Toy.key (Some iv) (VStr Toy.lone_surrogate) w' =
       (Ok c, w') /\
     Crypto.decipherValueFromBase64 Toy.key iv c = Ok Toy.replacement /\
     Toy.replacement <> Toy.lone_surrogate) /\
  (exists iv w' e,
     Crypto.generateIvBase64 (Toy.world Toy.empty_table None) = (Ok iv, w') /\
     Crypto.cipherValueToBase64 Toy.short_key (Some iv) (VStr "jdoe") w' = (Throw e, w')).
Proof.
  split.
  - eexists _, _, _. split; [vm_compute; reflexivity|].
    split; [vm_compute; reflexivity|]. split; [vm_compute; reflexivity|discriminate].
  - eexists _, _, _. split; vm_compute; reflexivity.
Qed.

Lemma cipherValueToBase64_ignores_fallback_witness :
  exists e,
    Crypto.cipherValueToBase64 Toy.key (Some EmptyString) (VStr "jdoe")
      (Toy.world Toy.empty_table None) =
    (Throw e, {| db := Toy.empty_table; rng := 1; trace := []; config := None |}).
Proof.
  apply (cipherValueToBase64_ignores_fallback Toy.key (Some EmptyString) (VStr "jdoe")
           (Toy.world Toy.empty_table None)).
  right. reflexivity.
Defined.

Lemma snapshot_valid : valid_snapshot Toy.snapshot.
Proof.
  intros k p Hl. unfold Toy.snapshot in Hl.
  apply lookup_singleton_Some in Hl as [_ <-]. reflexivity.
Qed.

Lemma setValue_upsert_witness :
  valid_key Toy.key /\
  Ekvdb.setValue Toy.key (VStr "abc123") Toy.snapshot "linkedNihUsername" (VStr "jdoe")
    (Toy.world Toy.table None) =
  (Ok tt,
   {| db := {| rows := [{| USER_ID := "abc123"; KEY := "linkedNihUsername";
                           IV := Toy.stored_iv;
                           VALUE := ciphertext Toy.key Toy.stored_iv "jdoe" |}];
               faults := [] |};
      rng := 0;
      trace := [EvQuery (UpdateValue (ciphertext Toy.key Toy.stored_iv "jdoe")
                           (VStr "abc123") "linkedNihUsername")];
      config := None |}).
Proof.
  assert (Hk : valid_key Toy.key) by reflexivity.
  split; [exact Hk|].
  pose proof (proj1 (setValue_upsert Toy.key (VStr "abc123") Toy.snapshot
                       "linkedNihUsername" "jdoe" (Toy.world Toy.table None) Hk
                       snapshot_valid)) as Hthm.
  destruct (Ekvdb.setValue Toy.key (VStr "abc123") Toy.snapshot "linkedNihUsername"
              (VStr "jdoe") (Toy.world Toy.table None)) as [out w'].
  change (Toy.snapshot !! "linkedNihUsername"%string) with
    (Some {| ivBase64 := Toy.stored_iv; cipheredValueBase64 := "0123456789abcdefold";
             value := "old" |}) in Hthm.
  cbv zeta in Hthm. cbn in Hthm. destruct Hthm as [Hw (_ & Hok & _)].
  f_equal; [apply Hok; reflexivity|subst w'; reflexivity].
Defined.

(** C1: with the key present in the snapshot and a value that is
    [undefined], no statement is sent; with the key present but no IV in
    its record, the statement is an insert under a fresh IV; with a key of
    31 bytes no statement is sent. *)
Lemma setValue_upsert_counterexample :
  Toy.snapshot !! "linkedNihUsername"%string <> None /\
  Toy.blank_snapshot !! "linkedNihUsername"%string <> None /\
  (exists e,
     Ekvdb.setValue Toy.key (VStr "abc123") Toy.snapshot "linkedNihUsername" VUndefined
       (Toy.world Toy.table None) = (Throw (TypeError e), Toy.world Toy.table None)) /\
  (exists iv c w',
     Ekvdb.setValue Toy.key (VStr "abc123") Toy.blank_snapshot "linkedNihUsername"
       (VStr "jdoe") (Toy.world Toy.empty_table None) = (Ok tt, w') /\
     trace w' = [EvQuery (InsertRow (VStr "abc123") "linkedNihUsername" iv c)] /\
     rng w' = 1%nat) /\
  (exists e,
     Ekvdb.setValue Toy.short_key (VStr "abc123") Toy.snapshot "linkedNihUsername"
       (VStr "jdoe") (Toy.world Toy.table None) = (Throw e, Toy.world Toy.table None)).
Proof.
  split_and!.
  - vm_compute. discriminate.
  - vm_compute. discriminate.
  - eexists. vm_compute. reflexivity.
  - eexists _, _, _. split_and!; vm_compute; reflexivity.
  - eexists. vm_compute. reflexivity.
Qed.

Lemma key_scheme_resolution_witness :
  Singleton.withAuth (S := Table) (Some Toy.nbsp_header)
    (Toy.world Toy.empty_table (Some Toy.loaded)) =
  (Ok (AuthKey (Some "s3cret"%string)), Toy.world Toy.empty_table (Some Toy.loaded)) /\
  Middleware.withAuth (S := Table) (Some Toy.nbsp_header)
    (Toy.world Toy.empty_table (Some Toy.loaded)) =
  (Ok (AuthErr (InvalidAuthType "Key" (Some "s3cret"%string) Toy.nbsp_header)),
   Toy.world Toy.empty_table (Some Toy.loaded)).
Proof.
  destruct (key_scheme_resolution (S := Table) (Some Toy.nbsp_header) "Key"
              ["s3cret"%string] (Toy.world Toy.empty_table (Some Toy.loaded))
              eq_refl eq_refl) as [Hsingleton Hmiddleware].
  split; [|exact Hmiddleware].
  destruct (Hsingleton Toy.loaded eq_refl) as [_ Hsecret].
  destruct (Hsecret "s3cret"%string eq_refl ltac:(discriminate)) as [_ Hmatch].
  exact (Hmatch eq_refl).
Defined.

(** C3: a key-scheme request to the middleware variant's resolver gets
    none of the three answers of the claim. *)
Lemma key_scheme_counterexample :
  toLowerCase "Key" = "key"%string /\
  exists auth,
    fst (Middleware.withAuth (S := Table) (Some "Key s3cret"%string)
           (Toy.world Toy.empty_table None)) = Ok auth /\
    auth = AuthErr (InvalidAuthType "Key" (Some "s3cret"%string) "Key s3cret") /\
    (forall type value header, auth <> AuthErr (KeyAuthorizationDisabled type value header)) /\
    (forall type value header, auth <> AuthErr (InvalidAuthKey type value header)) /\
    (forall key, auth <> AuthKey key).
Proof.
  split; [reflexivity|]. eexists. split; [reflexivity|].
  split_and!; [reflexivity|discriminate..].
Qed.

Lemma singleton_parse_failure_continues_witness :
  exists out w',
    Singleton.postShibbolethToken Toy.caller "garbage" (Toy.world Toy.empty_table None) =
    (out, w') /\
    exists rest',
      trace w' =
      [EvStatus 400; EvSendJson (BodyParseFailure "garbage");
       EvHttpsGet "broad-shibboleth-prod.appspot.com" "/public-key.pem";
       EvVerify "garbage" "PEM"] ++ rest'.
Proof.
  destruct (singleton_parse_failure_continues (S := Table) Toy.caller "garbage"
              (Toy.world Toy.empty_table None) eq_refl eq_refl)
    as (out & w' & rest & Hrun & Htrace & Hverify).
  exists out, w'. split; [exact Hrun|].
  destruct (Hverify eq_refl) as [rest' ->]. exists rest'. exact Htrace.
Defined.


Lemma toy_profile_ok : store_ok Toy.key (rows Toy.profile).
Proof.
  split.
  - unfold unique_keys. cbn. repeat constructor; set_solver.
  - repeat constructor.
    + exists "1690000000"%string. split; reflexivity.
    + exists "1600000000"%string. split; reflexivity.
Qed.



Lemma linking_frame_witness :
  exists evs values,
    trace (snd Toy.linked) = evs ++ [EvSendJson (BodyLinkValues values)] /\
    omap written_key evs = link_keys /\
    lastLinkTime values = NNum 1690000000 /\
    untouched (VStr "abc123") link_keys (rows (db (snd Toy.linked))) = rows Toy.profile.
Proof.
  assert (Hrun : linking_handler (MiddlewareVariant Toy.key "prod") Toy.caller
                   "header.claims.signature" (Toy.world Toy.profile None) =
                 (Ok tt, snd Toy.linked)) by (vm_compute; reflexivity).
  destruct (linking_frame (MiddlewareVariant Toy.key "prod") Toy.caller
              "header.claims.signature" (Toy.world Toy.profile None) (snd Toy.linked)
              (Ok tt) Hrun) as (_ & Hframe & Hdone).
  assert (Hget : https_get "broad-shibboleth-prod.appspot.com"
                   (public_key_path (MiddlewareVariant Toy.key "prod")) =
                 (200%nat, "PEM"%string)) by (vm_compute; reflexivity).
  assert (Hver : jwt_verify "header.claims.signature" "PEM" = None)
    by (vm_compute; reflexivity).
  destruct (Hdone "PEM" eq_refl Hget Hver eq_refl)
    as (key & sub & evs & values & Hkey & Hsub & Htrace & Hkeys & Hlast & _).
  injection Hkey as <-. injection Hsub as <-. exists evs, values. split_and!.
  - exact Htrace.
  - exact Hkeys.
  - rewrite Hlast. reflexivity.
  - rewrite (Hframe (VStr "abc123") eq_refl). reflexivity.
Defined.

Lemma toy_table_ok : store_ok Toy.key (rows Toy.table).
Proof.
  split.
  - apply NoDup_singleton.
  - apply Forall_singleton. exists "old"%string. split; reflexivity.
Qed.

Lemma store_invariant_witness :
  exists pairs,
    fst Toy.read_once = Ok pairs /\
    forall w',
      Ekvdb.setValue Toy.key (VStr "abc123") pairs "linkedNihUsername" (VStr "jdoe")
        (snd Toy.read_once) = (Ok tt, w') ->
      store_ok Toy.key (rows (db w')) /\
      exists r,
        In r (rows (db w')) /\
        matches (VStr "abc123") "linkedNihUsername" r = true /\
        Crypto.decipherValueFromBase64 Toy.key (IV r) (VALUE r) = Ok "jdoe"%string.
Proof.
  destruct (fst Toy.read_once) as [pairs|e] eqn:Hread; [|vm_compute in Hread; discriminate].
  exists pairs. split; [reflexivity|]. intros w' Hwrite.
  assert (Hh : history Toy.key (Toy.world Toy.table None) (snd Toy.read_once)
                 [(VStr "abc123", pairs)]).
  { pose proof (history_read Toy.key (Toy.world Toy.table None) (VStr "abc123")
                  (Toy.world Toy.table None) [] (fst Toy.read_once) (snd Toy.read_once)
                  (history_start _ _) (surjective_pairing _)) as Hh.
    rewrite Hread in Hh. exact Hh. }
  destruct (store_invariant Toy.key (Toy.world Toy.table None) (snd Toy.read_once)
              [(VStr "abc123", pairs)] eq_refl toy_table_ok Hh) as (_ & _ & Hwritten).
  destruct (Hwritten (VStr "abc123") pairs "linkedNihUsername"%string (VStr "jdoe") w'
              (or_introl eq_refl) Hwrite) as (Hok & plain & r & Hv & Hin & Hm & _ & Hwf).
  split; [exact Hok|]. exists r. unfold VStr in Hv. injection Hv as <-.
  split_and!; [exact Hin|exact Hm|exact (Hwf eq_refl)].
Defined.

(** C7: a [setValue] with a snapshot that is not of the table leaves a
    row whose ciphertext was produced under another IV than the one stored
    in the row, and which does not decipher to the value written; and a
    value that is one surrogate without a partner, written with a snapshot
    just read, deciphers to U+FFFD. *)
Lemma store_invariant_counterexample :
  (exists w' r,
     Ekvdb.setValue Toy.key (VStr "abc123") Toy.foreign_snapshot "linkedNihUsername"
       (VStr "jdoe") (Toy.world Toy.table None) = (Ok tt, w') /\
     rows (db w') = [r] /\
     IV r = Toy.stored_iv /\
     VALUE r = ciphertext Toy.key "fedcba9876543210" "jdoe" /\
     base64_decode "fedcba9876543210" <> base64_decode (IV r) /\
     Crypto.decipherValueFromBase64 Toy.key (IV r) (VALUE r) <> Ok "jdoe"%string) /\
  (exists pairs w' r,
     fst Toy.read_once = Ok pairs /\
     Ekvdb.setValue Toy.key (VStr "abc123") pairs "linkedNihUsername"
       (VStr Toy.lone_surrogate) (snd Toy.read_once) = (Ok tt, w') /\
     rows (db w') = [r] /\
     Crypto.decipherValueFromBase64 Toy.key (IV r) (VALUE r) = Ok Toy.replacement /\
     Toy.replacement <> Toy.lone_surrogate).
Proof.
  split.
  - eexists _, _. split; [vm_compute; reflexivity|].
    split_and!; [reflexivity|reflexivity|reflexivity|vm_compute; discriminate|
                 vm_compute; discriminate].
  - eexists _, _, _. split; [vm_compute; reflexivity|].
    split; [vm_compute; reflexivity|].
    split_and!; [reflexivity|vm_compute; reflexivity|discriminate].
Qed.

(** ** Further runs on the toy platform *)

Lemma toy_snapshot_of :
  snapshot_of (VStr "abc123") Toy.snapshot (rows (db (Toy.world Toy.table None))).
Proof.
  intros k p Hl. unfold Toy.snapshot in Hl. apply lookup_singleton_Some in Hl as [<- <-].
  eexists. split; [left; reflexivity|]. split; reflexivity.
Qed.

Lemma parseInt_number_toString_witness :
  parseInt (Some (number_toString 1700000000)) = NNum 1700000000 /\
  unixToJsTime (parseInt (Some (number_toString 1702592000))) = NNum 1702592000000.
Proof.
  split.
  - exact (proj1 (parseInt_number_toString 1700000000 eq_refl)).
  - destruct (parseInt_number_toString 1702592000 eq_refl) as (_ & _ & Hms & _).
    exact (Hms eq_refl).
Defined.

Lemma setValue_read_back_witness :
  exists pairs',
    fst (Ekvdb.getPairs Toy.key (VStr "abc123")
           (snd (Ekvdb.setValue Toy.key (VStr "abc123") Toy.snapshot "linkedNihUsername"
                   (VStr "jdoe") (Toy.world Toy.table None)))) = Ok pairs' /\
    pairs' !! "linkedNihUsername"%string =
    Some {| ivBase64 := Toy.stored_iv;
            cipheredValueBase64 := ciphertext Toy.key Toy.stored_iv "jdoe";
            value := "jdoe" |}.
Proof.
  set (w1 := snd (Ekvdb.setValue Toy.key (VStr "abc123") Toy.snapshot "linkedNihUsername"
                    (VStr "jdoe") (Toy.world Toy.table None))).
  assert (Hset : Ekvdb.setValue Toy.key (VStr "abc123") Toy.snapshot "linkedNihUsername"
                   (VStr "jdoe") (Toy.world Toy.table None) = (Ok tt, w1))
    by (vm_compute; reflexivity).
  destruct (Ekvdb.getPairs Toy.key (VStr "abc123") w1) as [[pairs'|e] w2] eqn:Hget;
    [|vm_compute in Hget; discriminate].
  exists pairs'. split; [reflexivity|].
  destruct (setValue_read_back Toy.key (VStr "abc123") Toy.snapshot pairs'
              "linkedNihUsername" (VStr "jdoe") (Toy.world Toy.table None) w1 w2
              toy_snapshot_of Hset Hget) as [(plain & iv & Hplain & Hentry & _ & Hiv) _].
  unfold VStr in Hplain. injection Hplain as <-.
  rewrite Hentry, (Hiv _ eq_refl). reflexivity.
Defined.

Lemma setValue_rejects_non_string_witness :
  exists e,
    Ekvdb.setValue Toy.key (VStr "abc123") Toy.snapshot "linkedNihUsername" VUndefined
      (Toy.world Toy.table None) = (Throw e, Toy.world Toy.table None).
Proof.
  destruct (setValue_rejects_non_string Toy.key (VStr "abc123") Toy.snapshot
              "linkedNihUsername" VUndefined (Toy.world Toy.table None)
              ltac:(discriminate)) as (e & w' & Hrun & _).
  exists e. rewrite Hrun. f_equal.
  assert (Hw : snd (Ekvdb.setValue Toy.key (VStr "abc123") Toy.snapshot "linkedNihUsername"
                      VUndefined (Toy.world Toy.table None)) = Toy.world Toy.table None)
    by (vm_compute; reflexivity).
  rewrite Hrun in Hw. exact Hw.
Defined.

Lemma setValue_conflict_no_rollback_witness :
  exists w',
    Ekvdb.setValue Toy.key (VStr "abc123") Toy.snapshot "linkedNihUsername" (VStr "jdoe")
      (Toy.world ToyTables.doubled None) =
    (Throw (WriteConflict Updating (VStr "abc123") "linkedNihUsername" 2), w') /\
    List.map VALUE (rows (db w')) =
    [ciphertext Toy.key Toy.stored_iv "jdoe"; ciphertext Toy.key Toy.stored_iv "jdoe"].
Proof.
  set (w' := snd (Ekvdb.setValue Toy.key (VStr "abc123") Toy.snapshot "linkedNihUsername"
                    (VStr "jdoe") (Toy.world ToyTables.doubled None))).
  assert (Hrun : Ekvdb.setValue Toy.key (VStr "abc123") Toy.snapshot "linkedNihUsername"
                   (VStr "jdoe") (Toy.world ToyTables.doubled None) =
                 (Throw (WriteConflict Updating (VStr "abc123") "linkedNihUsername" 2), w'))
    by (vm_compute; reflexivity).
  exists w'. split; [exact Hrun|].
  destruct (setValue_conflict_no_rollback Toy.key _ _ _ _ _ _ _ _ _ _ Hrun)
    as (_ & _ & _ & _ & _ & p & plain & Hp & Hplain & Hrows & _).
  unfold Toy.snapshot in Hp. apply lookup_singleton_Some in Hp as [_ <-].
  unfold VStr in Hplain. injection Hplain as <-.
  rewrite Hrows. reflexivity.
Defined.

Lemma parse_payload_second_part_witness :
  Server.parse_payload "header.claims" =
    Some (JObj [("eraCommonsUsername"%string, JStr "jdoe"); ("iat"%string, JNum 1700000000)]) /\
  Server.parse_payload "header.claims.forged" = Server.parse_payload "header.claims" /\
  Server.parse_payload "header" = None.
Proof.
  destruct (parse_payload_second_part "header" "claims" eq_refl eq_refl)
    as (Hpayload & Hsigned & Hnone).
  split_and!; [exact Hpayload| |exact Hnone].
  etransitivity; [exact (Hsigned "forged")|symmetry; exact Hpayload].
Defined.

Lemma linking_requires_google_witness :
  exists auth pre,
    linking_route SingletonVariant (Some "Key s3cret"%string) "header.claims.signature"
      (Toy.world Toy.table (Some Toy.loaded)) =
    (Ok tt,
     after (Toy.world Toy.table (Some Toy.loaded))
       (pre ++ [EvStatus 401; EvSendJson (BodyAuth auth)])) /\
    auth_google auth = VUndefined /\
    (pre = [] \/
     pre = [EvHttpsGet "oauth2.googleapis.com"
              (tokeninfo_path (Some "Key s3cret"%string))]).
Proof.
  assert (Hscheme : scheme (Some "Key s3cret"%string) <> Some "bearer"%string)
    by (vm_compute; discriminate).
  destruct (linking_requires_google SingletonVariant (Some "Key s3cret"%string)
              "header.claims.signature" (Toy.world Toy.table (Some Toy.loaded))
              (or_introl Hscheme)) as [_ Hset].
  apply Hset. intros (_ & _ & Hnone). discriminate.
Defined.

Lemma linking_response_witness :
  exists values,
    last (trace (snd Toy.linked)) = Some (EvSendJson (BodyLinkValues values)) /\
    linkedNihUsername values = Some "jdoe"%string /\
    linkExpireTime values = NNum 1702592000 /\
    linkExpireTimeHuman values = NNum 1702592000000.
Proof.
  assert (Hrun : linking_handler (MiddlewareVariant Toy.key "prod") Toy.caller
                   "header.claims.signature" (Toy.world Toy.profile None) =
                 (Ok tt, snd Toy.linked)) by (vm_compute; reflexivity).
  assert (Hget : https_get "broad-shibboleth-prod.appspot.com"
                   (public_key_path (MiddlewareVariant Toy.key "prod")) =
                 (200%nat, "PEM"%string)) by (vm_compute; reflexivity).
  assert (Hver : jwt_verify "header.claims.signature" "PEM" = None)
    by (vm_compute; reflexivity).
  destruct (linking_response (MiddlewareVariant Toy.key "prod") Toy.caller
              "header.claims.signature" (Toy.world Toy.profile None) (snd Toy.linked)
              "PEM" eq_refl Hget Hver Hrun)
    as (payload & username & iat & exp & values & Hp & Hu & Hiat & _ & Hlast & Hname & _ & _
        & Hnum & _).
  vm_compute in Hp. injection Hp as <-.
  vm_compute in Hu. injection Hu as <-.
  vm_compute in Hiat. injection Hiat as <-.
  exists values. destruct (Hnum 1700000000 eq_refl eq_refl eq_refl) as [Hexp Hms].
  split_and!; [exact Hlast|exact Hname|exact Hexp|exact (Hms eq_refl)].
Defined.


Lemma me_answers_own_rows_witness :
  exists sub out w',
    Server.google_sub Toy.caller = Ok sub /\
    me_handler (MiddlewareVariant Toy.key "prod") Toy.caller (Toy.world Toy.profile None) =
      (out, w') /\
    rows (db w') = rows Toy.profile /\
    trace w' = [EvQuery (SelectByUser sub)] /\
    out <> Ok None /\
    forall plain, out = Ok (Some plain) ->
      forall k,
        plain !! k =
        value <$> (last (List.filter (matches sub k) (rows Toy.profile))
                     ≫= pair_of_row Toy.key).
Proof.
  exact (me_answers_own_rows (MiddlewareVariant Toy.key "prod") Toy.caller
           (Toy.world Toy.profile None) Toy.key eq_refl).
Defined.

Lemma reload_gate_witness :
  Index.route_src (S := Table) (Some "Key s3cret"%string)
    (Toy.world Toy.empty_table (Some Toy.loaded)) =
  (Ok true, Toy.world Toy.empty_table (Some Toy.loaded)).
Proof.
  destruct (reload_gate (S := Table) (Some "Key s3cret"%string)
              (Toy.world Toy.empty_table (Some Toy.loaded)) Toy.loaded eq_refl)
    as [[_ Hrun]|[Hnot _]]; [exact Hrun|].
  exfalso. apply Hnot. split_and!; vm_compute; reflexivity.
Defined.

Lemma linking_idempotent_witness :
  rows (db (snd (linking_handler (MiddlewareVariant Toy.key "prod") Toy.caller
                   "header.claims.signature" (snd Toy.linked)))) =
  rows (db (snd Toy.linked)).
Proof.
  assert (Hrun : linking_handler (MiddlewareVariant Toy.key "prod") Toy.caller
                   "header.claims.signature" (Toy.world Toy.profile None) =
                 (Ok tt, snd Toy.linked)) by (vm_compute; reflexivity).
  exact (proj1 (linking_idempotent (MiddlewareVariant Toy.key "prod") Toy.caller
                  "header.claims.signature" (Toy.world Toy.profile None) (snd Toy.linked)
                  _ _ Hrun (surjective_pairing _))).
Defined.

Lemma service_keeps_store_ok_witness :
  store_ok Toy.key
    (rows (db (serve_all (MiddlewareVariant Toy.key "prod")
                 [CallLink Toy.caller "header.claims.signature";
                  CallMe Toy.caller;
                  CallLink Toy.caller "header.claims.signature"]
                 (Toy.world Toy.table None)))).
Proof.
  exact (proj2 (service_keeps_store_ok (MiddlewareVariant Toy.key "prod")
                  [CallLink Toy.caller "header.claims.signature";
                   CallMe Toy.caller;
                   CallLink Toy.caller "header.claims.signature"]
                  (Toy.world Toy.table None) Toy.key eq_refl toy_table_ok)).
Defined.

Lemma linking_isolated_witness :
  List.filter (fun r => sql_eq (VStr "zed") (USER_ID r)) (rows (db (snd Toy.linked))) =
  List.filter (fun r => sql_eq (VStr "zed") (USER_ID r)) (rows Toy.profile).
Proof.
  assert (Hrun : linking_handler (MiddlewareVariant Toy.key "prod") Toy.caller
                   "header.claims.signature" (Toy.world Toy.profile None) =
                 (Ok tt, snd Toy.linked)) by (vm_compute; reflexivity).
  assert (Hother : forall caller,
                     Server.google_sub Toy.caller = Ok (VStr caller) ->
                     caller <> "zed"%string).
  { intros caller Hc. vm_compute in Hc. injection Hc as <-. discriminate. }
  exact (proj1 (linking_isolated (MiddlewareVariant Toy.key "prod") Toy.caller
                  "header.claims.signature" (Toy.world Toy.profile None) (snd Toy.linked)
                  (Ok tt) "zed" Hrun Hother)).
Defined.

End witness.
End Witness.


(** * Witnesses on the toy cloud *)

Module WitnessCloud.
Section witness.
#[local] Existing Instance ToyCloud.platform.
#[local] Existing Instance ToyCloud.cloud.
Import Startup.

Lemma key_fetch_failure_stops_witness :
  linking_handler (MiddlewareVariant Toy.key "dev") Toy.caller "header.claims.signature"
    (Toy.world Toy.table None) =
  (Throw (StructError "failed to fetch key for JWT verification"),
   after (Toy.world Toy.table None)
     [EvHttpsGet "broad-shibboleth-prod.appspot.com" "/dev/public-key.pem"]).
Proof.
  exact (key_fetch_failure_stops (MiddlewareVariant Toy.key "dev") Toy.caller
           "header.claims.signature" (Toy.world Toy.table None) 404 "not found"
           eq_refl eq_refl ltac:(discriminate)).
Defined.

Lemma prepare_environment_witness :
  exists l store options,
    fst (MiddlewareApp.prepare "dev") = Done l /\
    MiddlewareApp.crypto l = Some (base64_decode "devkey0123456789devkey0123456789") /\
    MiddlewareApp.ekvdb l = Some store /\
    MiddlewareApp.dbOpts store !! "password"%string = Some (VStr "devpass") /\
    EkvdbInternals.pool_options (MiddlewareApp.dbOpts store) = Ok options /\
    options !! "socketPath"%string =
    Some (VStr "/cloudsql/broad-dsde-dev:us-central1:thurloe-cloudsql-dev201-9e45a2fc870e72f2").
Proof.
  destruct (fst (MiddlewareApp.prepare "dev")) as [l|f] eqn:Hl;
    [|vm_compute in Hl; discriminate].
  destruct (prepare_environment "dev" l Hl)
    as ((parsed & section & text & password & key & Hfetch & Hsection & Htext & Hpassword
         & _ & Hkey & _ & Hcrypto & store & Hstore & _ & Hpw & options & Hoptions
         & Hsocket) & _).
  vm_compute in Hfetch. injection Hfetch as <-.
  vm_compute in Hsection. injection Hsection as <-.
  vm_compute in Htext. injection Htext as <-.
  vm_compute in Hpassword. injection Hpassword as <-.
  exists l, store, options.
  split_and!; [reflexivity| |exact Hstore|exact Hpw|exact Hoptions|exact Hsocket].
  rewrite Hcrypto, (Hkey _ eq_refl). reflexivity.
Defined.

Lemma withConfig_loads_witness :
  exists p' store options,
    SingletonApp.withConfig SingletonApp.started = (Done tt, p') /\
    SingletonApp.authKey <$> SingletonApp.config p' = Some (Some "s3cret"%string) /\
    SingletonApp.crypto p' = Some (base64_decode "0123456789abcdef0123456789abcdef") /\
    SingletonApp.ekvdb p' = Some store /\
    EkvdbInternals.pool_options (SingletonApp.dbOpts store) = Ok options /\
    options !! "socketPath"%string = Some (VStr "/cloudsql/undefined").
Proof.
  assert (Hrun : SingletonApp.withConfig SingletonApp.started =
                 (Done tt, snd (SingletonApp.withConfig SingletonApp.started)))
    by (vm_compute; reflexivity).
  destruct (withConfig_loads SingletonApp.started _ (Done tt) eq_refl eq_refl eq_refl Hrun)
    as (parsed & key & store & Hfetch & Hconfig & Hkey & Hcrypto & Hstore & _ & _
        & (options & Hoptions & Hsocket) & _).
  vm_compute in Hfetch. injection Hfetch as <-.
  vm_compute in Hkey. injection Hkey as <-.
  eexists _, store, options.
  split_and!; [exact Hrun| |exact Hcrypto|exact Hstore|exact Hoptions|exact Hsocket].
  rewrite Hconfig. reflexivity.
Defined.

Lemma withConfig_never_refetches_witness :
  SingletonApp.withConfig_times 3
    {| SingletonApp.config :=
         Some {| SingletonApp.parsed := JObj []; SingletonApp.authKey := None |};
       SingletonApp.crypto := None; SingletonApp.ekvdb := None;
       SingletonApp.requests := [] |} =
  (repeat (Failed (Thrown (TypeError "The first argument must be of type string"))) 3,
   {| SingletonApp.config :=
        Some {| SingletonApp.parsed := JObj []; SingletonApp.authKey := None |};
      SingletonApp.crypto := None; SingletonApp.ekvdb := None;
      SingletonApp.requests := [] |}).
Proof.
  pose proof (withConfig_never_refetches 3
                {| SingletonApp.config :=
                     Some {| SingletonApp.parsed := JObj []; SingletonApp.authKey := None |};
                   SingletonApp.crypto := None; SingletonApp.ekvdb := None;
                   SingletonApp.requests := [] |}
                {| SingletonApp.parsed := JObj []; SingletonApp.authKey := None |} eq_refl)
    as Hthm.
  destruct (SingletonApp.withConfig_times 3 _) as [outcomes p'].
  destruct Hthm as (_ & _ & Hstuck & _).
  destruct (Hstuck _ eq_refl eq_refl) as [-> ->]. reflexivity.
Defined.

Lemma authkey_file_is_the_secret_witness :
  exists key,
    Singleton.withAuth (S := Table) (Some "Key s3cret"%string)
      (Toy.world Toy.empty_table (Some Toy.loaded)) =
    (Ok (AuthKey key), Toy.world Toy.empty_table (Some Toy.loaded)).
Proof.
  assert (Hrun : SingletonApp.withConfig SingletonApp.started =
                 (Done tt, snd (SingletonApp.withConfig SingletonApp.started)))
    by (vm_compute; reflexivity).
  destruct (authkey_file_is_the_secret (S := Table) _ Toy.loaded (Some "Key s3cret"%string)
              (Toy.world Toy.empty_table (Some Toy.loaded)) Hrun
              ltac:(vm_compute; reflexivity) eq_refl)
    as (_ & _ & _ & Hkey).
  destruct (Hkey ltac:(vm_compute; reflexivity)) as [Hiff _].
  apply Hiff. exists " s3cret "%string.
  split_and!; [reflexivity|vm_compute; discriminate|vm_compute; reflexivity].
Defined.

End witness.
End WitnessCloud.
